(** * jasmin_mongo_logger: the event pipeline of [reactor.py]

    A shallow embedding of [LogReactor] (src/jasmin_mongo_logger/reactor.py):
    the document sanitizer ([replace_none], [fix_keys]), the fragment
    reassembly and charset resolution of a submission, the billing snapshot,
    the three per-event record builders, the consumer loop of
    [gotConnection] and the retry logic shared by [gotConnection] and
    [ConError]. *)

From Stdlib Require Import ZArith Floats Uint63.
From Stdlib.Strings Require Import Ascii Byte.
From stdpp Require Import base decidable option list strings pretty gmap.

Open Scope string_scope.
Open Scope list_scope.

(** ** Python values *)

(** Exceptions the modelled code can raise.  [KeyboardInterrupt] is the only
    one that is not an [Exception] (it derives from [BaseException]). *)
Inductive exn :=
| KeyError | TypeError | AttributeError | UnpicklingError
| UnicodeDecodeError | ConnectionClosed | KeyboardInterrupt.

#[global] Instance exn_eq_dec : EqDecision exn.
Proof. solve_decision. Defined.

(** The outcome of fallible code: a value, or a raised exception. *)
Inductive result (A : Type) :=
| Ok (a : A)
| Raise (e : exn).
Arguments Ok {A} a.
Arguments Raise {A} e.

#[global] Instance result_ret : MRet result := @Ok.
#[global] Instance result_bind : MBind result := fun A B f m =>
  match m with
  | Ok a => f a
  | Raise e => Raise e
  end.

(** Numbers: Python [int] and [float]. *)
Inductive number :=
| NInt (z : Z)
| NFloat (f : float).

(** Dictionary keys.  The documents of this program have textual keys; a
    second kind stands for every key that is not a [str]. *)
Inductive key :=
| KStr (s : string)
| KInt (z : Z).

#[global] Instance key_eq_dec : EqDecision key.
Proof. solve_decision. Defined.

#[global] Instance byte_eq_dec : EqDecision byte := Byte.byte_eq_dec.

(** A document tree.  A [dict] keeps its insertion order, so it is an
    association list; Python guarantees its keys are pairwise distinct
    (see [wf]).  Text ([str], and with it every textual key) is a Rocq
    string, one [ascii] per character; [bytes] is a list of bytes.  Lists
    and dicts are the only containers the sanitizer enters: any other object
    is a leaf to it, and the leaves modelled are these scalars. *)
#[local] Unset Elimination Schemes.
Inductive value :=
| VNone
| VBool (b : bool)
| VNum (x : number)
| VStr (s : string)
| VBytes (b : list byte)
| VList (l : list value)
| VDict (d : list (key * value)).
#[local] Set Elimination Schemes.

Abbreviation dict := (list (key * value)).

(** [isinstance(v, (list, dict))] *)
Definition is_container (v : value) : bool :=
  match v with
  | VList _ | VDict _ => true
  | _ => false
  end.

(** ** Dictionary operations, on an association list in insertion order *)

Section Dict.
Context {V : Type}.

(** [d.get(k)] *)
Fixpoint dict_get (k : key) (d : list (key * V)) : option V :=
  match d with
  | [] => None
  | (k', v) :: d' => if decide (k' = k) then Some v else dict_get k d'
  end.

(** [d[k] = v]: an existing key keeps its place, a new one goes last. *)
Fixpoint dict_set (k : key) (v : V) (d : list (key * V)) : list (key * V) :=
  match d with
  | [] => [(k, v)]
  | (k', v') :: d' =>
      if decide (k' = k) then (k', v) :: d' else (k', v') :: dict_set k v d'
  end.

(** [del d[k]]: no entry of [d] has the key [k] afterwards. *)
Definition dict_del (k : key) (d : list (key * V)) : list (key * V) :=
  filter (fun kv => kv.1 <> k) d.

(** [d.pop(k)]: raises [KeyError] when [k] is missing. *)
Definition dict_pop (k : key) (d : list (key * V)) : result (V * list (key * V)) :=
  match dict_get k d with
  | Some v => Ok (v, dict_del k d)
  | None => Raise KeyError
  end.

(** [d.pop(k, default)] *)
Definition dict_pop_default (k : key) (dflt : V) (d : list (key * V))
  : V * list (key * V) :=
  match dict_get k d with
  | Some v => (v, dict_del k d)
  | None => (dflt, d)
  end.
End Dict.

(** ** String operations used by [fix_keys] *)

(** [s.startswith(c)] for a one-character [c]. *)
Definition startswith (c : ascii) (s : string) : bool :=
  match s with
  | String c' _ => bool_decide (c' = c)
  | EmptyString => false
  end.

(** [c in s] for a one-character [c]. *)
Fixpoint contains (c : ascii) (s : string) : bool :=
  match s with
  | EmptyString => false
  | String c' s' => bool_decide (c' = c) || contains c s'
  end.

(** [s.replace(c, new)] for a one-character [c]: every occurrence. *)
Fixpoint str_replace (c : ascii) (new : string) (s : string) : string :=
  match s with
  | EmptyString => EmptyString
  | String c' s' =>
      if bool_decide (c' = c) then new +:+ str_replace c new s'
      else String c' (str_replace c new s')
  end.

(** ** DocumentSanitizer *)

(** The value [replace_none] leaves in a slot that held [v]. *)
Definition none_slot (rec : value -> value) (v : value) : value :=
  match v with
  | VNone => VStr "None"
  | _ => if is_container v then rec v else v
  end.

(** [replace_none] (reactor.py 725-738).  Both loops assign to the slot being
    visited ([data[i]], and [data[k]] for the key being visited) or mutate
    the nested container held there, so each loop is a pass over the slots
    in order. *)
Fixpoint replace_none (data : value) : value :=
  match data with
  | VList l => VList (map (none_slot replace_none) l)
  | VDict d => VDict (map (fun '(k, v) => (k, none_slot replace_none v)) d)
  | _ => data
  end.

(** [new_key] as the loop body of [fix_keys] computes it from a textual key
    (reactor.py 748-754): each test is on the original [k], each replacement
    on the key rewritten so far. *)
Definition new_key (k : string) : string :=
  let new_key := k in
  let new_key :=
    if startswith "$" k then str_replace "$" "dollar_" new_key else new_key in
  let new_key :=
    if contains "." k then str_replace "." "_" new_key else new_key in
  let new_key :=
    if contains "-" k then str_replace "-" "_" new_key else new_key in
  new_key.

(** While [fix_keys] walks a snapshot of a dict's items, the dict itself is
    a table from keys to object references, and the objects live apart: a
    value is moved between keys by reference and mutated in place whether or
    not the dict still holds it.  The reference of an object is its position
    in the snapshot. *)
Abbreviation table := (list (key * nat)).

(** [if isinstance(k, str): ... if new_key != k: data[new_key] = data.pop(k)] *)
Definition move_key (k : key) (data : table) : result table :=
  match k with
  | KStr s =>
      let nk := new_key s in
      if decide (nk = s) then Ok data
      else '(r, data') ← dict_pop k data; Ok (dict_set (KStr nk) r data')
  | KInt _ => Ok data
  end.

(** The dict a table denotes once the loop is over. *)
Definition resolve (data : table) (objs : list value) : dict :=
  omap (fun '(k, r) => v ← objs !! r; Some (k, v)) data.

(** [for x in l: ...] over fallible bodies, results collected in order. *)
Definition mapM {A B} (f : A -> result B) : list A -> result (list B) :=
  fix go l :=
    match l with
    | [] => Ok []
    | x :: l' => y ← f x; l'' ← go l'; Ok (y :: l'')
    end.

(** [for k, v in snapshot: ...] with the loop state threaded through; [i]
    counts the items visited so far. *)
Definition for_items {S} (body : nat -> key -> value -> S -> result S)
  : dict -> nat -> S -> result S :=
  fix go items i st :=
    match items with
    | [] => Ok st
    | (k, v) :: rest => st' ← body i k v st; go rest (1 + i)%nat st'
    end.

(** [fix_keys] (reactor.py 740-759). *)
Fixpoint fix_keys (data : value) : result value :=
  match data with
  | VList l =>
      l' ← mapM (fun v => if is_container v then fix_keys v else Ok v) l;
      Ok (VList l')
  | VDict d =>
      '(tbl, objs) ←
        for_items
          (fun i k v '(tbl, objs) =>
             tbl' ← move_key k tbl;
             if is_container v
             then v' ← fix_keys v; Ok (tbl', <[i := v']> objs)
             else Ok (tbl', objs))
          d 0%nat (imap (fun i '(k, _) => (k, i)) d, d.*2);
      Ok (VDict (resolve tbl objs))
  | _ => Ok data
  end.

(** The two passes in the order every record builder applies them. *)
Definition sanitize (data : value) : result value :=
  fix_keys (replace_none data).

(** ** Predicates on documents *)

(** Induction over a document tree, through its lists and dicts. *)
Definition value_ind' (P : value -> Prop)
  (HNone : P VNone) (HBool : forall b, P (VBool b)) (HNum : forall x, P (VNum x))
  (HStr : forall s, P (VStr s)) (HBytes : forall b, P (VBytes b))
  (HList : forall l, Forall P l -> P (VList l))
  (HDict : forall d, Forall (fun kv => P kv.2) d -> P (VDict d))
  : forall v, P v :=
  fix IH v :=
    match v with
    | VNone => HNone
    | VBool b => HBool b
    | VNum x => HNum x
    | VStr s => HStr s
    | VBytes b => HBytes b
    | VList l =>
        HList l
          ((fix go l : Forall P l :=
              match l with
              | [] => List.Forall_nil _
              | v :: l' => @List.Forall_cons _ P v l' (IH v) (go l')
              end) l)
    | VDict d =>
        HDict d
          ((fix go d : Forall (fun kv => P kv.2) d :=
              match d with
              | [] => List.Forall_nil _
              | kv :: d' =>
                  @List.Forall_cons _ (fun kv => P kv.2) kv d' (IH kv.2) (go d')
              end) d)
    end.

(** A document as Python can build it: the keys of every dict, at any depth,
    are pairwise distinct. *)
Fixpoint wf (v : value) : bool :=
  match v with
  | VList l => forallb wf l
  | VDict d => bool_decide (NoDup d.*1) && forallb (fun kv => wf kv.2) d
  | _ => true
  end.

(** What the store accepts as a textual key: it does not start with [$] and
    holds neither [.] nor [-]. *)
Definition clean (s : string) : bool :=
  negb (startswith "$" s) && negb (contains "." s) && negb (contains "-" s).

Definition key_clean (k : key) : bool :=
  match k with
  | KStr s => clean s
  | KInt _ => true
  end.

(** Every textual key, at any depth, is [clean]. *)
Fixpoint keys_clean (v : value) : bool :=
  match v with
  | VList l => forallb keys_clean l
  | VDict d => forallb (fun kv => key_clean kv.1 && keys_clean kv.2) d
  | _ => true
  end.

(** A slot that does not hold [None] and whose content satisfies [p]. *)
Definition filled (p : value -> bool) (v : value) : bool :=
  match v with
  | VNone => false
  | _ => p v
  end.

(** No slot of a list or dict, at any depth, holds [None]. *)
Fixpoint no_none (v : value) : bool :=
  match v with
  | VList l => forallb (filled no_none) l
  | VDict d => forallb (fun kv => filled no_none kv.2) d
  | _ => true
  end.

(** The key rewriting in the words of its description: a key that starts
    with [$] has each [$] replaced by [dollar_]; then every [.] and every
    [-] becomes [_]. *)
Definition spec_key (s : string) : string :=
  str_replace "-" "_"
    (str_replace "." "_"
       (if startswith "$" s then str_replace "$" "dollar_" s else s)).

Definition rewrite_key (k : key) : key :=
  match k with
  | KStr s => KStr (spec_key s)
  | KInt z => KInt z
  end.

(** [rewritten v v']: [v'] is [v] with its keys rewritten.  Scalars and the
    order and length of lists are kept; every entry of a dict of [v'] is an
    entry of the matching dict of [v] under its rewritten key, with its value
    rewritten in turn, and every key of a dict of [v] is found rewritten in
    the matching dict of [v']. *)
#[local] Unset Elimination Schemes.
Inductive rewritten : value -> value -> Prop :=
| rewritten_scalar v :
    is_container v = false -> rewritten v v
| rewritten_list l l' :
    Forall2 rewritten l l' -> rewritten (VList l) (VList l')
| rewritten_dict d d' :
    (forall k' v', (k', v') ∈ d' ->
       exists k v, (k, v) ∈ d /\ k' = rewrite_key k /\ rewritten v v') ->
    (forall k, k ∈ d.*1 -> rewrite_key k ∈ d'.*1) ->
    rewritten (VDict d) (VDict d').

(** Null normalization in the words of its description, slot by slot: a
    null becomes the string [None], any other scalar is kept, and a list or
    dict keeps its length, its order and its keys. *)
Inductive normalized : value -> value -> Prop :=
| normalized_null : normalized VNone (VStr "None")
| normalized_scalar v :
    is_container v = false -> v <> VNone -> normalized v v
| normalized_list l l' :
    Forall2 normalized l l' -> normalized (VList l) (VList l')
| normalized_dict d d' :
    Forall2 (fun kv kv' => kv.1 = kv'.1 /\ normalized kv.2 kv'.2) d d' ->
    normalized (VDict d) (VDict d').

#[local] Set Elimination Schemes.

(** The key moves of the [fix_keys] loop alone, over the snapshot's keys. *)
Fixpoint move_keys (ks : list key) (data : table) : result table :=
  match ks with
  | [] => Ok data
  | k :: ks' => data' ← move_key k data; move_keys ks' data'
  end.

(** The in-place rewriting of one snapshot value by [fix_keys]. *)
Definition fix_slot (v : value) : result value :=
  if is_container v then fix_keys v else Ok v.

(** The body of the [fix_keys] loop over a dict's items, as a function of
    the loop state (the table of the dict, the snapshot's objects). *)
Definition fix_keys_body (i : nat) (k : key) (v : value)
    (st : table * list value) : result (table * list value) :=
  let '(tbl, objs) := st in
  tbl' ← move_key k tbl;
  if is_container v
  then v' ← fix_keys v; Ok (tbl', <[i := v']> objs)
  else Ok (tbl', objs).

(** The table a dict starts the loop with: each key refers to its own
    value. *)
Definition initial_table (d : dict) : table :=
  imap (fun i '(k, _) => (k, i)) d.

(** ** What the program takes from its libraries *)

(** The codecs [bytes.decode] is called with. *)
Inductive codec := Ascii | Latin1 | Utf16be | Utf8.

(** A link of a fragment chain ([smpp.pdu]): the parameters [gotConnection]
    reads, the name of the status, and the next fragment when the PDU has a
    [nextPdu] attribute.  A field read with [params.get] is [None] when the
    parameter is missing. *)
Inductive gsm_feature := UDHI_INDICATOR_SET | SET_REPLY_PATH.

Record pdu_params := {
  short_message : option (list byte);
  sar_msg_ref_num : option Z;
  esm_class : option (list gsm_feature);
  destination_addr : option (list byte);
  source_addr : option (list byte);
  schedule_delivery_time : value;
  validity_period : value;
  data_coding : option Z;
}.

#[local] Unset Elimination Schemes.
Inductive PDU := {
  params : pdu_params;
  status : string;
  nextPdu : option PDU;
}.
#[local] Set Elimination Schemes.

(** The billing object pickled into the headers ([jasmin]'s bill), by what
    [gotConnection] reads off it. *)
Record Bill := {
  bid : value;
  user_uid : string;
  user_gid : value;
  user_username : value;
  quota_balance : value;
  quota_submit_sm_count : value;
  getTotalAmounts : number;
  decrement_submit_sm_count : option number;
}.

(** The library functions and constants the pipeline calls, as parameters:
    [pickle.loads] on a PDU and on a bill ([None]: it raises), the strict
    UTF-8 [decode] ([None]: [UnicodeDecodeError]), [decode(codec, "replace")],
    which never raises, and the four entries of
    [data_coding_default_name_map] the charset resolution compares with. *)
Class Library := {
  loads_pdu : list byte -> option PDU;
  loads_bill : list byte -> option Bill;
  decode_strict : list byte -> option string;
  decode_replace : codec -> list byte -> string;
  SMSC_DEFAULT_ALPHABET : Z;
  IA5_ASCII : Z;
  LATIN_1 : Z;
  UCS2 : Z;
}.

(** ** FragmentReassembler *)

Inductive split_method := sar | udh.

(** [pdu_data.get("short_message")] used as bytes: slicing or concatenating
    [None] raises [TypeError]. *)
Definition short_message_bytes (p : pdu_params) : result (list byte) :=
  match short_message p with
  | Some b => Ok b
  | None => Raise TypeError
  end.

(** reactor.py 381-386 *)
Definition udhi_indicator_set (p : pdu_params) : bool :=
  match esm_class p with
  | Some gsmFeatures =>
      existsb (fun f => match f with UDHI_INDICATOR_SET => true | _ => false end)
        gsmFeatures
  | None => false
  end.

(** reactor.py 388-396: which splitting, if any. *)
Definition splitMethod (p : pdu_params) : result (option split_method) :=
  if bool_decide (is_Some (sar_msg_ref_num p)) then Ok (Some sar)
  else if udhi_indicator_set p then
    sm ← short_message_bytes p;
    if bool_decide (take 3 sm = [x05; x00; x03]) then Ok (Some udh) else Ok None
  else Ok None.

(** The part of a fragment's body that goes into the message. *)
Definition fragment_part (m : split_method) (body : list byte) : list byte :=
  match m with
  | sar => body
  | udh => drop 6 body
  end.

(** reactor.py 408-416: [while hasattr(pdu, "nextPdu")]. *)
Fixpoint concat_next (m : split_method) (pdu : PDU)
    (short_message : list byte) (sms_pages : nat) : result (list byte * nat) :=
  match nextPdu pdu with
  | None => Ok (short_message, sms_pages)
  | Some pdu' =>
      body ← short_message_bytes (params pdu');
      concat_next m pdu' (short_message ++ fragment_part m body) (sms_pages + 1)
  end.

(** reactor.py 378-418: the raw message and its page count.  A first
    fragment without [short_message] ends in a [TypeError] on every path
    (slicing, [+=], or [hexlify] of [None]). *)
Definition reassemble (pdu : PDU) : result (list byte * nat) :=
  let sms_pages := 1%nat in
  method ← splitMethod (params pdu);
  match method with
  | Some m =>
      body ← short_message_bytes (params pdu);
      concat_next m pdu (fragment_part m body) sms_pages
  | None =>
      body ← short_message_bytes (params pdu);
      Ok (body, sms_pages)
  end.

(** The fragments of a chain, first to last. *)
Fixpoint chain (pdu : PDU) : list PDU :=
  pdu :: match nextPdu pdu with
         | Some pdu' => chain pdu'
         | None => []
         end.

(** Induction along a fragment chain. *)
Definition PDU_ind' (P : PDU -> Prop)
  (Hlast : forall p st, P {| params := p; status := st; nextPdu := None |})
  (Hnext : forall p st pdu', P pdu' ->
             P {| params := p; status := st; nextPdu := Some pdu' |})
  : forall pdu, P pdu :=
  fix IH pdu :=
    match pdu with
    | {| params := p; status := st; nextPdu := None |} => Hlast p st
    | {| params := p; status := st; nextPdu := Some pdu' |} =>
        Hnext p st pdu' (IH pdu')
    end.

(** The body of a fragment, its [short_message] (empty when it has none). *)
Definition body_of (pdu : PDU) : list byte :=
  default [] (short_message (params pdu)).

(** [binascii.hexlify] *)
Definition hex_digit (n : N) : byte :=
  nth (N.to_nat n) (String.list_byte_of_string "0123456789abcdef") x00.

Definition hexlify (b : list byte) : list byte :=
  flat_map (fun x => [hex_digit (Byte.to_N x / 16); hex_digit (Byte.to_N x mod 16)]) b.

(** ** Python built-ins on values *)

(** [bool(v)] *)
Definition truthy (v : value) : bool :=
  match v with
  | VNone => false
  | VBool b => b
  | VNum (NInt z) => negb (z =? 0)%Z
  | VNum (NFloat f) => negb (PrimFloat.eqb f 0)
  | VStr s => negb (bool_decide (s = ""))
  | VBytes b => negb (bool_decide (b = []))
  | VList l => match l with [] => false | _ => true end
  | VDict d => match d with [] => false | _ => true end
  end.

(** [len(v)] *)
Definition py_len (v : value) : result nat :=
  match v with
  | VStr s => Ok (String.length s)
  | VBytes b => Ok (length b)
  | VList l => Ok (length l)
  | VDict d => Ok (length d)
  | _ => Raise TypeError
  end.

(** [x * n] for a number [x] and a page count [n] (a chain has fewer
    than 2^63 fragments, so the count converts exactly as Python's does up
    to rounding to the nearest float). *)
Definition float_of_nat (n : nat) : float :=
  PrimFloat.of_uint63 (Uint63.of_Z (Z.of_nat n)).

Definition number_mul (x : number) (n : nat) : number :=
  match x with
  | NInt z => NInt (z * Z.of_nat n)
  | NFloat f => NFloat (f * float_of_nat n)
  end.

(** [s[:n]] and [s[n:]] on text. *)
Fixpoint str_take (n : nat) (s : string) : string :=
  match n, s with
  | S n', String c s' => String c (str_take n' s')
  | _, _ => EmptyString
  end.

Fixpoint str_drop (n : nat) (s : string) : string :=
  match n, s with
  | S n', String _ s' => str_drop n' s'
  | _, _ => s
  end.

(** ** The document store *)

(** A store holds documents by collection name and document id. *)
Abbreviation store := (gmap (string * string) dict).

(** Modelled from the spec: the store driver ([mongodb.py], class [MongoDB])
    is not among the sources.  The spec gives its two operations as
    [fetchOne(collection, key) -> Document?] and
    [upsertMerge(collection, key, partialDocument)], which "merges top-level
    and nested fields into the existing document or creates it": a field of
    the partial document replaces the stored field of the same name, except
    that a map is merged into a stored map field by field. *)
Fixpoint merge (old new : value) {struct new} : value :=
  match old, new with
  | VDict o, VDict n =>
      VDict
        (fold_left
           (fun acc kv =>
              dict_set kv.1
                (match dict_get kv.1 acc with
                 | Some ov => merge ov kv.2
                 | None => kv.2
                 end) acc)
           n o)
  | _, _ => new
  end.

Definition merge_doc (old new : dict) : dict :=
  match merge (VDict old) (VDict new) with
  | VDict d => d
  | _ => new
  end.

(** Modelled from the spec: [fetchOne]; the driver method the code calls is
    absent from the sources. *)
Definition get_one_submodule (module sub_id : string) (db : store)
  : option dict :=
  db !! (module, sub_id).

(** Modelled from the spec: [upsertMerge]; the driver method the code calls
    is absent from the sources. *)
Definition update_one (module sub_id : string) (data : dict) (db : store)
  : store :=
  <[(module, sub_id) := merge_doc (default [] (db !! (module, sub_id))) data]> db.

(** ** EventRouter: the record builders of [gotConnection] *)

(** One message drawn from the queue, by what the loop reads off it:
    [msg.routing_key], [msg.delivery_tag], and from
    [msg.content.properties] the headers ([None] when there are none), the
    message id (a [str], the id of the stored document) and the priority;
    [msg.content.body]. *)
Record message := {
  routing_key : string;
  delivery_tag : Z;
  headers : option dict;
  message_id : string;
  priority : value;
  body : list byte;
}.

(** The part of the configuration the record builders read. *)
Record config := {
  MONGO_LOG_COLLECTION : string;
  MONGO_USER_COLLECTION : string;
  LOGGER_PRIVACY : bool;
}.

(** [headers.get(k)]: [AttributeError] when the message has no headers. *)
Definition headers_get (headers : option dict) (k : string) : result value :=
  match headers with
  | Some h => Ok (default VNone (dict_get (KStr k) h))
  | None => Raise AttributeError
  end.

(** The two sanitization passes on a document about to be stored. *)
Definition sanitize_doc (data : dict) : result dict :=
  data' ← fix_keys (replace_none (VDict data));
  match data' with
  | VDict d => Ok d
  | _ => Raise TypeError
  end.

(** ["** %s byte content **" % n] and its [char] variant. *)
Definition private_bytes (n : nat) : value :=
  VStr ("** " +:+ pretty n +:+ " byte content **").

Definition private_chars (n : nat) : value :=
  VStr ("** " +:+ pretty n +:+ " char content **").

Section Builders.
Context {lib : Library} (cfg : config).

(** [pickle.loads(msg.content.body)] *)
Definition pickle_loads_pdu (b : list byte) : result PDU :=
  match loads_pdu b with
  | Some pdu => Ok pdu
  | None => Raise UnpicklingError
  end.

(** [pickle.loads(billing_pickle)], [billing_pickle] read off the
    headers. *)
Definition pickle_loads_bill (v : value) : result Bill :=
  match v with
  | VBytes b =>
      match loads_bill b with
      | Some bill => Ok bill
      | None => Raise UnpicklingError
      end
  | _ => Raise TypeError
  end.

(** [pdu_data.get(field).decode("utf-8")] *)
Definition decode_addr (addr : option (list byte)) : result string :=
  match addr with
  | Some b =>
      match decode_strict b with
      | Some s => Ok s
      | None => Raise UnicodeDecodeError
      end
  | None => Raise AttributeError
  end.

(** CharsetResolver (reactor.py 423-452). *)
Definition short_message_decoded (data_coding : option Z)
    (short_message : list byte) : value :=
  let short_message_decoded := VBytes short_message in
  match data_coding with
  | Some dc =>
      if bool_decide (dc ∈ [SMSC_DEFAULT_ALPHABET; IA5_ASCII])
      then VStr (decode_replace Ascii short_message)
      else if bool_decide (dc = LATIN_1)
      then VStr (decode_replace Latin1 short_message)
      else if bool_decide (dc = UCS2)
      then VStr (decode_replace Utf16be short_message)
      else VStr (decode_replace Utf8 short_message)
  | None => short_message_decoded
  end.

Definition data_coding_value (data_coding : option Z) : value :=
  match data_coding with
  | Some dc => VNum (NInt dc)
  | None => VNone
  end.

(** BillingExtractor (reactor.py 491-524): the [bill] dict.  Of its
    entries only the last can raise, when the bill has no
    [decrement_submit_sm_count] action ([None * sms_pages]). *)
Definition build_bill (billing : Bill) (source route created_at : value)
    (priority : value) (destination_addr source_addr : string)
    (schedule_delivery_time validity_period : value) (sms_pages : nat)
  : result dict :=
  sms_count_charge ←
    match decrement_submit_sm_count billing with
    | Some x => Ok (number_mul x sms_pages)
    | None => Raise TypeError
    end;
  Ok [ (KStr "_id", bid billing);
       (KStr "user",
         VDict [ (KStr "_id", VStr (user_uid billing));
                 (KStr "group", user_gid billing);
                 (KStr "username", user_username billing);
                 (KStr "quota",
                   VDict [ (KStr "balance", quota_balance billing);
                           (KStr "submit_sm_count",
                             quota_submit_sm_count billing) ]) ]);
       (KStr "source_connector", source);
       (KStr "routed_cid", route);
       (KStr "created_at", created_at);
       (KStr "priority", priority);
       (KStr "destination_addr", VStr destination_addr);
       (KStr "source_addr", VStr source_addr);
       (KStr "schedule_delivery_time", schedule_delivery_time);
       (KStr "validity_period", validity_period);
       (KStr "page_count", VNum (NInt (Z.of_nat sms_pages)));
       (KStr "amount_rate", VNum (getTotalAmounts billing));
       (KStr "amount_charge",
         VNum (number_mul (getTotalAmounts billing) sms_pages));
       (KStr "sms_count_rate",
         match decrement_submit_sm_count billing with
         | Some x => VNum x
         | None => VNone
         end);
       (KStr "sms_count_charge", VNum sms_count_charge) ].

(** The [log_data] dict of a submission (reactor.py 420-460, 532-556),
    with or without privacy.  In the source the hex form, the decoding and
    the three placeholders come before the billing; none of them raises. *)
Definition submit_log_data (created_at priority source : value)
    (route destination_addr source_addr : string)
    (schedule_delivery_time validity_period : value)
    (data_coding : option Z) (validity : value) (status : string)
    (sms_pages : nat) (short_message : list byte) (bill : dict)
  : result dict :=
  let binary_message := hexlify short_message in
  let short_message_decoded :=
    short_message_decoded data_coding short_message in
  let private_short_message := private_bytes (length short_message) in
  let private_binary_message := private_bytes (length binary_message) in
  n ← py_len short_message_decoded;
  let private_short_message_decoded := private_chars n in
  Ok [ (KStr "created_at", created_at);
       (KStr "priority", priority);
       (KStr "source", source);
       (KStr "route", VStr route);
       (KStr "destination_addr", VStr destination_addr);
       (KStr "source_addr", VStr source_addr);
       (KStr "schedule_delivery_time", schedule_delivery_time);
       (KStr "validity_period", validity_period);
       (KStr "data_coding", data_coding_value data_coding);
       (KStr "validity", validity);
       (KStr "status", VStr status);
       (KStr "page_count", VNum (NInt (Z.of_nat sms_pages)));
       (KStr "short_message",
         if LOGGER_PRIVACY cfg then private_short_message
         else VBytes short_message);
       (KStr "binary_message",
         if LOGGER_PRIVACY cfg then private_binary_message
         else VBytes binary_message);
       (KStr "short_message_decoded",
         if LOGGER_PRIVACY cfg then private_short_message_decoded
         else short_message_decoded);
       (KStr "bill", VDict bill) ].

(** The [user_data] dict of a submission (reactor.py 560-567). *)
Definition submit_user_data (billing : Bill) : dict :=
  [ (KStr "mt_messaging_cred quota balance", quota_balance billing);
    (KStr "mt_messaging_cred quota sms_count",
      quota_submit_sm_count billing) ].

(** [headers.get("submit_sm_resp_bill")], else
    [headers.get("submit_sm_bill")], unpickled (reactor.py 485-489). *)
Definition load_billing (headers : option dict) : result Bill :=
  billing_pickle ← headers_get headers "submit_sm_resp_bill";
  billing_pickle ←
    (if truthy billing_pickle then Ok billing_pickle
     else headers_get headers "submit_sm_bill");
  pickle_loads_bill billing_pickle.

(** A [submit.sm.*] message up to the two writes (reactor.py 348-575): the
    sanitized [log_data], and the sanitized [user_data] with the id it is
    written under.  [bill] is shared with [log_data] and sanitized in place
    with it; the user id read off it afterwards is a [str] under clean keys,
    which neither pass changes. *)
Definition submit_records (msg : message) : result (dict * string * dict) :=
  created_at ← headers_get (headers msg) "created_at";
  let priority := priority msg in
  source ← headers_get (headers msg) "source_connector";
  let route := str_drop 10 (routing_key msg) in
  pdu ← pickle_loads_pdu (body msg);
  let pdu_data := params pdu in
  destination_addr ← decode_addr (destination_addr pdu_data);
  source_addr ← decode_addr (source_addr pdu_data);
  let schedule_delivery_time := schedule_delivery_time pdu_data in
  let validity_period := validity_period pdu_data in
  let data_coding := data_coding pdu_data in
  validity ← headers_get (headers msg) "expiration";
  let status := status pdu in
  '(short_message, sms_pages) ← reassemble pdu;
  billing ← load_billing (headers msg);
  bill ←
    build_bill billing source (VStr route) created_at priority
      destination_addr source_addr schedule_delivery_time validity_period
      sms_pages;
  log_data ←
    submit_log_data created_at priority source route destination_addr
      source_addr schedule_delivery_time validity_period data_coding
      validity status sms_pages short_message bill;
  let user_data := submit_user_data billing in
  log_data ← sanitize_doc log_data;
  user_data ← sanitize_doc user_data;
  Ok (log_data, user_uid billing, user_data).

(** A [submit.sm.*] message (reactor.py 348-591): the two records, written
    to the log collection and to the user collection. *)
Definition on_submit_sm (msg : message) (db : store) : result store :=
  '(log_data, user_id, user_data) ← submit_records msg;
  let db := update_one (MONGO_LOG_COLLECTION cfg) (message_id msg) log_data db in
  let db := update_one (MONGO_USER_COLLECTION cfg) user_id user_data db in
  Ok db.

(** A [submit.sm.resp.*] message (reactor.py 594-628). *)
Definition on_submit_sm_resp (msg : message) (db : store) : result store :=
  created_at ← headers_get (headers msg) "created_at";
  pdu ← pickle_loads_pdu (body msg);
  let status := status pdu in
  let data : dict :=
    [ (KStr "ack",
        VDict [ (KStr "created_at", created_at);
                (KStr "status", VStr status) ]) ] in
  data ← sanitize_doc data;
  Ok (update_one (MONGO_LOG_COLLECTION cfg) (message_id msg) data db).

(** The entry a [dlr_thrower.*] message adds (reactor.py 640-648): a copy
    of the headers, stamped with the clock reading [now], its text
    replaced by a size when privacy is on. *)
Definition dlr_entry (now : string) (headers : dict) : result dict :=
  let dlr := headers in
  let dlr := dict_set (KStr "created_at") (VStr now) dlr in
  if LOGGER_PRIVACY cfg then
    match default VNone (dict_get (KStr "text") dlr) with
    | VNone | VStr "" => Ok dlr
    | text => n ← py_len text; Ok (dict_set (KStr "text") (private_chars n) dlr)
    end
  else Ok dlr.

(** A [dlr_thrower.*] message (reactor.py 631-681). *)
Definition on_dlr_thrower (now : string) (msg : message) (db : store)
  : result store :=
  _ ← headers_get (headers msg) "level";
  dlr ← match headers msg with
        | Some h => dlr_entry now h
        | None => Raise TypeError
        end;
  let qmsg := get_one_submodule (MONGO_LOG_COLLECTION cfg) (message_id msg) db in
  let qmsg := match qmsg with
              | Some doc => doc
              | None => []
              end in
  let '(qmsgDlrs, _) := dict_pop_default (KStr "dlr") (VList []) qmsg in
  qmsgDlrs ← match qmsgDlrs with
             | VList l => Ok (l ++ [VDict dlr])
             | _ => Raise AttributeError
             end;
  let data : dict := [ (KStr "dlr", VList qmsgDlrs) ] in
  data ← sanitize_doc data;
  Ok (update_one (MONGO_LOG_COLLECTION cfg) (message_id msg) data db).

(** The dispatch on the routing key (reactor.py 344-684); an unknown
    route is logged and changes nothing. *)
Definition process_message (now : string) (msg : message) (db : store)
  : result store :=
  if bool_decide (str_take 10 (routing_key msg) = "submit.sm.")
     && negb (bool_decide (str_take 15 (routing_key msg) = "submit.sm.resp."))
  then on_submit_sm msg db
  else if bool_decide (str_take 15 (routing_key msg) = "submit.sm.resp.")
  then on_submit_sm_resp msg db
  else if bool_decide (str_take 12 (routing_key msg) = "dlr_thrower.")
  then on_dlr_thrower now msg db
  else Ok db.
End Builders.

(** ** BrokerSupervisor: the consumer loop and the retry logic *)

(** What [yield queue.get()] does next: it hands over a message (processed
    at clock reading [now]), or it raises. *)
Inductive delivery :=
| Delivered (msg : message) (now : string)
| QueueRaises (e : exn).

(** How the [while True] loop stands after the deliveries it was given:
    still waiting in [queue.get()], or left through an exception. *)
Inductive loop_exit :=
| Waiting
| Raised (e : exn).

(** The retry budget of the broker connection ([LogReactor.__init__],
    reactor.py 103-106). *)
Record retry_state := {
  RETRY_ON_CONNECTION_ERROR : bool;
  amqp_broker_max_retries : Z;
  RETRY_FOREVER : bool;
}.

Definition init_retry (retry_on_connection_error : bool) (max_retries : Z)
  : retry_state :=
  {| RETRY_ON_CONNECTION_ERROR := retry_on_connection_error;
     amqp_broker_max_retries := max_retries;
     RETRY_FOREVER := bool_decide (max_retries <= 0)%Z |}.

(** What the supervisor does after a failure: [self.StopReactor()], or
    [reactor.callLater(self.RETRY_DELAY, self.rabbitMQConnect)]. *)
Inductive action :=
| StopReactor
| callLater_rabbitMQConnect.

(** "check if we should reconnect", then "decrement retry count": the
    decision [gotConnection] (reactor.py 701-719) and [ConError]
    (reactor.py 784-797) both take. *)
Definition should_stop (rs : retry_state) : bool :=
  negb (RETRY_ON_CONNECTION_ERROR rs)
  || (bool_decide (amqp_broker_max_retries rs <= 0)%Z && negb (RETRY_FOREVER rs)).

Definition decrement_retry (rs : retry_state) : retry_state :=
  {| RETRY_ON_CONNECTION_ERROR := RETRY_ON_CONNECTION_ERROR rs;
     amqp_broker_max_retries := amqp_broker_max_retries rs - 1;
     RETRY_FOREVER := RETRY_FOREVER rs |}.

(** [ConError] (reactor.py 777-800), the errback of the connection. *)
Definition ConError (rs : retry_state) : retry_state * action :=
  if should_stop rs then (rs, StopReactor)
  else (decrement_retry rs, callLater_rabbitMQConnect).

(** Consecutive connect failures: each connection attempt made fails into
    [ConError], and a new attempt is made only when [ConError] scheduled
    one.  [attempts] bounds the attempts that would fail. *)
Fixpoint connect_failures (attempts : nat) (rs : retry_state)
  : retry_state * list action :=
  match attempts with
  | O => (rs, [])
  | S attempts' =>
      let '(rs', a) := ConError rs in
      match a with
      | StopReactor => (rs', [a])
      | callLater_rabbitMQConnect =>
          let '(rs'', actions) := connect_failures attempts' rs' in
          (rs'', a :: actions)
      end
  end.

Section Consumer.
Context {lib : Library} (cfg : config).

(** The [while True] loop of [gotConnection] (reactor.py 319-688): the
    store as the processed messages left it, the delivery tags
    acknowledged in order, and how the loop stands. *)
Fixpoint consume (queue : list delivery) (db : store) (acked : list Z)
  : store * list Z * loop_exit :=
  match queue with
  | [] => (db, acked, Waiting)
  | QueueRaises e :: _ => (db, acked, Raised e)
  | Delivered msg now :: queue' =>
      match process_message cfg now msg db with
      | Ok db' => consume queue' db' (acked ++ [delivery_tag msg])
      | Raise e => (db, acked, Raised e)
      end
  end.

(** The handlers of the [try] around the loop (reactor.py 690-699): a
    [KeyboardInterrupt] marks "do not reconnect", anything else is
    logged. *)
Definition handle (e : exn) (rs : retry_state) : retry_state :=
  match e with
  | KeyboardInterrupt =>
      {| RETRY_ON_CONNECTION_ERROR := false;
         amqp_broker_max_retries := amqp_broker_max_retries rs;
         RETRY_FOREVER := RETRY_FOREVER rs |}
  | _ => rs
  end.

(** [gotConnection] from "Starting message processing" on (reactor.py
    317-722), with a live queue and store: the loop, and once an
    exception ends it, the reconnect decision. *)
Definition gotConnection (queue : list delivery) (db : store)
    (rs : retry_state)
  : store * list Z * retry_state * option action :=
  let '(db', acked, exit) := consume queue db [] in
  match exit with
  | Waiting => (db', acked, rs, None)
  | Raised e =>
      let rs := handle e rs in
      if should_stop rs then (db', acked, rs, Some StopReactor)
      else (db', acked, decrement_retry rs, Some callLater_rabbitMQConnect)
  end.
End Consumer.

(** ** BrokerSupervisor: the store connection and the life of the reactor *)

(** [_connect_to_mongo] (reactor.py 761-775): whether it returns the driver
    object ([False]: it returns [None]), from what the driver's
    [startConnection()] returned; only [True] itself counts. *)
Definition _connect_to_mongo (startConnection : value) : bool :=
  match startConnection with
  | VBool true => true
  | _ => false
  end.

(** The retry loop of the store connection (reactor.py 292-303).
    [mongosource] tells whether the last attempt returned the driver
    object, [attempts] holds what [startConnection()] returns on the
    attempts to come.  The result is [None] when the loop asks for more
    attempts than [attempts] holds; otherwise it tells whether a connection
    stands, what [self.mongo_max_retries] is, and which attempts were not
    made. *)
Fixpoint mongo_retry (attempts : list value) (rs : retry_state)
    (mongosource : bool) (mongo_max_retries : Z)
  : option (bool * Z * list value) :=
  if negb mongosource && RETRY_ON_CONNECTION_ERROR rs
     && (bool_decide (mongo_max_retries > 0)%Z || RETRY_FOREVER rs)
  then
    match attempts with
    | a :: attempts' =>
        mongo_retry attempts' rs (_connect_to_mongo a) (mongo_max_retries - 1)
    | [] => None
    end
  else Some (mongosource, mongo_max_retries, attempts).

(** reactor.py 284-303: the first attempt, then the retry loop. *)
Definition connect_mongo (attempts : list value) (rs : retry_state)
    (mongo_max_retries : Z) : option (bool * Z * list value) :=
  match attempts with
  | a :: attempts' =>
      mongo_retry attempts' rs (_connect_to_mongo a) mongo_max_retries
  | [] => None
  end.

(** What a connection attempt of [rabbitMQConnect] meets: the connection
    fails, which fires the errback [ConError], or it stands, which fires
    the callback [gotConnection], with the answers of the store driver and
    the deliveries of the queue. *)
Inductive connection :=
| ConnectionFails
| ConnectionMade (mongo : list value) (queue : list delivery).

Section Reactor.
Context {lib : Library} (cfg : config).

(** [gotConnection] with the store connection in front (reactor.py
    284-722): when no connection to the store stands after the retries,
    [StopReactor] is called and nothing is consumed. *)
Definition gotConnection_mongo (mongo : list value) (queue : list delivery)
    (db : store) (rs : retry_state) (mongo_max_retries : Z)
  : option (store * list Z * retry_state * Z * option action) :=
  match connect_mongo mongo rs mongo_max_retries with
  | Some (true, mongo_max_retries', _) =>
      let '(db', acked, rs', a) := gotConnection cfg queue db rs in
      Some (db', acked, rs', mongo_max_retries', a)
  | Some (false, mongo_max_retries', _) =>
      Some (db, [], rs, mongo_max_retries', Some StopReactor)
  | None => None
  end.

(** [rabbitMQConnect] (reactor.py 830-880): one connection attempt with its
    callback and its errback. *)
Definition rabbitMQConnect (c : connection) (db : store) (rs : retry_state)
    (mongo_max_retries : Z)
  : option (store * list Z * retry_state * Z * option action) :=
  match c with
  | ConnectionFails =>
      let '(rs', a) := ConError rs in
      Some (db, [], rs', mongo_max_retries, Some a)
  | ConnectionMade mongo queue =>
      gotConnection_mongo mongo queue db rs mongo_max_retries
  end.

(** The life of the reactor over the connections it is given: the first
    [rabbitMQConnect] of [startReactor], then one more for every
    [callLater] that fires.  It ends with [StopReactor], or stays in the
    consumer loop, or is about to reconnect when [connections] runs out.
    The actions taken are listed in order. *)
Fixpoint reactor_run (connections : list connection) (db : store)
    (rs : retry_state) (mongo_max_retries : Z)
  : option (store * list Z * retry_state * Z * list action) :=
  match connections with
  | [] => Some (db, [], rs, mongo_max_retries, [])
  | c :: connections' =>
      match rabbitMQConnect c db rs mongo_max_retries with
      | Some (db1, acked1, rs1, m1, Some callLater_rabbitMQConnect) =>
          match reactor_run connections' db1 rs1 m1 with
          | Some (db2, acked2, rs2, m2, actions) =>
              Some (db2, acked1 ++ acked2, rs2, m2,
                    callLater_rabbitMQConnect :: actions)
          | None => None
          end
      | Some (db1, acked1, rs1, m1, Some StopReactor) =>
          Some (db1, acked1, rs1, m1, [StopReactor])
      | Some (db1, acked1, rs1, m1, None) => Some (db1, acked1, rs1, m1, [])
      | None => None
      end
  end.
End Reactor.

(** ** Concrete inputs *)

(** A fragment of a [submit_sm] with body [sm], and the next fragment. *)
Definition fragment (sm : list byte) (esm : option (list gsm_feature))
    (next : option PDU) : PDU :=
  {| params :=
       {| short_message := Some sm;
          sar_msg_ref_num := None;
          esm_class := esm;
          destination_addr := Some (String.list_byte_of_string "4915100000");
          source_addr := Some (String.list_byte_of_string "JASMIN");
          schedule_delivery_time := VNone;
          validity_period := VNone;
          data_coding := None |};
     status := "ESME_ROK";
     nextPdu := next |}.

(** Two fragments with a 6-byte user-data header each, bodies [AB] and
    [CD]. *)
Definition two_part_pdu : PDU :=
  fragment [x05; x00; x03; x2a; x02; x01; x41; x42] (Some [UDHI_INDICATOR_SET])
    (Some (fragment [x05; x00; x03; x2a; x02; x02; x43; x44]
             (Some [UDHI_INDICATOR_SET]) None)).

(** A bill: rate 0.5 per page, one submission counted per page, a user
    whose balance is unlimited ([None]). *)
Definition a_bill : Bill :=
  {| bid := VStr "bill-1";
     user_uid := "u1";
     user_gid := VStr "g1";
     user_username := VStr "alice";
     quota_balance := VNone;
     quota_submit_sm_count := VNum (NInt 10);
     getTotalAmounts := NFloat 0.5;
     decrement_submit_sm_count := Some (NInt 1) |}.

(** A stand-in for the libraries, for running the pipeline on concrete
    messages: a pickle is a one-byte tag of one of the objects above, and
    text is ASCII, for which the four codecs agree. *)
Definition stub_library : Library :=
  {| loads_pdu b :=
       match b with
       | [x01] => Some (fragment [x48; x69] None None)
       | [x02] => Some two_part_pdu
       | _ => None
       end;
     loads_bill b :=
       match b with
       | [x0b] => Some a_bill
       | _ => None
       end;
     decode_strict b :=
       if forallb (fun x => (Byte.to_N x <? 128)%N) b
       then Some (String.string_of_list_byte b)
       else None;
     decode_replace _ b := String.string_of_list_byte b;
     SMSC_DEFAULT_ALPHABET := 0;
     IA5_ASCII := 1;
     LATIN_1 := 3;
     UCS2 := 8 |}.

Definition a_config : config :=
  {| MONGO_LOG_COLLECTION := "logs";
     MONGO_USER_COLLECTION := "users";
     LOGGER_PRIVACY := false |}.

(** A submission of the two-fragment message, one whose body does not
    unpickle, and two delivery receipts of one message. *)
Definition submit_message (tag : Z) (id : string) (pickle : list byte)
  : message :=
  {| routing_key := "submit.sm.smppc1";
     delivery_tag := tag;
     headers :=
       Some [ (KStr "created_at", VStr "2024-05-01 10:00:00");
              (KStr "source_connector", VStr "httpapi");
              (KStr "submit_sm_bill", VBytes [x0b]) ];
     message_id := id;
     priority := VNum (NInt 1);
     body := pickle |}.

Definition dlr_message (tag : Z) (id : string) (state : string) : message :=
  {| routing_key := "dlr_thrower.http";
     delivery_tag := tag;
     headers :=
       Some [ (KStr "message_status", VStr state);
              (KStr "level", VNum (NInt 3));
              (KStr "dlr-url", VNone) ];
     message_id := id;
     priority := VNone;
     body := [] |}.

(** The configuration with privacy switched on. *)
Definition private_config : config :=
  {| MONGO_LOG_COLLECTION := "logs";
     MONGO_USER_COLLECTION := "users";
     LOGGER_PRIVACY := true |}.

(** A document with keys to rewrite, none of which collide. *)
Definition a_document : dict :=
  [ (KStr "a.b", VNum (NInt 1));
    (KStr "c", VNone);
    (KStr "$x", VDict [ (KStr "p-q", VNum (NInt 2)) ]);
    (KStr "a_c", VList [ VDict [ (KStr "$y", VNone) ] ]) ].

(** The headers of a delivery receipt that carries a text. *)
Definition receipt_headers : dict :=
  [ (KStr "message_status", VStr "DELIVRD");
    (KStr "level", VNum (NInt 3));
    (KStr "text", VStr "id:7 stat:DELIVRD");
    (KStr "created_at", VStr "2024-05-01 09:59:59") ].

(** ** Observations on a run *)

(** The field [k] of the document [id] of a collection, in the store an
    event handler returned. *)
Definition stored_field (r : result store) (collection id k : string)
  : option value :=
  match r with
  | Ok db => doc ← get_one_submodule collection id db; dict_get (KStr k) doc
  | Raise _ => None
  end.

(** The records a submission built (empty ones if it raised). *)
Definition records_of (r : result (dict * string * dict))
  : dict * string * dict :=
  match r with
  | Ok x => x
  | Raise _ => ([], "", [])
  end.

(** The store an event handler returned (the empty store if it raised). *)
Definition store_of (r : result store) : store :=
  match r with
  | Ok db => db
  | Raise _ => ∅
  end.

(** A receipt as the store holds it: sanitized, and not a null. *)
Definition stored_entry (v : value) : bool :=
  keys_clean v && filled no_none v.

(** The delivery tags of the messages a queue hands over. *)
Definition delivered_tags (queue : list delivery) : list Z :=
  omap (fun q => match q with
                 | Delivered msg _ => Some (delivery_tag msg)
                 | QueueRaises _ => None
                 end) queue.

(** A bill dict charged for [pages] pages at the rates [rate] and
    [count], in the words of the specification: each charge is the rate
    times the page count.  The product is written out: of an integer rate
    it is the product of integers, of a float rate the product of floats,
    the page count taken as the float of that integer. *)
Definition charged (bill : dict) (rate count : number) (pages : nat) : Prop :=
  dict_get (KStr "page_count") bill = Some (VNum (NInt (Z.of_nat pages)))
  /\ dict_get (KStr "amount_rate") bill = Some (VNum rate)
  /\ dict_get (KStr "amount_charge") bill
     = Some (VNum
               match rate with
               | NInt z => NInt (z * Z.of_nat pages)
               | NFloat f =>
                   NFloat
                     (PrimFloat.mul f
                        (PrimFloat.of_uint63 (Uint63.of_Z (Z.of_nat pages))))
               end)
  /\ dict_get (KStr "sms_count_rate") bill = Some (VNum count)
  /\ dict_get (KStr "sms_count_charge") bill
     = Some (VNum
               match count with
               | NInt z => NInt (z * Z.of_nat pages)
               | NFloat f =>
                   NFloat
                     (PrimFloat.mul f
                        (PrimFloat.of_uint63 (Uint63.of_Z (Z.of_nat pages))))
               end).

(** The reconnects among the actions of a run. *)
Fixpoint reconnects (actions : list action) : nat :=
  match actions with
  | [] => 0
  | callLater_rabbitMQConnect :: actions' => S (reconnects actions')
  | StopReactor :: actions' => reconnects actions'
  end.

(** A bill all of whose values are documents Python can build. *)
Definition Bill_wf (b : Bill) : bool :=
  wf (bid b) && wf (user_gid b) && wf (user_username b)
  && wf (quota_balance b) && wf (quota_submit_sm_count b).

(** The records the two-fragment submission gives, with privacy off and
    with privacy on. *)
Definition plain_records : dict * string * dict :=
  Eval vm_compute in
    records_of (submit_records (lib := stub_library) a_config
                  (submit_message 1 "m1" [x02])).

Definition private_records : dict * string * dict :=
  Eval vm_compute in
    records_of (submit_records (lib := stub_library) private_config
                  (submit_message 1 "m1" [x02])).

(** A single fragment with a data coding (8, UCS2 in [stub_library]), and
    the stand-in for the libraries that unpickles it from the tag [03]. *)
Definition coded_pdu : PDU :=
  {| params :=
       {| short_message := Some [x00; x48; x00; x69];
          sar_msg_ref_num := None;
          esm_class := None;
          destination_addr := Some (String.list_byte_of_string "4915100000");
          source_addr := Some (String.list_byte_of_string "JASMIN");
          schedule_delivery_time := VNone;
          validity_period := VNone;
          data_coding := Some 8%Z |};
     status := "ESME_ROK";
     nextPdu := None |}.

Definition coded_library : Library :=
  {| loads_pdu b :=
       match b with
       | [x03] => Some coded_pdu
       | _ => loads_pdu (Library := stub_library) b
       end;
     loads_bill := loads_bill (Library := stub_library);
     decode_strict := decode_strict (Library := stub_library);
     decode_replace := decode_replace (Library := stub_library);
     SMSC_DEFAULT_ALPHABET := SMSC_DEFAULT_ALPHABET (Library := stub_library);
     IA5_ASCII := IA5_ASCII (Library := stub_library);
     LATIN_1 := LATIN_1 (Library := stub_library);
     UCS2 := UCS2 (Library := stub_library) |}.

Definition coded_records : dict * string * dict :=
  Eval vm_compute in
    records_of (submit_records (lib := coded_library) a_config
                  (submit_message 1 "m1" [x03])).

(** A stored document that holds one receipt already. *)
Definition one_receipt_store : store :=
  Eval vm_compute in
    store_of (on_dlr_thrower a_config "10:00:01"
                (dlr_message 1 "m1" "ESME_ROK") ∅).

(* ================================================================== *)
(** * Theorems *)

Section StringFacts.
Implicit Types (s new : string) (c : ascii).

Lemma contains_app c s1 s2 :
  contains c (s1 +:+ s2) = contains c s1 || contains c s2.
Proof.
  induction s1 as [ | a s1 IH ]; simpl; [ done | ].
  rewrite IH. by rewrite orb_assoc.
Qed.

Lemma contains_replace_same c new s :
  contains c new = false -> contains c (str_replace c new s) = false.
Proof.
  intros Hnew. induction s as [ | a s IH ]; simpl; [ done | ].
  case_bool_decide as Ha.
  - by rewrite contains_app, Hnew, IH.
  - simpl. rewrite IH. by rewrite bool_decide_eq_false_2.
Qed.

Lemma contains_replace_other c (c' : ascii) new s :
  c <> c' -> contains c new = false ->
  contains c (str_replace c' new s) = contains c s.
Proof.
  intros Hne Hnew. induction s as [ | a s IH ]; simpl; [ done | ].
  case_bool_decide as Ha.
  - subst a. rewrite contains_app, Hnew, IH. simpl.
    by rewrite bool_decide_eq_false_2 by congruence.
  - simpl. by rewrite IH.
Qed.

Lemma replace_absent c new s :
  contains c s = false -> str_replace c new s = s.
Proof.
  induction s as [ | a s IH ]; simpl; [ done | ].
  intros [Ha Hs]%orb_false_iff. rewrite Ha. by rewrite IH.
Qed.

Lemma startswith_replace c (c' a : ascii) new s :
  startswith c (str_replace c' (String a new) s)
  = if startswith c' s then bool_decide (a = c) else startswith c s.
Proof.
  destruct s as [ | b s ]; simpl; [ done | ].
  by case_bool_decide.
Qed.

(** The three tests of [new_key] read the original key, yet each decides
    as it would on the key rewritten so far. *)
Lemma new_key_spec s : new_key s = spec_key s.
Proof.
  unfold new_key, spec_key.
  set (s1 := if startswith "$" s then str_replace "$" "dollar_" s else s).
  assert (H1 : contains "." s1 = contains "." s).
  { unfold s1. destruct (startswith "$" s); [ | done ].
    by apply contains_replace_other. }
  assert (H2 : contains "-" (str_replace "." "_" s1) = contains "-" s).
  { rewrite contains_replace_other by done.
    unfold s1. destruct (startswith "$" s); [ | done ].
    by apply contains_replace_other. }
  destruct (contains "." s) eqn:Hdot.
  - destruct (contains "-" s) eqn:Hdash; [ done | ].
    by rewrite (replace_absent "-") by done.
  - rewrite (replace_absent "." "_" s1) in * by done.
    destruct (contains "-" s) eqn:Hdash; [ done | ].
    by rewrite (replace_absent "-") by done.
Qed.

Lemma spec_key_clean s : clean (spec_key s) = true.
Proof.
  unfold clean, spec_key.
  set (s1 := if startswith "$" s then str_replace "$" "dollar_" s else s).
  assert (H0 : startswith "$" s1 = false).
  { unfold s1. destruct (startswith "$" s) eqn:Hs; [ | done ].
    by rewrite startswith_replace, Hs. }
  rewrite !startswith_replace.
  rewrite (contains_replace_other "." "-") by done.
  rewrite !contains_replace_same by done.
  rewrite H0. by repeat case_match.
Qed.

Lemma clean_spec_key s : clean s = true -> spec_key s = s.
Proof.
  unfold clean, spec_key.
  intros [[H1 H2]%andb_true_iff H3]%andb_true_iff.
  apply negb_true_iff in H1, H2, H3. rewrite H1.
  by rewrite !replace_absent by (by rewrite ?replace_absent).
Qed.

Lemma new_key_clean s : clean (new_key s) = true.
Proof. rewrite new_key_spec. apply spec_key_clean. Qed.

Lemma new_key_fixed s : new_key s = s <-> clean s = true.
Proof.
  split.
  - intros <-. apply new_key_clean.
  - intros H. rewrite new_key_spec. by apply clean_spec_key.
Qed.
End StringFacts.

Section ResultFacts.
Context {A B : Type}.

Lemma bind_Ok (m : result A) (f : A -> result B) b :
  m ≫= f = Ok b <-> exists a, m = Ok a /\ f a = Ok b.
Proof.
  destruct m as [ a | e ]; simpl.
  - split; [ by exists a | by intros (? & [= ->] & ?) ].
  - split; [ done | by intros (? & ? & ?) ].
Qed.

End ResultFacts.

Section MapMFacts.
Context {A B : Type}.

Lemma mapM_cons (f : A -> result B) x l :
  mapM f (x :: l) = y ← f x; l' ← mapM f l; Ok (y :: l').
Proof. reflexivity. Qed.

Lemma mapM_Ok (f : A -> result B) l l' :
  mapM f l = Ok l' <-> Forall2 (fun x y => f x = Ok y) l l'.
Proof.
  revert l'. induction l as [ | x l IH ]; intros l'.
  - split; [ intros [= <-]; constructor | by intros ->%Forall2_nil_inv_l ].
  - rewrite mapM_cons, bind_Ok. split.
    + intros (y & Hy & (l'' & Hl & [= <-])%bind_Ok).
      constructor; [ done | by apply IH ].
    + intros (y & l'' & Hy & Hl & ->)%Forall2_cons_inv_l.
      exists y. split; [ done | ]. apply bind_Ok. exists l''.
      split; [ by apply IH | done ].
Qed.
End MapMFacts.

Section DictFacts.
Context {V : Type}.
Implicit Types (d : list (key * V)) (k : key) (v : V).

Lemma dict_get_Some k d v : dict_get k d = Some v -> (k, v) ∈ d.
Proof.
  induction d as [ | [k' v'] d IH ]; simpl; [ done | ].
  case_decide as Hk.
  - intros [= ->]. subst. apply elem_of_cons. by left.
  - intros H. apply elem_of_cons. right. by apply IH.
Qed.

Lemma dict_get_is_Some k d : k ∈ d.*1 -> is_Some (dict_get k d).
Proof.
  induction d as [ | [k' v'] d IH ]; simpl.
  - by intros ?%elem_of_nil.
  - intros [-> | H]%elem_of_cons.
    + rewrite decide_True by done. by eexists.
    + case_decide; [ by eexists | by apply IH ].
Qed.

Lemma elem_of_dict_del k d k' v :
  (k', v) ∈ dict_del k d <-> (k', v) ∈ d /\ k' <> k.
Proof. unfold dict_del. rewrite list_elem_of_filter. simpl. tauto. Qed.

Lemma elem_of_dict_set k v d k' v' :
  (k', v') ∈ dict_set k v d -> (k' = k /\ v' = v) \/ (k', v') ∈ d.
Proof.
  induction d as [ | [k0 v0] d IH ]; simpl.
  - intros [= -> ->]%list_elem_of_singleton. by left.
  - case_decide as Hk.
    + intros [[= -> ->] | H]%elem_of_cons; [ by left | ].
      right. apply elem_of_cons. by right.
    + intros [[= -> ->] | H]%elem_of_cons.
      * right. apply elem_of_cons. by left.
      * destruct (IH H) as [ ? | ? ]; [ by left | ].
        right. apply elem_of_cons. by right.
Qed.

Lemma dict_set_keys k v d k' :
  k' ∈ d.*1 -> k' ∈ (dict_set k v d).*1.
Proof.
  induction d as [ | [k0 v0] d IH ]; simpl.
  - by intros ?%elem_of_nil.
  - intros [-> | H]%elem_of_cons.
    + case_decide; simpl; apply elem_of_cons; by left.
    + case_decide; simpl; apply elem_of_cons; right; [ done | by apply IH ].
Qed.

Lemma dict_del_keys k d k' :
  k' ∈ d.*1 -> k' <> k -> k' ∈ (dict_del k d).*1.
Proof.
  intros ([k0 v0] & -> & H)%list_elem_of_fmap Hne.
  apply list_elem_of_fmap. exists (k0, v0). split; [ done | ].
  by apply elem_of_dict_del.
Qed.
End DictFacts.

Section FixKeysLoop.
Implicit Types (d : dict) (tbl : table) (v : value) (k : key).

Lemma fix_keys_list l :
  fix_keys (VList l) = l' ← mapM fix_slot l; Ok (VList l').
Proof. reflexivity. Qed.

Lemma fix_keys_dict d :
  fix_keys (VDict d)
  = st ← for_items fix_keys_body d 0%nat (initial_table d, d.*2);
    Ok (VDict (resolve st.1 st.2)).
Proof.
  change (fix_keys (VDict d)) with
    ('(tbl, objs) ← for_items fix_keys_body d 0%nat (initial_table d, d.*2);
     Ok (VDict (resolve tbl objs))).
  by destruct (for_items _ _ _ _) as [ [? ?] | ? ].
Qed.

Lemma for_items_cons {S} (body : nat -> key -> value -> S -> result S)
    k v d i st :
  for_items body ((k, v) :: d) i st
  = st' ← body i k v st; for_items body d (1 + i)%nat st'.
Proof. reflexivity. Qed.

Lemma fix_keys_body_Ok pre k v rest tbl st' :
  fix_keys_body (length pre) k v (tbl, pre ++ v :: rest) = Ok st' <->
  exists tbl1 v', move_key k tbl = Ok tbl1 /\ fix_slot v = Ok v'
                  /\ st' = (tbl1, (pre ++ [v']) ++ rest).
Proof.
  unfold fix_keys_body, fix_slot. rewrite bind_Ok.
  assert (Hins : forall v', <[length pre := v']> (pre ++ v :: rest)
                            = (pre ++ [v']) ++ rest).
  { intros v'. rewrite <- (Nat.add_0_r (length pre)), insert_app_r.
    by rewrite <- app_assoc. }
  split.
  - intros (tbl1 & Hmv & H). exists tbl1.
    destruct (is_container v).
    + apply bind_Ok in H as (v' & Hv & [= <-]).
      exists v'. by rewrite Hins.
    + injection H as <-. exists v. by rewrite <- app_assoc.
  - intros (tbl1 & v' & Hmv & Hv & ->). exists tbl1. split; [ done | ].
    destruct (is_container v).
    + apply bind_Ok. exists v'. by rewrite Hins.
    + injection Hv as <-. by rewrite <- app_assoc.
Qed.

(** The loop does two independent things: it moves keys in the table, and
    it rewrites each snapshot object in place. *)
Lemma for_items_Ok d pre tbl tbl' objs' :
  for_items fix_keys_body d (length pre) (tbl, pre ++ d.*2) = Ok (tbl', objs')
  <-> exists vs, move_keys d.*1 tbl = Ok tbl' /\ mapM fix_slot d.*2 = Ok vs
                 /\ objs' = pre ++ vs.
Proof.
  revert pre tbl. induction d as [ | [k v] d IH ]; intros pre tbl.
  - simpl. split.
    + intros [= <- <-]. by exists [].
    + intros (vs & [= <-] & [= <-] & ->). done.
  - rewrite for_items_cons, bind_Ok. rewrite !fmap_cons. simpl fst. simpl snd.
    setoid_rewrite fix_keys_body_Ok.
    rewrite mapM_cons. split.
    + intros (st' & (tbl1 & v' & Hmv & Hv & ->) & H).
      replace (1 + length pre)%nat with (length (pre ++ [v'])) in H
        by (rewrite length_app; simpl; lia).
      apply IH in H as (vs & Hks & Hvs & ->).
      exists (v' :: vs). split; [ | split ].
      * simpl. rewrite Hmv. done.
      * rewrite Hv. simpl. rewrite Hvs. done.
      * by rewrite <- app_assoc.
    + intros (vs & Hks & Hvs & ->).
      simpl in Hks. apply bind_Ok in Hks as (tbl1 & Hmv & Hks).
      apply bind_Ok in Hvs as (v' & Hv & (vs' & Hvs & [= <-])%bind_Ok).
      exists (tbl1, (pre ++ [v']) ++ d.*2). split; [ by exists tbl1, v' | ].
      replace (1 + length pre)%nat with (length (pre ++ [v']))
        by (rewrite length_app; simpl; lia).
      apply IH. exists vs'. by rewrite <- app_assoc.
Qed.

Lemma fix_keys_dict_Ok d r :
  fix_keys (VDict d) = Ok r <->
  exists tbl vs, move_keys d.*1 (initial_table d) = Ok tbl
                 /\ mapM fix_slot d.*2 = Ok vs
                 /\ r = VDict (resolve tbl vs).
Proof.
  rewrite fix_keys_dict, bind_Ok. split.
  - intros ([tbl objs] & H & [= <-]).
    apply (for_items_Ok d []) in H as (vs & ? & ? & ->). by exists tbl, vs.
  - intros (tbl & vs & ? & ? & ->). exists (tbl, vs). split; [ | done ].
    apply (for_items_Ok d []). by exists vs.
Qed.
End FixKeysLoop.

Section KeyMoves.
Implicit Types (d : dict) (tbl : table) (v : value) (k : key).

Lemma rewrite_key_clean k : key_clean (rewrite_key k) = true.
Proof. destruct k; simpl; [ apply spec_key_clean | done ]. Qed.

Lemma clean_rewrite_key k : key_clean k = true -> rewrite_key k = k.
Proof.
  destruct k as [ s | z ]; simpl; [ | done ].
  intros H. by rewrite clean_spec_key.
Qed.

(** One key move either leaves the table alone (the key needs no
    rewriting) or re-keys the reference held under [k]. *)
Lemma move_key_Ok k tbl tbl1 :
  move_key k tbl = Ok tbl1 <->
  (key_clean k = true /\ tbl1 = tbl) \/
  (key_clean k = false /\ exists r, dict_get k tbl = Some r
     /\ tbl1 = dict_set (rewrite_key k) r (dict_del k tbl)).
Proof.
  destruct k as [ s | z ]; simpl.
  - case_decide as Hs.
    + apply new_key_fixed in Hs. rewrite Hs.
      split; [ intros [= <-]; by left | ].
      by intros [ [_ ->] | [? _] ].
    + assert (Hc : clean s = false).
      { destruct (clean s) eqn:E; [ | done ].
        by apply new_key_fixed in E. }
      rewrite Hc, <- new_key_spec. unfold dict_pop.
      destruct (dict_get (KStr s) tbl) as [ r | ]; simpl.
      * split; [ intros [= <-]; right; eauto | ].
        by intros [ [? _] | (_ & r' & [= <-] & ->) ].
      * split; [ done | ]. by intros [ [? _] | (_ & r' & ? & _) ].
  - split; [ intros [= <-]; by left | ].
    by intros [ [_ ->] | [? _] ].
Qed.

Lemma move_keys_inv ks : forall pre tbl tbl',
  move_keys ks tbl = Ok tbl' ->
  (forall k' r, (k', r) ∈ tbl ->
     exists k, (pre ++ ks) !! r = Some k
               /\ (k' = rewrite_key k \/ (k' = k /\ length pre <= r))) ->
  forall k' r, (k', r) ∈ tbl' ->
    exists k, (pre ++ ks) !! r = Some k /\ k' = rewrite_key k.
Proof.
  induction ks as [ | k0 ks IH ]; intros pre tbl tbl' Hrun Hinv.
  - injection Hrun as <-. intros k' r Hin.
    destruct (Hinv _ _ Hin) as (k & Hk & [ -> | [_ Hle] ]); [ by exists k | ].
    apply lookup_lt_Some in Hk. rewrite app_nil_r in Hk. lia.
  - simpl in Hrun. apply bind_Ok in Hrun as (tbl1 & Hmv & Hrun).
    replace (pre ++ k0 :: ks) with ((pre ++ [k0]) ++ ks) in *
      by by rewrite <- app_assoc.
    apply (IH (pre ++ [k0]) tbl1 tbl' Hrun).
    assert (Hstep : forall k' r k,
      ((pre ++ [k0]) ++ ks) !! r = Some k -> k' = k -> length pre <= r ->
      k' <> k0 \/ key_clean k0 = true ->
      k' = rewrite_key k \/ (k' = k /\ length (pre ++ [k0]) <= r)).
    { intros k' r k Hk -> Hle Hor.
      rewrite length_app. simpl.
      destruct (decide (r = length pre)) as [ -> | ]; [ | right; split; [done | lia] ].
      rewrite <- app_assoc in Hk. simpl in Hk.
      rewrite list_lookup_middle in Hk by done.
      injection Hk as <-. destruct Hor as [ ? | Hc ]; [ done | ].
      left. by rewrite clean_rewrite_key. }
    apply move_key_Ok in Hmv as [ [Hc ->] | (Hc & r0 & Hget & ->) ];
      intros k' r Hin.
    + destruct (Hinv _ _ Hin) as (k & Hk & [ -> | [-> Hle] ]);
        exists k; (split; [ done | ]); [ by left | ].
      eapply Hstep; eauto.
    + apply elem_of_dict_set in Hin as [ [-> ->] | Hin ].
      * apply dict_get_Some in Hget.
        destruct (Hinv _ _ Hget) as (k & Hk & [ Heq | [Heq Hle] ]).
        { by rewrite Heq, rewrite_key_clean in Hc. }
        exists k. split; [ done | left; by rewrite Heq ].
      * apply elem_of_dict_del in Hin as [Hin Hne].
        destruct (Hinv _ _ Hin) as (k & Hk & [ -> | [-> Hle] ]);
          exists k; (split; [ done | ]); [ by left | ].
        eapply Hstep; eauto.
Qed.

Lemma elem_of_initial_table d k r :
  (k, r) ∈ initial_table d <-> d.*1 !! r = Some k.
Proof.
  unfold initial_table. rewrite elem_of_lookup_imap, list_lookup_fmap. split.
  - intros (i & [k0 v0] & [= -> ->] & ->). done.
  - intros Hr. destruct (d !! r) as [ [k0 v0] | ] eqn:E; [ | done ].
    injection Hr as <-. by exists r, (k0, v0).
Qed.

Lemma elem_of_resolve tbl objs k v :
  (k, v) ∈ resolve tbl objs <->
  exists r, (k, r) ∈ tbl /\ objs !! r = Some v.
Proof.
  unfold resolve. rewrite list_elem_of_omap. split.
  - intros ([k0 r] & Hin & H). exists r.
    destruct (objs !! r) as [ v0 | ]; [ | done ]. by injection H as -> ->.
  - intros (r & Hin & Hr). exists (k, r). by rewrite Hr.
Qed.

(** Every entry of the dict that [fix_keys] leaves is an entry of the
    original dict under its rewritten key, its value rewritten in place. *)
Lemma fix_keys_dict_entries d tbl vs k' v' :
  move_keys d.*1 (initial_table d) = Ok tbl ->
  mapM fix_slot d.*2 = Ok vs ->
  (k', v') ∈ resolve tbl vs ->
  exists k v, (k, v) ∈ d /\ k' = rewrite_key k /\ fix_slot v = Ok v'.
Proof.
  intros Hks Hvs (r & Hin & Hr)%elem_of_resolve.
  destruct (move_keys_inv d.*1 [] _ _ Hks) with (k' := k') (r := r)
    as (k & Hk & ->); [ | done | ].
  { intros k0 r0 ?%elem_of_initial_table. exists k0.
    split; [ done | right; split; [ done | simpl; lia ] ]. }
  simpl in Hk. apply mapM_Ok in Hvs.
  destruct (Forall2_lookup_r _ _ _ _ _ Hvs Hr) as (v & Hv & Hfix).
  rewrite list_lookup_fmap in Hk. rewrite list_lookup_fmap in Hv.
  destruct (d !! r) as [ [k0 v0] | ] eqn:E; [ | done ].
  injection Hk as <-. injection Hv as <-.
  exists k0, v0. split; [ | done ]. by eapply list_elem_of_lookup_2.
Qed.
End KeyMoves.

Lemma forallb_Forall {A} (f : A -> bool) l :
  forallb f l = true <-> Forall (fun x => f x = true) l.
Proof.
  induction l as [ | x l IH ]; simpl.
  - split; [ constructor | done ].
  - rewrite andb_true_iff, Forall_cons, IH. done.
Qed.

Section FixKeysFacts.
Implicit Types (d : dict) (tbl : table) (v : value) (k : key).

Lemma fix_slot_scalar v : is_container v = false -> fix_slot v = Ok v.
Proof. unfold fix_slot. by intros ->. Qed.

Lemma fix_slot_container v : is_container v = true -> fix_slot v = fix_keys v.
Proof. unfold fix_slot. by intros ->. Qed.

Lemma fix_keys_scalar v : is_container v = false -> fix_keys v = Ok v.
Proof. by destruct v. Qed.

Lemma fix_slot_fix_keys v : fix_slot v = fix_keys v.
Proof.
  destruct (is_container v) eqn:E.
  - by apply fix_slot_container.
  - by rewrite fix_slot_scalar, fix_keys_scalar.
Qed.

Lemma rewritten_container v v' :
  rewritten v v' -> is_container v' = is_container v.
Proof. by intros [ ]. Qed.

Lemma rewritten_clean v' : forall v, rewritten v v' -> keys_clean v' = true.
Proof.
  induction v' as [ | b | x | s | b | l' IH | d' IH ] using value_ind';
    intros v Hv; try done.
  - inversion Hv as [ ? Hc | l ? Hl | ]; subst; [ done | ].
    simpl. apply forallb_Forall. clear Hv.
    induction Hl as [ | x y l l' Hxy Hl IHl ]; [ constructor | ].
    apply Forall_cons in IH as [Hy IH].
    constructor; [ by eapply Hy | by apply IHl ].
  - inversion Hv as [ ? Hc | | d ? Hd ]; subst; [ done | ].
    simpl. apply forallb_Forall, Forall_forall. intros [k' v'] Hin.
    destruct (Hd _ _ Hin) as (k & v & _ & -> & Hr).
    rewrite Forall_forall in IH. simpl.
    rewrite rewrite_key_clean. simpl.
    by apply (IH (rewrite_key k, v') Hin v).
Qed.

Lemma rewritten_filled x y :
  rewritten x y -> filled no_none x = true ->
  (no_none x = true -> no_none y = true) -> filled no_none y = true.
Proof.
  intros [ v Hc | l l' Hl | d d' Hd Hd' ] Hx Hy.
  - done.
  - by apply Hy.
  - by apply Hy.
Qed.

Lemma rewritten_no_none v' :
  forall v, rewritten v v' -> no_none v = true -> no_none v' = true.
Proof.
  induction v' as [ | b | x | s | b | l' IH | d' IH ] using value_ind';
    intros v Hv Hn; try done.
  - inversion Hv as [ ? Hc | l ? Hl | ]; subst; [ done | ].
    simpl in *. apply forallb_Forall. apply forallb_Forall in Hn. clear Hv.
    induction Hl as [ | x y l l' Hxy Hl IHl ]; [ constructor | ].
    apply Forall_cons in IH as [Hy IH]. apply Forall_cons in Hn as [Hx Hn].
    constructor; [ | by apply IHl ].
    eapply rewritten_filled; eauto.
  - inversion Hv as [ ? Hc | | d ? Hd ]; subst; [ done | ].
    simpl in *. apply forallb_Forall, Forall_forall. intros [k' v'] Hin.
    destruct (Hd _ _ Hin) as (k & v & Hkv & -> & Hr).
    rewrite forallb_Forall, Forall_forall in Hn. specialize (Hn _ Hkv).
    rewrite Forall_forall in IH. specialize (IH _ Hin v Hr).
    eapply rewritten_filled; eauto.
Qed.

Lemma move_keys_clean ks tbl :
  Forall (fun k => key_clean k = true) ks -> move_keys ks tbl = Ok tbl.
Proof.
  induction 1 as [ | k ks Hk _ IH ]; simpl; [ done | ].
  assert (move_key k tbl = Ok tbl) as -> by (apply move_key_Ok; by left).
  done.
Qed.

Lemma resolve_initial d : resolve (initial_table d) d.*2 = d.
Proof.
  unfold resolve, initial_table.
  enough (forall pre, omap (fun '(k, r) => v ← (pre ++ d.*2) !! r; Some (k, v))
                    (imap (fun i '(k, _) => (k, length pre + i)%nat) d) = d)
    as H by apply (H []).
  induction d as [ | [k v] d IH ]; intros pre; [ done | ].
  rewrite imap_cons. simpl.
  rewrite Nat.add_0_r, list_lookup_middle by done. simpl. f_equal.
  specialize (IH (pre ++ [v])). rewrite <- app_assoc in IH. simpl in IH.
  etrans; [ | exact IH ]. f_equal. apply imap_ext. intros i [k0 v0] _. simpl.
  rewrite length_app. simpl. f_equal. lia.
Qed.

(** On a document whose keys need no rewriting [fix_keys] changes
    nothing. *)
Lemma clean_fix_keys v : keys_clean v = true -> fix_keys v = Ok v.
Proof.
  induction v as [ | b | x | s | b | l IH | d IH ] using value_ind';
    intros Hc; try done.
  - rewrite fix_keys_list. simpl in Hc. apply forallb_Forall in Hc.
    assert (mapM fix_slot l = Ok l) as ->; [ | done ].
    apply mapM_Ok. induction l as [ | x l IHl ]; [ constructor | ].
    apply Forall_cons in IH as [Hx IH]. apply Forall_cons in Hc as [Hcx Hc].
    constructor; [ | by apply IHl ].
    rewrite fix_slot_fix_keys. by apply Hx.
  - apply fix_keys_dict_Ok. simpl in Hc. apply forallb_Forall in Hc.
    exists (initial_table d), d.*2. split; [ | split ].
    + apply move_keys_clean, Forall_fmap. eapply Forall_impl; [ exact Hc | ].
      by intros [k v] [? ?]%andb_true_iff.
    + apply mapM_Ok.
      induction d as [ | [k v] d IHd ]; [ constructor | ].
      apply Forall_cons in IH as [Hx IH]. apply Forall_cons in Hc as [Hcx Hc].
      constructor; [ | by apply IHd ].
      rewrite fix_slot_fix_keys. apply Hx.
      by apply andb_true_iff in Hcx as [_ ?].
    + by rewrite resolve_initial.
Qed.
End FixKeysFacts.

Section FixKeysTotal.
Implicit Types (d : dict) (tbl : table) (v : value) (k : key).

Lemma move_keys_total ks : forall tbl,
  NoDup ks ->
  (forall k, k ∈ ks -> key_clean k = false -> k ∈ tbl.*1) ->
  exists tbl', move_keys ks tbl = Ok tbl'.
Proof.
  induction ks as [ | k0 ks IH ]; intros tbl Hnd Hin; [ by eexists | ].
  apply NoDup_cons in Hnd as [Hk0 Hnd]. simpl.
  destruct (key_clean k0) eqn:Hc.
  - assert (move_key k0 tbl = Ok tbl) as -> by (apply move_key_Ok; by left).
    apply IH; [ done | ]. intros k Hk. apply Hin, elem_of_cons. by right.
  - destruct (dict_get_is_Some k0 tbl) as [r Hr].
    { apply Hin; [ apply elem_of_cons; by left | done ]. }
    assert (move_key k0 tbl
            = Ok (dict_set (rewrite_key k0) r (dict_del k0 tbl))) as ->.
    { apply move_key_Ok. right. eauto. }
    apply IH; [ done | ]. intros k Hk Hkc.
    apply dict_set_keys, dict_del_keys.
    + apply Hin; [ apply elem_of_cons; by right | done ].
    + by intros ->.
Qed.

Lemma initial_table_keys d k : k ∈ d.*1 -> k ∈ (initial_table d).*1.
Proof.
  intros [r Hr]%list_elem_of_lookup. apply list_elem_of_fmap.
  exists (k, r). split; [ done | ]. by apply elem_of_initial_table.
Qed.

Lemma mapM_total {A B} (f : A -> result B) l :
  Forall (fun x => exists y, f x = Ok y) l -> exists l', mapM f l = Ok l'.
Proof.
  induction 1 as [ | x l [y Hy] _ [l' Hl] ]; [ by exists [] | ].
  exists (y :: l'). rewrite mapM_cons, Hy. simpl. by rewrite Hl.
Qed.

(** [fix_keys] returns on every document Python can build: the [pop] of
    the loop never misses its key. *)
Lemma fix_keys_total v : wf v = true -> exists v', fix_keys v = Ok v'.
Proof.
  induction v as [ | b | x | s | b | l IH | d IH ] using value_ind';
    intros Hwf; try by eexists.
  - simpl in Hwf. apply forallb_Forall in Hwf.
    destruct (mapM_total fix_slot l) as [l' Hl'].
    { rewrite Forall_forall in IH, Hwf. apply Forall_forall. intros x Hx.
      rewrite fix_slot_fix_keys. by apply IH, Hwf. }
    exists (VList l'). by rewrite fix_keys_list, Hl'.
  - simpl in Hwf. apply andb_true_iff in Hwf as [Hnd Hwf].
    apply bool_decide_eq_true in Hnd. apply forallb_Forall in Hwf.
    destruct (move_keys_total d.*1 (initial_table d) Hnd) as [tbl Htbl].
    { intros k Hk _. by apply initial_table_keys. }
    destruct (mapM_total fix_slot d.*2) as [vs Hvs].
    { apply Forall_fmap. rewrite Forall_forall in IH, Hwf.
      apply Forall_forall. intros [k v] Hkv. simpl.
      rewrite fix_slot_fix_keys. by apply (IH _ Hkv), (Hwf _ Hkv). }
    exists (VDict (resolve tbl vs)). apply fix_keys_dict_Ok. by exists tbl, vs.
Qed.
End FixKeysTotal.

Section ReplaceNoneFacts.
Implicit Types (d : dict) (v : value) (k : key).

Lemma none_slot_container v :
  is_container v = true -> none_slot replace_none v = replace_none v.
Proof. by destruct v. Qed.

Lemma replace_none_scalar v : is_container v = false -> replace_none v = v.
Proof. by destruct v. Qed.

Lemma none_slot_filled v :
  no_none (replace_none v) = true ->
  filled no_none (none_slot replace_none v) = true.
Proof. by destruct v. Qed.

Lemma replace_none_no_none v : no_none (replace_none v) = true.
Proof.
  induction v as [ | b | x | s | b | l IH | d IH ] using value_ind'; try done.
  - simpl. apply forallb_Forall, Forall_fmap.
    eapply Forall_impl; [ exact IH | ]. intros x. apply none_slot_filled.
  - simpl. apply forallb_Forall, Forall_fmap.
    eapply Forall_impl; [ exact IH | ]. intros [k v]. apply none_slot_filled.
Qed.

Lemma filled_none_slot v :
  filled no_none v = true -> (no_none v = true -> replace_none v = v) ->
  none_slot replace_none v = v.
Proof. destruct v; simpl; try done; intros H1 H2; by apply H2. Qed.

Lemma no_none_replace_none v : no_none v = true -> replace_none v = v.
Proof.
  induction v as [ | b | x | s | b | l IH | d IH ] using value_ind';
    intros Hn; try done.
  - simpl in *. f_equal. apply forallb_Forall in Hn.
    induction l as [ | x l IHl ]; [ done | ].
    apply Forall_cons in IH as [Hx IH]. apply Forall_cons in Hn as [Hnx Hn].
    simpl. f_equal; [ by apply filled_none_slot | by apply IHl ].
  - simpl in *. f_equal. apply forallb_Forall in Hn.
    induction d as [ | [k v] d IHd ]; [ done | ].
    apply Forall_cons in IH as [Hx IH]. apply Forall_cons in Hn as [Hnx Hn].
    simpl. f_equal; [ f_equal; by apply filled_none_slot | by apply IHd ].
Qed.

Lemma none_slot_normalized v : normalized v (none_slot replace_none v).
Proof.
  induction v as [ | b | x | s | b | l IH | d IH ] using value_ind';
    try by constructor.
  - simpl. constructor. induction IH; simpl; by constructor.
  - simpl. constructor.
    induction IH as [ | [k v] d Hv _ IHd ]; simpl; by constructor.
Qed.
End ReplaceNoneFacts.

Section FixKeysRewritten.
Implicit Types (d : dict) (tbl : table) (v : value) (k : key).

(** Under distinct keys, every key of the snapshot is in the table until
    its turn, and rewritten from then on. *)
Lemma move_keys_present ks : forall tbl tbl' (seen : list key),
  NoDup ks -> move_keys ks tbl = Ok tbl' ->
  (forall k, k ∈ ks -> k ∈ tbl.*1) ->
  (forall k, k ∈ seen -> rewrite_key k ∈ tbl.*1) ->
  forall k, k ∈ seen ++ ks -> rewrite_key k ∈ tbl'.*1.
Proof.
  induction ks as [ | k0 ks IH ]; intros tbl tbl' seen Hnd Hrun Hks Hseen.
  - injection Hrun as <-. intros k. rewrite app_nil_r. apply Hseen.
  - simpl in Hrun. apply bind_Ok in Hrun as (tbl1 & Hmv & Hrun).
    apply NoDup_cons in Hnd as [Hk0 Hnd].
    intros k Hk.
    replace (seen ++ k0 :: ks) with ((seen ++ [k0]) ++ ks) in Hk
      by by rewrite <- app_assoc.
    revert k Hk. apply (IH tbl1 tbl' (seen ++ [k0]) Hnd Hrun).
    + intros k Hk.
      assert (k ∈ tbl.*1) as Hin by (apply Hks, elem_of_cons; by right).
      apply move_key_Ok in Hmv as [ [_ ->] | (_ & r & _ & ->) ]; [ done | ].
      apply dict_set_keys, dict_del_keys; [ done | by intros -> ].
    + intros k [Hk | ->%list_elem_of_singleton]%elem_of_app.
      * specialize (Hseen k Hk).
        apply move_key_Ok in Hmv as [ [_ ->] | (Hc & r & _ & ->) ]; [ done | ].
        apply dict_set_keys, dict_del_keys; [ done | ].
        intros E. by rewrite <- E, rewrite_key_clean in Hc.
      * apply move_key_Ok in Hmv as [ [Hc ->] | (Hc & r & _ & ->) ].
        { rewrite clean_rewrite_key by done.
          apply Hks, elem_of_cons. by left. }
        clear. generalize (dict_del k0 tbl). intros t.
        induction t as [ | [k1 r1] t IHt ]; simpl.
        { apply elem_of_cons. by left. }
        case_decide as E; simpl; apply elem_of_cons;
          [ left; by rewrite E | by right ].
Qed.

Lemma resolve_keys tbl vs k :
  k ∈ tbl.*1 -> (forall k' r, (k', r) ∈ tbl -> (r < length vs)%nat) ->
  k ∈ (resolve tbl vs).*1.
Proof.
  intros ([k0 r] & -> & Hin)%list_elem_of_fmap Hlt.
  destruct (lookup_lt_is_Some_2 vs r (Hlt _ _ Hin)) as [v Hv].
  apply list_elem_of_fmap. exists (k0, v). split; [ done | ].
  apply elem_of_resolve. eauto.
Qed.

(** What [fix_keys] returns is its argument with the keys rewritten. *)
Lemma fix_keys_rewritten v :
  wf v = true -> forall v', fix_keys v = Ok v' -> rewritten v v'.
Proof.
  induction v as [ | b | x | s | b | l IH | d IH ] using value_ind';
    intros Hwf v' Hv; try (injection Hv as <-; by constructor).
  - rewrite fix_keys_list in Hv. simpl in Hwf. apply forallb_Forall in Hwf.
    apply bind_Ok in Hv as (l' & Hl & [= <-]). apply mapM_Ok in Hl.
    constructor. induction Hl as [ | x y l l' Hxy Hl IHl ]; [ constructor | ].
    apply Forall_cons in IH as [Hx IH]. apply Forall_cons in Hwf as [Hwx Hwf].
    constructor; [ | by apply IHl ].
    apply Hx; [ done | ]. by rewrite <- fix_slot_fix_keys.
  - simpl in Hwf. apply andb_true_iff in Hwf as [Hnd Hwf].
    apply bool_decide_eq_true in Hnd. apply forallb_Forall in Hwf.
    apply fix_keys_dict_Ok in Hv as (tbl & vs & Hks & Hvs & ->).
    constructor.
    + intros k' v' Hin.
      destruct (fix_keys_dict_entries _ _ _ _ _ Hks Hvs Hin)
        as (k & v & Hkv & -> & Hfix).
      exists k, v. split; [ done | split; [ done | ] ].
      rewrite Forall_forall in IH, Hwf. apply (IH (k, v) Hkv).
      * by apply (Hwf (k, v)).
      * by rewrite <- fix_slot_fix_keys.
    + intros k Hk. apply resolve_keys.
      * apply (move_keys_present d.*1 _ _ [] Hnd Hks); [ | | done ].
        -- intros ??. by apply initial_table_keys.
        -- by intros ? ?%elem_of_nil.
      * intros k' r Hin.
        destruct (move_keys_inv d.*1 [] _ _ Hks) with (k' := k') (r := r)
          as (k1 & Hk1 & _); [ | done | ].
        { intros k0 r0 ?%elem_of_initial_table. exists k0.
          split; [ done | right; split; [ done | simpl; lia ] ]. }
        simpl in Hk1. apply lookup_lt_Some in Hk1.
        apply mapM_Ok, Forall2_length in Hvs.
        rewrite !length_fmap in *. lia.
Qed.
End FixKeysRewritten.

Section SanitizerFacts.
Implicit Types (d : dict) (v : value) (k : key).

Lemma none_slot_wf v : wf (replace_none v) = true -> wf (none_slot replace_none v) = true.
Proof. by destruct v. Qed.

Lemma map_values_keys (f : value -> value) d :
  (map (fun '(k, v) => (k, f v)) d).*1 = d.*1.
Proof.
  induction d as [ | [k v] d IH ]; [ done | ].
  simpl. f_equal. exact IH.
Qed.

Lemma wf_replace_none v : wf v = true -> wf (replace_none v) = true.
Proof.
  induction v as [ | b | x | s | b | l IH | d IH ] using value_ind';
    intros Hwf; try done.
  - simpl in *. apply forallb_Forall in Hwf. apply forallb_Forall, Forall_fmap.
    rewrite Forall_forall in *. intros x Hx. by apply none_slot_wf, IH, Hwf.
  - simpl in *. apply andb_true_iff in Hwf as [Hnd Hwf].
    apply forallb_Forall in Hwf. apply andb_true_iff. split.
    + by rewrite map_values_keys.
    + apply forallb_Forall, Forall_fmap. rewrite Forall_forall in *.
      intros [k v] Hkv. by apply none_slot_wf, (IH _ Hkv), (Hwf _ Hkv).
Qed.

Lemma replace_none_idem v : replace_none (replace_none v) = replace_none v.
Proof. apply no_none_replace_none, replace_none_no_none. Qed.

Lemma fix_keys_idem v v' :
  wf v = true -> fix_keys v = Ok v' -> fix_keys v' = Ok v'.
Proof.
  intros Hwf Hv. eapply clean_fix_keys, rewritten_clean.
  by apply (fix_keys_rewritten v).
Qed.

Lemma sanitize_idem v v' :
  wf v = true -> sanitize v = Ok v' -> sanitize v' = Ok v'.
Proof.
  unfold sanitize. intros Hwf Hv.
  assert (Hr : rewritten (replace_none v) v').
  { apply fix_keys_rewritten; [ by apply wf_replace_none | done ]. }
  rewrite (no_none_replace_none v').
  - eapply clean_fix_keys, rewritten_clean, Hr.
  - eapply rewritten_no_none; [ exact Hr | apply replace_none_no_none ].
Qed.
End SanitizerFacts.

(** ** DocumentSanitizer: the specified properties *)

(** A document with keys of every kind, nested through a dict and a list. *)
Example nested_doc_wf :
  wf (VDict [ (KStr "$set", VNone);
              (KStr "a.b-c", VList [ VDict [ (KStr "x-y", VNone) ]; VNone ]);
              (KInt 7, VDict [ (KStr "n$m", VNum (NInt 1)) ]) ]) = true.
Proof. reflexivity. Qed.

(** X24.  What [fix_keys] does on every document with distinct dict keys:
    it returns (the [pop] never misses), and it returns the document with
    its keys rewritten ([rewritten]): at any depth, a textual key that
    starts with [$] has each of its [$] replaced by [dollar_], and every
    [.] and [-] of a textual key becomes [_] ([spec_key]); scalars and
    lists keep their place.  No textual key of the result, at any depth,
    starts with [$] or holds [.] or [-] ([keys_clean]). *)
Theorem fix_keys_rewrites_keys (data : value) :
  wf data = true ->
  exists data', fix_keys data = Ok data'
                /\ rewritten data data' /\ keys_clean data' = true.
Proof.
  intros Hwf. destruct (fix_keys_total data Hwf) as [data' Hfix].
  exists data'. split; [ done | ].
  assert (rewritten data data') as Hr by by apply fix_keys_rewritten.
  split; [ done | by eapply rewritten_clean ].
Qed.

Lemma fix_keys_rewrites_keys_witness :
  exists data',
    fix_keys
      (VDict [ (KStr "$set", VNone);
               (KStr "a.b-c", VList [ VDict [ (KStr "x-y", VNone) ]; VNone ]);
               (KInt 7, VDict [ (KStr "n$m", VNum (NInt 1)) ]) ]) = Ok data'
    /\ rewritten
         (VDict [ (KStr "$set", VNone);
                  (KStr "a.b-c", VList [ VDict [ (KStr "x-y", VNone) ]; VNone ]);
                  (KInt 7, VDict [ (KStr "n$m", VNum (NInt 1)) ]) ]) data'
    /\ keys_clean data' = true.
Proof. apply fix_keys_rewrites_keys. reflexivity. Defined.

(** C3.  The code at the input where it misses what the claim, and its
    own comment at every call ("Fix any key that contains [$] or [.] or
    [-]"), say: the key [a$b] holds a [$] and [fix_keys] returns it as it
    is, because [$] is looked for at the start of the key only
    ([k.startswith("$")]), where [.] and [-] are looked for anywhere
    ([in k]): the keys [a.b] and [a-b] are rewritten, and so is every [$]
    of a key that starts with one. *)
Lemma fix_keys_keeps_inner_dollar :
  fix_keys (VDict [ (KStr "a$b", VNum (NInt 1)) ])
    = Ok (VDict [ (KStr "a$b", VNum (NInt 1)) ])
  /\ contains "$" "a$b" = true
  /\ fix_keys (VDict [ (KStr "a.b", VNum (NInt 1)) ])
     = Ok (VDict [ (KStr "a_b", VNum (NInt 1)) ])
  /\ fix_keys (VDict [ (KStr "a-b", VNum (NInt 1)) ])
     = Ok (VDict [ (KStr "a_b", VNum (NInt 1)) ])
  /\ fix_keys (VDict [ (KStr "$a$b", VNum (NInt 1)) ])
     = Ok (VDict [ (KStr "dollar_adollar_b", VNum (NInt 1)) ]).
Proof. repeat split; reflexivity. Qed.

(** C8.  Both passes are idempotent, and so is their composition: on every
    document, null normalization applied twice is null normalization, and
    key rewriting (and the two passes together) returns a document that it
    returns unchanged when applied again. *)
Theorem sanitizer_idempotent (data : value) :
  wf data = true ->
  replace_none (replace_none data) = replace_none data
  /\ (exists data', fix_keys data = Ok data' /\ fix_keys data' = Ok data')
  /\ (exists data', sanitize data = Ok data' /\ sanitize data' = Ok data').
Proof.
  intros Hwf. split; [ apply replace_none_idem | split ].
  - destruct (fix_keys_total data Hwf) as [data' Hfix].
    exists data'. split; [ done | by eapply fix_keys_idem ].
  - destruct (fix_keys_total (replace_none data)) as [data' Hfix].
    { by apply wf_replace_none. }
    exists data'. split; [ done | by eapply sanitize_idem ].
Qed.

Lemma sanitizer_idempotent_witness :
  let data :=
    VDict [ (KStr "$set", VNone);
            (KStr "a.b-c", VList [ VDict [ (KStr "x-y", VNone) ]; VNone ]);
            (KInt 7, VDict [ (KStr "n$m", VNum (NInt 1)) ]) ] in
  replace_none (replace_none data) = replace_none data
  /\ (exists data', fix_keys data = Ok data' /\ fix_keys data' = Ok data')
  /\ (exists data', sanitize data = Ok data' /\ sanitize data' = Ok data').
Proof. apply sanitizer_idempotent. reflexivity. Defined.

(** C9.  On every list and every dict, at any depth, [replace_none] turns
    each null slot into the string [None], keeps every other scalar, and
    keeps the length and order of lists and the keys of dicts
    ([normalized]); no null slot is left ([no_none]). *)
Theorem replace_none_normalizes :
  (forall l, normalized (VList l) (replace_none (VList l))
             /\ no_none (replace_none (VList l)) = true)
  /\ (forall d, normalized (VDict d) (replace_none (VDict d))
                /\ no_none (replace_none (VDict d)) = true).
Proof.
  split; intros x; (split; [ | apply replace_none_no_none ]).
  - apply (none_slot_normalized (VList x)).
  - apply (none_slot_normalized (VDict x)).
Qed.

(** C10.  Two distinct keys of one dict can rewrite to the same key:
    [a.b] and [a-b] both become [a_b].  [fix_keys] then keeps one entry
    under [a_b], with the value of the key visited last, and the other
    value is gone: the result has fewer entries than the input. *)
Theorem fix_keys_collision_drops_entry :
  new_key "a.b" = "a_b" /\ new_key "a-b" = "a_b"
  /\ fix_keys (VDict [ (KStr "a.b", VNum (NInt 1)); (KStr "a-b", VNum (NInt 2)) ])
     = Ok (VDict [ (KStr "a_b", VNum (NInt 2)) ])
  /\ exists d d', wf (VDict d) = true /\ fix_keys (VDict d) = Ok (VDict d')
                  /\ (length d' < length d)%nat.
Proof.
  do 3 (split; [ reflexivity | ]).
  exists [ (KStr "a.b", VNum (NInt 1)); (KStr "a-b", VNum (NInt 2)) ],
         [ (KStr "a_b", VNum (NInt 2)) ].
  do 2 (split; [ reflexivity | ]). simpl. lia.
Qed.

(** ** FragmentReassembler: the specified properties *)

Section Reassembly.
Implicit Types (pdu : PDU) (p : pdu_params).

(** A chain is split by its header exactly when no reference number is
    present, the UDHI flag is set and the body starts with the
    signature. *)
Lemma splitMethod_udh p :
  splitMethod p = Ok (Some udh) <->
  sar_msg_ref_num p = None /\ udhi_indicator_set p = true
  /\ exists sm, short_message p = Some sm /\ take 3 sm = [x05; x00; x03].
Proof.
  unfold splitMethod, short_message_bytes.
  destruct (sar_msg_ref_num p) as [ ref | ].
  - rewrite bool_decide_eq_true_2 by by eexists.
    split; [ done | by intros [? _] ].
  - rewrite bool_decide_eq_false_2 by by intros [? ?].
    destruct (udhi_indicator_set p); [ | split; [ done | by intros (_ & ? & _) ] ].
    destruct (short_message p) as [ sm | ]; simpl.
    + case_bool_decide as Hsig.
      * split; [ by eauto | done ].
      * split; [ done | ]. by intros (_ & _ & sm' & [= <-] & ?).
    + split; [ done | ]. by intros (_ & _ & sm' & ? & _).
Qed.

Lemma concat_next_chain m pdu : forall acc n,
  Forall (fun f => is_Some (short_message (params f))) (chain pdu) ->
  concat_next m pdu acc n
  = Ok (acc ++ concat (map (fun f => fragment_part m (body_of f))
                         (tail (chain pdu))),
        (n + length (tail (chain pdu)))%nat).
Proof.
  induction pdu as [ p st | p st pdu' IH ] using PDU_ind'; intros acc n Hall.
  - simpl. by rewrite app_nil_r, Nat.add_0_r.
  - simpl in Hall. apply Forall_cons in Hall as [_ Hall].
    simpl. unfold short_message_bytes.
    destruct pdu' as [p' st' next']. simpl in *.
    pose proof Hall as [[sm' Hsm'] _]%Forall_cons. simpl in Hsm'.
    rewrite Hsm'. simpl.
    rewrite (IH _ _ Hall). simpl. unfold body_of at 2. simpl. rewrite Hsm'.
    simpl. f_equal. f_equal; [ by rewrite <- app_assoc | lia ].
Qed.

(** C5.  A chain that [splitMethod] classifies as header-prefixed has the
    UDHI flag set and a first body that starts with the signature
    [05 00 03]; when every fragment has a body, the reassembled message
    is the concatenation, in chain order, of the bodies without their
    first 6 bytes, and the page count is the length of the chain. *)
Theorem reassemble_header_prefixed pdu :
  splitMethod (params pdu) = Ok (Some udh) ->
  Forall (fun f => is_Some (short_message (params f))) (chain pdu) ->
  udhi_indicator_set (params pdu) = true
  /\ take 3 (body_of pdu) = [x05; x00; x03]
  /\ reassemble pdu
     = Ok (concat (map (fun f => drop 6 (body_of f)) (chain pdu)),
           length (chain pdu)).
Proof.
  intros Hm Hall. pose proof Hm as (_ & Hudhi & sm & Hsm & Hsig)%splitMethod_udh.
  unfold reassemble. rewrite Hm. simpl.
  unfold short_message_bytes. rewrite Hsm. simpl.
  rewrite (concat_next_chain udh pdu _ _ Hall).
  unfold body_of at 1. rewrite Hsm. simpl.
  split; [ done | split; [ done | ] ].
  destruct pdu as [p st next]. simpl in *.
  unfold body_of at 2. simpl. rewrite Hsm. simpl.
  reflexivity.
Qed.

Lemma reassemble_header_prefixed_witness :
  udhi_indicator_set (params two_part_pdu) = true
  /\ take 3 (body_of two_part_pdu) = [x05; x00; x03]
  /\ reassemble two_part_pdu
     = Ok (concat (map (fun f => drop 6 (body_of f)) (chain two_part_pdu)),
           length (chain two_part_pdu)).
Proof.
  apply reassemble_header_prefixed.
  - reflexivity.
  - repeat constructor; by eexists.
Defined.
End Reassembly.

(** ** BrokerSupervisor: the retry budget *)

Section Retry.
Implicit Types (rs : retry_state).

Lemma connect_failures_bounded (n extra : nat) rs :
  RETRY_ON_CONNECTION_ERROR rs = true -> RETRY_FOREVER rs = false ->
  amqp_broker_max_retries rs = Z.of_nat n ->
  connect_failures (n + 1 + extra) rs
  = ({| RETRY_ON_CONNECTION_ERROR := true;
        amqp_broker_max_retries := 0;
        RETRY_FOREVER := false |},
     repeat callLater_rabbitMQConnect n ++ [StopReactor]).
Proof.
  revert rs. induction n as [ | n IH ]; intros [retry retries forever];
    cbn [RETRY_ON_CONNECTION_ERROR RETRY_FOREVER amqp_broker_max_retries];
    intros -> -> ->.
  - reflexivity.
  - change (S n + 1 + extra)%nat with (S (n + 1 + extra)).
    cbn [connect_failures]. unfold ConError, should_stop.
    cbn [RETRY_ON_CONNECTION_ERROR RETRY_FOREVER amqp_broker_max_retries negb orb].
    rewrite bool_decide_eq_false_2 by lia. cbn [andb].
    rewrite IH; [ done | done | done | ].
    cbn [decrement_retry amqp_broker_max_retries]. lia.
Qed.

(** C4.  With retries enabled and [max_retries = N > 0], each of the
    first [N] consecutive connect failures schedules a reconnect, the
    next one calls [StopReactor], and that is the end: however many
    further attempts would fail, none is made, so the trace holds one
    [StopReactor], last, and no reconnect after it. *)
Theorem bounded_retries_stop_once (N extra : nat) :
  (0 < N)%nat ->
  (connect_failures (N + 1 + extra) (init_retry true (Z.of_nat N))).2
  = repeat callLater_rabbitMQConnect N ++ [StopReactor].
Proof.
  intros HN.
  rewrite (connect_failures_bounded N extra); [ done | done | | done ].
  simpl. apply bool_decide_eq_false_2. lia.
Qed.

Lemma bounded_retries_stop_once_witness :
  (connect_failures (3 + 1 + 5) (init_retry true (Z.of_nat 3))).2
  = repeat callLater_rabbitMQConnect 3 ++ [StopReactor].
Proof. apply (bounded_retries_stop_once 3 5). lia. Defined.
End Retry.

(** ** The store and the sanitized documents handed to it *)

Lemma NoDup_keys (ks : list key) : bool_decide (NoDup ks) = true -> NoDup ks.
Proof. apply bool_decide_eq_true. Qed.

Section DictLookup.
Context {V : Type}.
Implicit Types (d : list (key * V)) (k : key) (v : V).

Lemma dict_get_set_eq k v d : dict_get k (dict_set k v d) = Some v.
Proof.
  induction d as [ | [k0 v0] d IH ]; simpl.
  - by rewrite decide_True.
  - case_decide as E; simpl; [ by rewrite decide_True | by rewrite decide_False ].
Qed.

Lemma dict_get_set_ne k k' v d :
  k <> k' -> dict_get k (dict_set k' v d) = dict_get k d.
Proof.
  intros Hne. induction d as [ | [k0 v0] d IH ]; simpl.
  - by rewrite decide_False.
  - case_decide as E; simpl.
    + subst k0. by rewrite !decide_False by done.
    + case_decide; [ done | exact IH ].
Qed.

Lemma dict_get_None k d : k ∉ d.*1 -> dict_get k d = None.
Proof.
  induction d as [ | [k0 v0] d IH ]; simpl; [ done | ].
  intros [Hne Hnin]%not_elem_of_cons.
  rewrite decide_False by done. by apply IH.
Qed.

Lemma dict_get_None_inv k d : dict_get k d = None -> k ∉ d.*1.
Proof.
  intros Hget Hin. apply dict_get_is_Some in Hin as [v Hv]. congruence.
Qed.

Lemma dict_get_zip {W} (R : V -> W -> Prop) d (ws : list W) k v :
  Forall2 R d.*2 ws -> dict_get k d = Some v ->
  exists w, dict_get k (zip d.*1 ws) = Some w /\ R v w.
Proof.
  revert ws. induction d as [ | [k0 v0] d IH ]; intros ws Hall; [ done | ].
  apply Forall2_cons_inv_l in Hall as (w0 & ws' & Hw0 & Hall & ->). simpl.
  case_decide; [ intros [= <-]; by exists w0 | by apply IH ].
Qed.

Lemma zip_keys {W} d (ws : list W) :
  length ws = length d -> (zip d.*1 ws).*1 = d.*1.
Proof.
  intros Hlen. apply fst_zip. rewrite length_fmap. lia.
Qed.
End DictLookup.

Section Merge.
Implicit Types (o n : dict) (k : key) (v : value).

Lemma merge_doc_unfold o n :
  merge_doc o n
  = fold_left
      (fun acc kv =>
         dict_set kv.1
           (match dict_get kv.1 acc with
            | Some ov => merge ov kv.2
            | None => kv.2
            end) acc) n o.
Proof. reflexivity. Qed.

Lemma merge_dict o n : merge (VDict o) (VDict n) = VDict (merge_doc o n).
Proof. reflexivity. Qed.

(** A field the partial document does not name is kept. *)
Lemma merge_doc_get_other n : forall o k,
  dict_get k n = None -> dict_get k (merge_doc o n) = dict_get k o.
Proof.
  setoid_rewrite merge_doc_unfold.
  induction n as [ | [k0 v0] n IH ]; intros o k Hk; [ done | ].
  simpl in *. case_decide as E; [ done | ].
  rewrite IH by done. by apply dict_get_set_ne.
Qed.

(** A field the partial document names holds the new value, merged into
    the stored one. *)
Lemma merge_doc_get n : forall o k v,
  NoDup n.*1 -> dict_get k n = Some v ->
  dict_get k (merge_doc o n)
  = Some (match dict_get k o with
          | Some ov => merge ov v
          | None => v
          end).
Proof.
  setoid_rewrite merge_doc_unfold.
  induction n as [ | [k0 v0] n IH ]; intros o k v Hnd Hk; [ done | ].
  apply NoDup_cons in Hnd as [Hk0 Hnd]. simpl in *.
  case_decide as E.
  - subst k0. injection Hk as ->.
    pose proof (merge_doc_get_other n) as Hother.
    setoid_rewrite merge_doc_unfold in Hother.
    rewrite Hother by by apply dict_get_None.
    apply dict_get_set_eq.
  - rewrite (IH _ k v) by done. by rewrite dict_get_set_ne.
Qed.

Lemma merge_scalar ov v : (forall d, v <> VDict d) -> merge ov v = v.
Proof. intros Hv. destruct ov, v; try done. by destruct (Hv d0). Qed.

Lemma merged_scalar o k v :
  (forall d, v <> VDict d) ->
  match dict_get k o with
  | Some ov => merge ov v
  | None => v
  end = v.
Proof. intros Hv. destruct (dict_get k o); [ by apply merge_scalar | done ]. Qed.
End Merge.

Section SanitizeDoc.
Implicit Types (d : dict) (k : key) (v : value).

Lemma resolve_initial_zip d vs :
  length vs = length d -> resolve (initial_table d) vs = zip d.*1 vs.
Proof.
  unfold resolve, initial_table.
  enough (forall pre vs, length vs = length d ->
            omap (fun '(k, r) => v ← (pre ++ vs) !! r; Some (k, v))
              (imap (fun i '(k, _) => (k, length pre + i)%nat) d)
            = zip d.*1 vs) as H by apply (H []).
  induction d as [ | [k v] d IH ]; intros pre ws Hlen.
  - by destruct ws.
  - destruct ws as [ | w ws ]; [ done | ]. injection Hlen as Hlen.
    rewrite imap_cons. simpl.
    rewrite Nat.add_0_r, list_lookup_middle by done. simpl. f_equal.
    specialize (IH (pre ++ [w]) ws Hlen). rewrite <- app_assoc in IH.
    simpl in IH. etrans; [ | exact IH ]. f_equal. apply imap_ext.
    intros i [k0 v0] _. simpl. rewrite length_app. simpl. f_equal. lia.
Qed.

(** When the keys of a dict need no rewriting, [fix_keys] keeps them in
    place and rewrites the values. *)
Lemma fix_keys_dict_clean d r :
  Forall (fun k => key_clean k = true) d.*1 -> fix_keys (VDict d) = Ok r ->
  exists vs, Forall2 (fun v v' => fix_keys v = Ok v') d.*2 vs
             /\ r = VDict (zip d.*1 vs).
Proof.
  intros Hc (tbl & vs & Hks & Hvs & ->)%fix_keys_dict_Ok.
  rewrite move_keys_clean in Hks by done. injection Hks as <-.
  apply mapM_Ok in Hvs. exists vs. split.
  - eapply Forall2_impl; [ exact Hvs | ]. intros v v' H. simpl in H.
    by rewrite <- fix_slot_fix_keys.
  - rewrite resolve_initial_zip; [ done | ].
    apply Forall2_length in Hvs. by rewrite length_fmap in Hvs.
Qed.

Lemma dict_get_map (f : value -> value) d k :
  dict_get k (map (fun '(k, v) => (k, f v)) d) = f <$> dict_get k d.
Proof.
  induction d as [ | [k0 v0] d IH ]; simpl; [ done | ].
  by case_decide.
Qed.

(** What [sanitize_doc] returns for a document whose own keys need no
    rewriting: the same keys in the same order, each value sanitized. *)
Lemma sanitize_doc_clean d d' :
  Forall (fun k => key_clean k = true) d.*1 -> sanitize_doc d = Ok d' ->
  d'.*1 = d.*1
  /\ forall k v, dict_get k d = Some v ->
       exists v', dict_get k d' = Some v'
                  /\ fix_keys (none_slot replace_none v) = Ok v'.
Proof.
  unfold sanitize_doc. intros Hc (r & Hr & Hd')%bind_Ok.
  change (replace_none (VDict d)) with
    (VDict (map (fun '(k, v) => (k, none_slot replace_none v)) d)) in Hr.
  apply fix_keys_dict_clean in Hr as (vs & Hvs & ->);
    [ | by rewrite map_values_keys ].
  injection Hd' as <-. rewrite map_values_keys. split.
  - apply zip_keys. apply Forall2_length in Hvs.
    rewrite length_fmap, length_map in Hvs. done.
  - intros k v Hk.
    rewrite <- (map_values_keys (none_slot replace_none) d).
    apply (dict_get_zip (fun v v' => fix_keys v = Ok v') _ vs k
             (none_slot replace_none v) Hvs).
    by rewrite dict_get_map, Hk.
Qed.

Lemma sanitize_doc_total d :
  wf (VDict d) = true -> exists d', sanitize_doc d = Ok d'.
Proof.
  intros Hwf. unfold sanitize_doc.
  destruct (fix_keys_total (replace_none (VDict d))) as [r Hr].
  { by apply wf_replace_none. }
  rewrite Hr. simpl.
  change (replace_none (VDict d)) with
    (VDict (map (fun '(k, v) => (k, none_slot replace_none v)) d)) in Hr.
  apply fix_keys_dict_Ok in Hr as (tbl & vs & _ & _ & ->). by eexists.
Qed.
End SanitizeDoc.

(** ** EventRouter: a submission *)

Section Submission.
Context {lib : Library} (cfg : config).
Implicit Types (msg : message) (db : store) (d : dict) (k : key).

(** A submission whose records are built went through every step. *)
Lemma submit_records_Ok msg log_data' user_id user_data' :
  submit_records cfg msg = Ok (log_data', user_id, user_data') ->
  exists created_at source pdu dst src validity raw pages billing bill
         log_data,
    loads_pdu (body msg) = Some pdu
    /\ reassemble pdu = Ok (raw, pages)
    /\ load_billing (headers msg) = Ok billing
    /\ build_bill billing source (VStr (str_drop 10 (routing_key msg)))
         created_at (priority msg) dst src
         (schedule_delivery_time (params pdu)) (validity_period (params pdu))
         pages = Ok bill
    /\ submit_log_data cfg created_at (priority msg) source
         (str_drop 10 (routing_key msg)) dst src
         (schedule_delivery_time (params pdu)) (validity_period (params pdu))
         (data_coding (params pdu)) validity (status pdu) pages raw bill
       = Ok log_data
    /\ sanitize_doc log_data = Ok log_data'
    /\ sanitize_doc (submit_user_data billing) = Ok user_data'
    /\ user_id = user_uid billing.
Proof.
  unfold submit_records. intros H.
  apply bind_Ok in H as (created_at & _ & H).
  apply bind_Ok in H as (source & _ & H).
  apply bind_Ok in H as (pdu & Hpdu & H).
  apply bind_Ok in H as (dst & _ & H).
  apply bind_Ok in H as (src & _ & H).
  apply bind_Ok in H as (validity & _ & H).
  apply bind_Ok in H as ([raw pages] & Hre & H).
  apply bind_Ok in H as (billing & Hbilling & H).
  apply bind_Ok in H as (bill & Hbill & H).
  apply bind_Ok in H as (log_data & Hld & H).
  apply bind_Ok in H as (ld & Hld' & H).
  apply bind_Ok in H as (ud & Hud' & H).
  injection H as <- <- <-.
  exists created_at, source, pdu, dst, src, validity, raw, pages, billing,
    bill, log_data.
  repeat (split; [ done | ]). split; [ | done ].
  unfold pickle_loads_pdu in Hpdu.
  destruct (loads_pdu (body msg)); [ by injection Hpdu as -> | done ].
Qed.

(** A submission is stored exactly when its records are built. *)
Lemma on_submit_sm_Ok msg db db' :
  on_submit_sm cfg msg db = Ok db' <->
  exists log_data user_id user_data,
    submit_records cfg msg = Ok (log_data, user_id, user_data)
    /\ db' = update_one (MONGO_USER_COLLECTION cfg) user_id user_data
               (update_one (MONGO_LOG_COLLECTION cfg) (message_id msg)
                  log_data db).
Proof.
  unfold on_submit_sm. rewrite bind_Ok. split.
  - intros ([[ld uid] ud] & Hrec & [= <-]). by exists ld, uid, ud.
  - intros (ld & uid & ud & Hrec & ->). by exists (ld, uid, ud).
Qed.

(** The keys of [log_data], and three of its fields. *)
Lemma submit_log_data_Ok created_at prio source route dst src sdt vp dc
    validity st pages raw bill log_data :
  submit_log_data cfg created_at prio source route dst src sdt vp dc
    validity st pages raw bill = Ok log_data ->
  Forall (fun k => key_clean k = true) log_data.*1
  /\ NoDup log_data.*1
  /\ dict_get (KStr "data_coding") log_data = Some (data_coding_value dc)
  /\ dict_get (KStr "short_message_decoded") log_data
     = Some (if LOGGER_PRIVACY cfg
             then private_chars
                    (match short_message_decoded dc raw with
                     | VStr s => String.length s
                     | _ => length raw
                     end)
             else short_message_decoded dc raw)
  /\ dict_get (KStr "bill") log_data = Some (VDict bill).
Proof.
  unfold submit_log_data. intros (n & Hn & [= <-])%bind_Ok.
  split; [ by apply forallb_Forall | ].
  split; [ simpl; by apply NoDup_keys | ].
  split; [ done | split; [ | done ] ].
  simpl. do 2 f_equal. destruct (LOGGER_PRIVACY cfg); [ | done ].
  f_equal. unfold short_message_decoded in *.
  destruct dc as [ dc | ]; [ | by injection Hn ].
  repeat case_bool_decide; by injection Hn.
Qed.

(** A field of the sanitized [log_data] as the store holds it after the
    two writes of a submission. *)
Lemma stored_log_field db mid uid log_data' user_data' k v' :
  NoDup log_data'.*1 -> dict_get k log_data' = Some v' ->
  dict_get k user_data' = None ->
  exists doc,
    get_one_submodule (MONGO_LOG_COLLECTION cfg) mid
      (update_one (MONGO_USER_COLLECTION cfg) uid user_data'
         (update_one (MONGO_LOG_COLLECTION cfg) mid log_data' db))
    = Some doc
    /\ dict_get k doc
       = Some (match dict_get k (default [] (db !! (MONGO_LOG_COLLECTION cfg, mid))) with
               | Some ov => merge ov v'
               | None => v'
               end).
Proof.
  intros Hnd Hk Hud. unfold get_one_submodule, update_one.
  destruct (decide ((MONGO_USER_COLLECTION cfg, uid)
                    = (MONGO_LOG_COLLECTION cfg, mid))) as [ E | E ].
  - rewrite E, !lookup_insert_eq. simpl. eexists. split; [ done | ].
    rewrite merge_doc_get_other by done. by apply merge_doc_get.
  - rewrite lookup_insert_ne by done. rewrite lookup_insert_eq.
    eexists. split; [ done | ]. by apply merge_doc_get.
Qed.

Lemma sanitize_scalar v v' :
  is_container v = false ->
  fix_keys (none_slot replace_none v) = Ok v' ->
  v' = match v with VNone => VStr "None" | _ => v end.
Proof. destruct v; try done; by intros _ [= <-]. Qed.

Lemma sanitize_dict d v' :
  fix_keys (none_slot replace_none (VDict d)) = Ok v' ->
  exists d', v' = VDict d' /\ sanitize_doc d = Ok d'.
Proof.
  intros Hv. unfold sanitize_doc.
  change (none_slot replace_none (VDict d)) with (replace_none (VDict d)) in Hv.
  rewrite Hv. simpl.
  change (replace_none (VDict d)) with
    (VDict (map (fun '(k, v) => (k, none_slot replace_none v)) d)) in Hv.
  apply fix_keys_dict_Ok in Hv as (tbl & vs & _ & _ & ->). by eexists.
Qed.

Lemma merge_into_dict ov n :
  exists b, merge ov (VDict n) = VDict b
            /\ forall k x, NoDup n.*1 -> dict_get k n = Some (VNum x) ->
                 dict_get k b = Some (VNum x).
Proof.
  destruct ov as [ | | | | | | o ]; try by (exists n).
  exists (merge_doc o n). split; [ apply merge_dict | ].
  intros k x Hnd Hk. rewrite (merge_doc_get n o k (VNum x)) by done.
  by rewrite merged_scalar.
Qed.

Lemma user_data_keys billing user_data' k :
  sanitize_doc (submit_user_data billing) = Ok user_data' ->
  k ∉ (submit_user_data billing).*1 -> dict_get k user_data' = None.
Proof.
  intros [Hkeys _]%sanitize_doc_clean Hk; [ | by apply forallb_Forall ].
  apply dict_get_None. by rewrite Hkeys.
Qed.

(** C2, as the code has it.  For a submission whose data coding is absent
    no decoding takes place: in the record handed to the store, and in the
    document the store then holds, the [short_message_decoded] field is the
    raw bytes of the reassembled message (with privacy on, their count),
    and the [data_coding] field is the string [None] that null
    normalization puts in place of the null. *)
Theorem absent_data_coding_record msg log_data user_id user_data pdu raw pages :
  submit_records cfg msg = Ok (log_data, user_id, user_data) ->
  loads_pdu (body msg) = Some pdu ->
  data_coding (params pdu) = None ->
  reassemble pdu = Ok (raw, pages) ->
  let decoded :=
    if LOGGER_PRIVACY cfg then private_chars (length raw) else VBytes raw in
  dict_get (KStr "data_coding") log_data = Some (VStr "None")
  /\ dict_get (KStr "short_message_decoded") log_data = Some decoded
  /\ forall db,
       stored_field (on_submit_sm cfg msg db) (MONGO_LOG_COLLECTION cfg)
         (message_id msg) "data_coding" = Some (VStr "None")
       /\ stored_field (on_submit_sm cfg msg db) (MONGO_LOG_COLLECTION cfg)
            (message_id msg) "short_message_decoded" = Some decoded.
Proof.
  intros Hrec Hpdu Hdc Hre decoded.
  pose proof Hrec as Hrun.
  apply submit_records_Ok in Hrec
    as (created_at & source & pdu' & dst & src & validity & raw' & pages'
        & billing & bill & ld & Hpdu' & Hre' & _ & _ & Hld & Hld' & Hud' & ->).
  rewrite Hpdu in Hpdu'. injection Hpdu' as <-.
  rewrite Hre in Hre'. injection Hre' as <- <-.
  rewrite Hdc in Hld.
  apply submit_log_data_Ok in Hld as (Hclean & Hnd & Hk1 & Hk2 & _).
  apply sanitize_doc_clean in Hld' as [Hkeys Hget]; [ | done ].
  rewrite <- Hkeys in Hnd.
  destruct (Hget _ _ Hk1) as (v1 & Hv1 & Hs1).
  destruct (Hget _ _ Hk2) as (v2 & Hv2 & Hs2).
  apply sanitize_scalar in Hs1; [ | done ].
  apply sanitize_scalar in Hs2; [ | by destruct (LOGGER_PRIVACY cfg) ].
  simpl in Hs1. subst v1.
  assert (v2 = decoded) as ->.
  { subst v2 decoded. by destruct (LOGGER_PRIVACY cfg). }
  split; [ done | split; [ done | ] ]. intros db.
  assert (on_submit_sm cfg msg db
          = Ok (update_one (MONGO_USER_COLLECTION cfg) (user_uid billing)
                  user_data
                  (update_one (MONGO_LOG_COLLECTION cfg) (message_id msg)
                     log_data db))) as ->.
  { apply on_submit_sm_Ok. by exists log_data, (user_uid billing), user_data. }
  unfold stored_field. split.
  - destruct (stored_log_field db (message_id msg) (user_uid billing)
                log_data user_data _ _ Hnd Hv1) as (doc & -> & Hdoc).
    { by apply (user_data_keys billing); [ | compute_done ]. }
    simpl. rewrite Hdoc. by rewrite merged_scalar.
  - destruct (stored_log_field db (message_id msg) (user_uid billing)
                log_data user_data _ _ Hnd Hv2) as (doc & -> & Hdoc).
    { by apply (user_data_keys billing); [ | compute_done ]. }
    simpl. rewrite Hdoc. rewrite merged_scalar; [ done | ].
    subst decoded. by destruct (LOGGER_PRIVACY cfg).
Qed.

Lemma build_bill_Ok billing source route created_at prio dst src sdt vp
    pages bill :
  build_bill billing source route created_at prio dst src sdt vp pages
  = Ok bill ->
  Forall (fun k => key_clean k = true) bill.*1
  /\ NoDup bill.*1
  /\ exists count,
       dict_get (KStr "page_count") bill = Some (VNum (NInt (Z.of_nat pages)))
       /\ dict_get (KStr "amount_rate") bill
          = Some (VNum (getTotalAmounts billing))
       /\ dict_get (KStr "amount_charge") bill
          = Some (VNum (number_mul (getTotalAmounts billing) pages))
       /\ dict_get (KStr "sms_count_rate") bill = Some (VNum count)
       /\ dict_get (KStr "sms_count_charge") bill
          = Some (VNum (number_mul count pages)).
Proof.
  unfold build_bill. intros (charge & Hcharge & [= <-])%bind_Ok.
  split; [ by apply forallb_Forall | ].
  split; [ simpl; by apply NoDup_keys | ].
  destruct (decrement_submit_sm_count billing) as [ count | ]; [ | done ].
  injection Hcharge as <-. by exists count.
Qed.

(** Python's [x * n] of a rate by the page count is the product: of
    integers for an integer rate, of floats for a float rate. *)
Lemma number_mul_arith (x : number) (n : nat) :
  number_mul x n
  = match x with
    | NInt z => NInt (z * Z.of_nat n)
    | NFloat f =>
        NFloat
          (PrimFloat.mul f (PrimFloat.of_uint63 (Uint63.of_Z (Z.of_nat n))))
    end.
Proof. by destruct x. Qed.

(** C6.  For every submission, the bill of the record handed to the store,
    and the bill of the document the store then holds, carry the page count
    that the reassembly of that event produced, and each of their two
    charges is the product of its rate and that page count ([charged]
    writes the product out), whatever the page count. *)
Theorem bill_charges msg log_data user_id user_data :
  submit_records cfg msg = Ok (log_data, user_id, user_data) ->
  exists pdu raw pages bill rate count,
    loads_pdu (body msg) = Some pdu
    /\ reassemble pdu = Ok (raw, pages)
    /\ dict_get (KStr "bill") log_data = Some (VDict bill)
    /\ charged bill rate count pages
    /\ forall db, exists stored,
         stored_field (on_submit_sm cfg msg db) (MONGO_LOG_COLLECTION cfg)
           (message_id msg) "bill" = Some (VDict stored)
         /\ charged stored rate count pages.
Proof.
  intros Hrec. pose proof Hrec as Hrun.
  apply submit_records_Ok in Hrec
    as (created_at & source & pdu & dst & src & validity & raw & pages
        & billing & bill & ld & Hpdu & Hre & _ & Hbill & Hld & Hld' & Hud' & ->).
  apply build_bill_Ok in Hbill
    as (Hbclean & Hbnd & count & Hb1 & Hb2 & Hb3 & Hb4 & Hb5).
  rewrite number_mul_arith in Hb3. rewrite number_mul_arith in Hb5.
  apply submit_log_data_Ok in Hld as (Hclean & Hnd & _ & _ & Hk).
  apply sanitize_doc_clean in Hld' as [Hkeys Hget]; [ | done ].
  rewrite <- Hkeys in Hnd.
  destruct (Hget _ _ Hk) as (v & Hv & Hs).
  apply sanitize_dict in Hs as (bill' & -> & Hbill').
  apply sanitize_doc_clean in Hbill' as [Hbkeys Hbget]; [ | done ].
  rewrite <- Hbkeys in Hbnd.
  assert (Hnum : forall k x, dict_get k bill = Some (VNum x) ->
                   dict_get k bill' = Some (VNum x)).
  { intros k x Hx. destruct (Hbget _ _ Hx) as (x' & Hx' & Hsx).
    apply sanitize_scalar in Hsx; [ | done ]. by subst x'. }
  exists pdu, raw, pages, bill', (getTotalAmounts billing), count.
  split; [ done | split; [ done | split; [ done | split ] ] ].
  { unfold charged. auto 10. }
  intros db.
  assert (on_submit_sm cfg msg db
          = Ok (update_one (MONGO_USER_COLLECTION cfg) (user_uid billing)
                  user_data
                  (update_one (MONGO_LOG_COLLECTION cfg) (message_id msg)
                     log_data db))) as ->.
  { apply on_submit_sm_Ok. by exists log_data, (user_uid billing), user_data. }
  destruct (stored_log_field db (message_id msg) (user_uid billing)
              log_data user_data _ _ Hnd Hv) as (doc & Hdoc & Hfield).
  { by apply (user_data_keys billing); [ | compute_done ]. }
  assert (exists b, dict_get (KStr "bill") doc = Some (VDict b)
                    /\ forall k x, dict_get k bill = Some (VNum x) ->
                         dict_get k b = Some (VNum x)) as (b & Hb & Hbnum).
  { rewrite Hfield.
    destruct (dict_get (KStr "bill") (default [] _)) as [ ov | ];
      [ | by exists bill' ].
    destruct (merge_into_dict ov bill') as (b & -> & Hbnum).
    exists b. split; [ done | ]. intros k x Hx. by apply Hbnum, Hnum. }
  exists b. split.
  - unfold stored_field. rewrite Hdoc. simpl. by rewrite Hb.
  - unfold charged. auto 10.
Qed.

(** A single-fragment message has page count 1, a two-fragment one 2. *)
Example page_counts :
  reassemble (fragment [x48; x69] None None) = Ok ([x48; x69], 1%nat)
  /\ reassemble two_part_pdu = Ok ([x41; x42; x43; x44], 2%nat).
Proof. split; reflexivity. Qed.
End Submission.

Lemma absent_data_coding_record_witness :
  let log_data :=
    (records_of (submit_records (lib := stub_library) a_config
                  (submit_message 1 "m1" [x02]))).1.1 in
  let decoded := VBytes [x41; x42; x43; x44] in
  dict_get (KStr "data_coding") log_data = Some (VStr "None")
  /\ dict_get (KStr "short_message_decoded") log_data = Some decoded
  /\ forall db,
       stored_field (on_submit_sm (lib := stub_library) a_config
                       (submit_message 1 "m1" [x02]) db)
         "logs" "m1" "data_coding" = Some (VStr "None")
       /\ stored_field (on_submit_sm (lib := stub_library) a_config
                          (submit_message 1 "m1" [x02]) db)
            "logs" "m1" "short_message_decoded" = Some decoded.
Proof.
  apply (absent_data_coding_record (lib := stub_library) a_config
           (submit_message 1 "m1" [x02]) _ "u1"
           (records_of (submit_records (lib := stub_library) a_config
                         (submit_message 1 "m1" [x02]))).2
           two_part_pdu [x41; x42; x43; x44] 2); reflexivity.
Defined.

(** C2 as the specification states it fails: for a submission without data
    coding, the stored [data_coding] is the string [None], not null, and
    the stored [short_message_decoded] is a byte string, not text of any
    decoding. *)
Lemma absent_data_coding_not_decoded :
  data_coding (params two_part_pdu) = None
  /\ stored_field
       (on_submit_sm (lib := stub_library) a_config
          (submit_message 1 "m1" [x02]) ∅)
       "logs" "m1" "data_coding" = Some (VStr "None")
  /\ VStr "None" <> VNone
  /\ stored_field
       (on_submit_sm (lib := stub_library) a_config
          (submit_message 1 "m1" [x02]) ∅)
       "logs" "m1" "short_message_decoded"
     = Some (VBytes [x41; x42; x43; x44])
  /\ VBytes [x41; x42; x43; x44]
     <> VStr (decode_replace (Library := stub_library) Utf8
                [x41; x42; x43; x44]).
Proof. repeat split; (reflexivity || discriminate). Qed.

Lemma bill_charges_witness :
  exists pdu raw pages bill rate count,
    loads_pdu (Library := stub_library) (body (submit_message 1 "m1" [x02]))
    = Some pdu
    /\ reassemble pdu = Ok (raw, pages)
    /\ dict_get (KStr "bill") plain_records.1.1 = Some (VDict bill)
    /\ charged bill rate count pages
    /\ forall db, exists stored,
         stored_field (on_submit_sm (lib := stub_library) a_config
                         (submit_message 1 "m1" [x02]) db)
           (MONGO_LOG_COLLECTION a_config)
           (message_id (submit_message 1 "m1" [x02])) "bill"
         = Some (VDict stored)
         /\ charged stored rate count pages.
Proof.
  apply (bill_charges (lib := stub_library) a_config
           (submit_message 1 "m1" [x02]) plain_records.1.1 "u1"
           plain_records.2).
  vm_compute. reflexivity.
Defined.

(** ** EventRouter: delivery receipts *)

Section DeliveryReceipts.
Context {lib : Library} (cfg : config).
Implicit Types (msg : message) (db : store) (d h : dict) (k : key) (v : value).

Lemma dict_set_keys_eq {V} k (x : V) (t : list (key * V)) :
  (dict_set k x t).*1 = if decide (k ∈ t.*1) then t.*1 else t.*1 ++ [k].
Proof.
  induction t as [ | [k0 x0] t IH ].
  - cbn [dict_set fmap list_fmap fst app].
    destruct (decide (k ∈ [])) as [ Hin | _ ]; [ by apply elem_of_nil in Hin | done ].
  - cbn [dict_set]. rewrite fmap_cons. cbn [fst].
    destruct (decide (k0 = k)) as [ -> | E ].
    + rewrite fmap_cons. cbn [fst].
      destruct (decide (k ∈ k :: t.*1)) as [ _ | Hnin ]; [ done | ].
      destruct Hnin. apply elem_of_cons. by left.
    + rewrite fmap_cons, IH. cbn [fst].
      destruct (decide (k ∈ t.*1)) as [ Hin | Hnin ];
        destruct (decide (k ∈ k0 :: t.*1)) as [ Hin' | Hnin' ]; try done.
      * destruct Hnin'. apply elem_of_cons. by right.
      * apply elem_of_cons in Hin' as [ -> | ? ]; done.
Qed.

Lemma wf_dict_set k v d :
  wf (VDict d) = true -> wf v = true -> wf (VDict (dict_set k v d)) = true.
Proof.
  simpl. intros [Hnd Hall]%andb_true_iff Hv. apply andb_true_iff. split.
  - apply bool_decide_eq_true. apply bool_decide_eq_true in Hnd.
    rewrite dict_set_keys_eq. case_decide as E; [ done | ].
    apply NoDup_app. split; [ done | split ].
    + intros k' Hk' ->%list_elem_of_singleton. done.
    + apply NoDup_singleton.
  - apply forallb_Forall, Forall_forall. intros [k' v'] Hin.
    apply forallb_Forall in Hall. rewrite Forall_forall in Hall.
    apply elem_of_dict_set in Hin as [ [-> ->] | Hin ]; [ done | ].
    by apply (Hall (k', v')).
Qed.

Lemma dlr_entry_wf now h e :
  wf (VDict h) = true -> dlr_entry cfg now h = Ok e -> wf (VDict e) = true.
Proof.
  intros Hwf. unfold dlr_entry.
  assert (Hwf' : wf (VDict (dict_set (KStr "created_at") (VStr now) h)) = true)
    by by apply wf_dict_set.
  destruct (LOGGER_PRIVACY cfg); [ | by intros [= <-] ].
  destruct (default VNone _) as [ | | | [ | ] | | | ];
    try (by intros [= <-]);
    intros (n & _ & [= <-])%bind_Ok; by apply wf_dict_set.
Qed.

(** What the two passes leave of a well-formed document. *)
Lemma sanitize_Ok v :
  wf v = true ->
  exists v', sanitize v = Ok v' /\ keys_clean v' = true /\ no_none v' = true
             /\ is_container v' = is_container v.
Proof.
  intros Hwf. unfold sanitize.
  destruct (fix_keys_total (replace_none v)) as [v' Hv'].
  { by apply wf_replace_none. }
  assert (Hr : rewritten (replace_none v) v').
  { apply fix_keys_rewritten; [ by apply wf_replace_none | done ]. }
  exists v'. split; [ done | split; [ | split ] ].
  - by eapply rewritten_clean.
  - eapply rewritten_no_none; [ exact Hr | apply replace_none_no_none ].
  - rewrite (rewritten_container _ _ Hr). by destruct v.
Qed.

(** Sanitizing the receipt list leaves the stored receipts as they are
    and sanitizes the new one. *)
Lemma sanitize_receipts l e w :
  Forall (fun x => stored_entry x = true) l ->
  sanitize (VDict e) = Ok w ->
  sanitize_doc [ (KStr "dlr", VList (l ++ [VDict e])) ]
  = Ok [ (KStr "dlr", VList (l ++ [w])) ].
Proof.
  intros Hl He. unfold sanitize_doc.
  assert (Hrn : replace_none (VDict [ (KStr "dlr", VList (l ++ [VDict e])) ])
                = VDict [ (KStr "dlr", VList (l ++ [replace_none (VDict e)])) ]).
  { cbn [replace_none map none_slot is_container]. do 4 f_equal.
    rewrite map_app. f_equal.
    induction Hl as [ | x l [Hx1 Hx2]%andb_true_iff _ IH ]; [ done | ].
    cbn [map]. f_equal; [ | done ].
    apply filled_none_slot; [ done | apply no_none_replace_none ]. }
  rewrite Hrn.
  assert (Hfix : fix_keys (VDict [ (KStr "dlr", VList (l ++ [replace_none (VDict e)])) ])
                 = Ok (VDict [ (KStr "dlr", VList (l ++ [w])) ])).
  { apply fix_keys_dict_Ok.
    exists (initial_table [ (KStr "dlr", VList (l ++ [replace_none (VDict e)])) ]),
      [ VList (l ++ [w]) ].
    split; [ done | split; [ | done ] ].
    apply mapM_Ok. constructor; [ | constructor ].
    cbn [fmap list_fmap snd]. rewrite fix_slot_fix_keys, fix_keys_list.
    assert (mapM fix_slot (l ++ [replace_none (VDict e)]) = Ok (l ++ [w]))
      as ->; [ | done ].
    apply mapM_Ok, Forall2_app.
    - clear Hrn. induction Hl as [ | x l [Hx1 Hx2]%andb_true_iff _ IH ];
        constructor; [ | done ].
      rewrite fix_slot_fix_keys. by apply clean_fix_keys.
    - constructor; [ | constructor ]. by rewrite fix_slot_fix_keys. }
  by rewrite Hfix.
Qed.

(** One delivery receipt: the sanitized entry goes at the end of the
    stored list, after the receipts already there, which are kept. *)
Lemma on_dlr_thrower_appends now msg db h e l :
  headers msg = Some h -> wf (VDict h) = true ->
  dlr_entry cfg now h = Ok e ->
  dict_get (KStr "dlr")
    (default [] (get_one_submodule (MONGO_LOG_COLLECTION cfg) (message_id msg) db))
  = (if l is [] then None else Some (VList l)) ->
  Forall (fun x => stored_entry x = true) l ->
  exists w, sanitize (VDict e) = Ok w /\ stored_entry w = true
    /\ on_dlr_thrower cfg now msg db
       = Ok (update_one (MONGO_LOG_COLLECTION cfg) (message_id msg)
               [ (KStr "dlr", VList (l ++ [w])) ] db).
Proof.
  intros Hh Hwf He Hget Hl.
  destruct (sanitize_Ok (VDict e)) as (w & Hw & Hc & Hn & Hcont).
  { by eapply dlr_entry_wf. }
  exists w. split; [ done | split ].
  { unfold stored_entry. rewrite Hc. by destruct w. }
  unfold on_dlr_thrower. rewrite Hh. simpl. rewrite He. simpl.
  unfold dict_pop_default.
  replace (match get_one_submodule (MONGO_LOG_COLLECTION cfg) (message_id msg) db with
           | Some doc => doc
           | None => []
           end)
    with (default [] (get_one_submodule (MONGO_LOG_COLLECTION cfg)
                        (message_id msg) db)) by done.
  rewrite Hget. pose proof (sanitize_receipts l e w Hl Hw) as Hs.
  destruct l as [ | x l ]; cbn -[sanitize_doc] in Hs |- *; by rewrite Hs.
Qed.

Lemma stored_dlr db mid l :
  stored_field (Ok (update_one (MONGO_LOG_COLLECTION cfg) mid
                      [ (KStr "dlr", VList l) ] db))
    (MONGO_LOG_COLLECTION cfg) mid "dlr" = Some (VList l).
Proof.
  unfold stored_field, get_one_submodule, update_one.
  rewrite lookup_insert_eq. simpl.
  rewrite (merge_doc_get _ _ _ (VList l)); [ | by apply NoDup_keys | done ].
  by rewrite merged_scalar.
Qed.
End DeliveryReceipts.

Section DeliveryReceiptOrder.
Context {lib : Library} (cfg : config).
Implicit Types (msg : message) (db : store) (h e : dict).

Lemma process_dlr_thrower now msg db :
  str_take 12 (routing_key msg) = "dlr_thrower." ->
  process_message cfg now msg db = on_dlr_thrower cfg now msg db.
Proof.
  intros Hkey. unfold process_message. rewrite Hkey.
  destruct (routing_key msg) as [ | c key' ]; [ done | ].
  injection Hkey as -> _.
  rewrite (bool_decide_eq_false_2 (str_take 10 _ = _)) by (simpl; congruence).
  rewrite (bool_decide_eq_false_2 (str_take 15 _ = _)) by (simpl; congruence).
  done.
Qed.

(** C7.  Two delivery receipts of one message, the first arriving when
    the stored document (if any) has no receipt list: after both, the
    stored [dlr] list holds the two sanitized entries in arrival order,
    the first as it was stored; and when no document existed, the first
    receipt creates one that holds the list alone. *)
Theorem two_receipts_in_order now1 now2 msg1 msg2 db h1 h2 e1 e2 :
  str_take 12 (routing_key msg1) = "dlr_thrower." ->
  str_take 12 (routing_key msg2) = "dlr_thrower." ->
  message_id msg2 = message_id msg1 ->
  headers msg1 = Some h1 -> headers msg2 = Some h2 ->
  wf (VDict h1) = true -> wf (VDict h2) = true ->
  dlr_entry cfg now1 h1 = Ok e1 -> dlr_entry cfg now2 h2 = Ok e2 ->
  dict_get (KStr "dlr")
    (default [] (get_one_submodule (MONGO_LOG_COLLECTION cfg)
                   (message_id msg1) db)) = None ->
  exists r1 r2 db1 db2,
    sanitize (VDict e1) = Ok r1 /\ sanitize (VDict e2) = Ok r2
    /\ process_message cfg now1 msg1 db = Ok db1
    /\ stored_field (Ok db1) (MONGO_LOG_COLLECTION cfg) (message_id msg1)
         "dlr" = Some (VList [r1])
    /\ process_message cfg now2 msg2 db1 = Ok db2
    /\ stored_field (Ok db2) (MONGO_LOG_COLLECTION cfg) (message_id msg1)
         "dlr" = Some (VList [r1; r2])
    /\ (get_one_submodule (MONGO_LOG_COLLECTION cfg) (message_id msg1) db
        = None ->
        get_one_submodule (MONGO_LOG_COLLECTION cfg) (message_id msg1) db1
        = Some [ (KStr "dlr", VList [r1]) ]).
Proof.
  intros Hkey1 Hkey2 Hid Hh1 Hh2 Hwf1 Hwf2 He1 He2 Hnone.
  destruct (on_dlr_thrower_appends cfg now1 msg1 db h1 e1 [])
    as (r1 & Hr1 & Hs1 & Hrun1); try done.
  set (db1 := update_one (MONGO_LOG_COLLECTION cfg) (message_id msg1)
                [ (KStr "dlr", VList ([] ++ [r1])) ] db) in *.
  assert (Hst1 : stored_field (Ok db1) (MONGO_LOG_COLLECTION cfg)
                   (message_id msg1) "dlr" = Some (VList [r1]))
    by apply stored_dlr.
  destruct (on_dlr_thrower_appends cfg now2 msg2 db1 h2 e2 [r1])
    as (r2 & Hr2 & Hs2 & Hrun2); try done.
  { rewrite Hid. unfold stored_field in Hst1. simpl in Hst1.
    by destruct (get_one_submodule _ _ db1). }
  { by constructor. }
  exists r1, r2, db1,
    (update_one (MONGO_LOG_COLLECTION cfg) (message_id msg2)
       [ (KStr "dlr", VList ([r1] ++ [r2])) ] db1).
  rewrite !process_dlr_thrower by done.
  split; [ done | split; [ done | split; [ done | split; [ done | ] ] ] ].
  split; [ exact Hrun2 | split ].
  - rewrite Hid. apply stored_dlr.
  - intros Hdb. unfold db1, get_one_submodule, update_one in *.
    by rewrite lookup_insert_eq, Hdb.
Qed.
End DeliveryReceiptOrder.

Lemma two_receipts_in_order_witness :
  exists r1 r2 db1 db2,
    sanitize (VDict [ (KStr "message_status", VStr "DELIVRD");
                      (KStr "level", VNum (NInt 3));
                      (KStr "dlr-url", VNone);
                      (KStr "created_at", VStr "10:00:01") ]) = Ok r1
    /\ sanitize (VDict [ (KStr "message_status", VStr "ESME_ROK");
                         (KStr "level", VNum (NInt 3));
                         (KStr "dlr-url", VNone);
                         (KStr "created_at", VStr "10:00:02") ]) = Ok r2
    /\ process_message (lib := stub_library) a_config "10:00:01"
         (dlr_message 1 "m1" "DELIVRD") ∅ = Ok db1
    /\ stored_field (Ok db1) "logs" "m1" "dlr" = Some (VList [r1])
    /\ process_message (lib := stub_library) a_config "10:00:02"
         (dlr_message 2 "m1" "ESME_ROK") db1 = Ok db2
    /\ stored_field (Ok db2) "logs" "m1" "dlr" = Some (VList [r1; r2])
    /\ (get_one_submodule "logs" "m1" (∅ : store) = None ->
        get_one_submodule "logs" "m1" db1 = Some [ (KStr "dlr", VList [r1]) ]).
Proof.
  apply (two_receipts_in_order (lib := stub_library) a_config
           "10:00:01" "10:00:02"
           (dlr_message 1 "m1" "DELIVRD") (dlr_message 2 "m1" "ESME_ROK") ∅
           [ (KStr "message_status", VStr "DELIVRD");
             (KStr "level", VNum (NInt 3)); (KStr "dlr-url", VNone) ]
           [ (KStr "message_status", VStr "ESME_ROK");
             (KStr "level", VNum (NInt 3)); (KStr "dlr-url", VNone) ]);
    reflexivity.
Defined.

(** ** BrokerSupervisor: a failing event *)

Section FailingEvent.
Context {lib : Library} (cfg : config).
Implicit Types (msg : message) (db : store) (queue : list delivery).

Lemma consume_app before : forall queue db acked db1 acked1,
  consume cfg before db acked = (db1, acked1, Waiting) ->
  consume cfg (before ++ queue) db acked = consume cfg queue db1 acked1.
Proof.
  induction before as [ | [ msg now | e ] before IH ];
    intros queue db acked db1 acked1 Hrun.
  - by injection Hrun as <- <-.
  - simpl in *. destruct (process_message cfg now msg db); [ | done ].
    by apply IH.
  - done.
Qed.

Lemma consume_waiting_tags before : forall db acked db1 acked1,
  consume cfg before db acked = (db1, acked1, Waiting) ->
  acked1 = acked ++ delivered_tags before.
Proof.
  induction before as [ | [ msg now | e ] before IH ];
    intros db acked db1 acked1 Hrun.
  - injection Hrun as _ <-. by rewrite app_nil_r.
  - simpl in *. destruct (process_message cfg now msg db); [ | done ].
    rewrite (IH _ _ _ _ Hrun). by rewrite <- app_assoc.
  - done.
Qed.

(** A submission whose body does not unpickle raises in the record
    builder. *)
Lemma undecodable_submission_raises now msg db h :
  str_take 10 (routing_key msg) = "submit.sm." ->
  str_take 15 (routing_key msg) <> "submit.sm.resp." ->
  headers msg = Some h -> loads_pdu (body msg) = None ->
  process_message cfg now msg db = Raise UnpicklingError.
Proof.
  intros Hkey Hresp Hh Hbody. unfold process_message.
  rewrite bool_decide_eq_true_2, bool_decide_eq_false_2 by done.
  cbn [andb negb]. unfold on_submit_sm, submit_records, pickle_loads_pdu.
  by rewrite Hh, Hbody.
Qed.

(** C1, as the code has it.  The only handler is the one around the whole
    loop.  When the processing of an event raises, the loop ends there:
    the store and the acknowledgements are those of the events before it,
    so the failing event is not acknowledged and no later event is
    processed; and [gotConnection] goes on to the reconnect decision,
    which stops the reactor or schedules a reconnect from the retry
    budget. *)
Theorem failing_event_ends_loop before now msg after db rs db1 acked1 e :
  consume cfg before db [] = (db1, acked1, Waiting) ->
  process_message cfg now msg db1 = Raise e ->
  acked1 = delivered_tags before
  /\ gotConnection cfg (before ++ Delivered msg now :: after) db rs
     = (db1, acked1,
        (if should_stop (handle e rs) then handle e rs
         else decrement_retry (handle e rs)),
        Some (if should_stop (handle e rs) then StopReactor
              else callLater_rabbitMQConnect)).
Proof.
  intros Hbefore Hraise. split.
  - by rewrite (consume_waiting_tags _ _ _ _ _ Hbefore).
  - unfold gotConnection.
    rewrite (consume_app before _ _ _ _ _ Hbefore).
    cbn [consume]. rewrite Hraise.
    by destruct (should_stop (handle e rs)).
Qed.
End FailingEvent.

Lemma failing_event_ends_loop_witness :
  [1%Z] = delivered_tags [ Delivered (submit_message 1 "m1" [x02]) "10:00:00" ]
  /\ gotConnection (lib := stub_library) a_config
       ([ Delivered (submit_message 1 "m1" [x02]) "10:00:00" ]
        ++ Delivered (submit_message 2 "m2" [xff]) "10:00:01"
           :: [ Delivered (submit_message 3 "m3" [x01]) "10:00:02" ])
       ∅ (init_retry true 2)
     = (store_of (on_submit_sm (lib := stub_library) a_config
                    (submit_message 1 "m1" [x02]) ∅),
        [1%Z],
        (if should_stop (handle UnpicklingError (init_retry true 2))
         then handle UnpicklingError (init_retry true 2)
         else decrement_retry (handle UnpicklingError (init_retry true 2))),
        Some (if should_stop (handle UnpicklingError (init_retry true 2))
              then StopReactor else callLater_rabbitMQConnect)).
Proof.
  apply (failing_event_ends_loop (lib := stub_library) a_config
           [ Delivered (submit_message 1 "m1" [x02]) "10:00:00" ]
           "10:00:01" (submit_message 2 "m2" [xff])
           [ Delivered (submit_message 3 "m3" [x01]) "10:00:02" ]
           ∅ (init_retry true 2)); reflexivity.
Defined.

(** C1 as the specification states it fails: a submission whose body does
    not unpickle is not acknowledged, the event after it, which would have
    been stored, is not processed, and the failure reaches the reconnect
    decision: with retries off it stops the reactor, with a budget of 2 it
    takes one retry and schedules a reconnect. *)
Lemma failing_event_reaches_supervisor :
  process_message (lib := stub_library) a_config "10:00:00"
    (submit_message 1 "m1" [xff]) ∅ = Raise UnpicklingError
  /\ (exists db, process_message (lib := stub_library) a_config "10:00:01"
                   (submit_message 2 "m2" [x02]) ∅ = Ok db)
  /\ gotConnection (lib := stub_library) a_config
       [ Delivered (submit_message 1 "m1" [xff]) "10:00:00";
         Delivered (submit_message 2 "m2" [x02]) "10:00:01" ]
       ∅ (init_retry false 0)
     = (∅, [], init_retry false 0, Some StopReactor)
  /\ gotConnection (lib := stub_library) a_config
       [ Delivered (submit_message 1 "m1" [xff]) "10:00:00";
         Delivered (submit_message 2 "m2" [x02]) "10:00:01" ]
       ∅ (init_retry true 2)
     = (∅, [], init_retry true 1, Some callLater_rabbitMQConnect).
Proof.
  split; [ reflexivity | ]. split; [ eexists; reflexivity | ].
  split; reflexivity.
Qed.

(** ** DocumentSanitizer: the two passes together *)

Section PassesCommute.
Implicit Types (v : value) (d : dict) (tbl : table).

Lemma is_container_none_slot v :
  is_container (none_slot replace_none v) = is_container v.
Proof. by destruct v. Qed.

Lemma fix_keys_container v v' :
  fix_keys v = Ok v' -> is_container v' = is_container v.
Proof.
  destruct v as [ | b | x | s | b | l | d ]; try by intros [= <-].
  - rewrite fix_keys_list. by intros (l' & _ & [= <-])%bind_Ok.
  - by intros (tbl & vs & _ & _ & ->)%fix_keys_dict_Ok.
Qed.

Lemma fix_slot_none_slot v :
  fix_keys (replace_none v) = (v' ← fix_keys v; Ok (replace_none v')) ->
  fix_slot (none_slot replace_none v)
  = (v' ← fix_slot v; Ok (none_slot replace_none v')).
Proof.
  intros IH. destruct (is_container v) eqn:Hc.
  - rewrite none_slot_container by done.
    rewrite !fix_slot_fix_keys, IH.
    destruct (fix_keys v) as [ v' | e ] eqn:Hv; [ | done ].
    simpl. rewrite none_slot_container; [ done | ].
    by rewrite (fix_keys_container _ _ Hv).
  - by destruct v.
Qed.

Lemma mapM_map {A B} (f : A -> result B) (g : A -> A) (h : B -> B) l :
  Forall (fun x => f (g x) = (y ← f x; Ok (h y))) l ->
  mapM f (map g l) = (l' ← mapM f l; Ok (map h l')).
Proof.
  induction 1 as [ | x l Hx _ IH ]; [ done | ].
  cbn [map]. rewrite !mapM_cons, Hx, IH.
  destruct (f x) as [ y | e ]; [ | done ]. simpl.
  by destruct (mapM f l).
Qed.

Lemma resolve_fmap (f : value -> value) tbl objs :
  resolve tbl (f <$> objs) = map (fun '(k, v) => (k, f v)) (resolve tbl objs).
Proof.
  unfold resolve. induction tbl as [ | [k r] tbl IH ]; [ done | ].
  cbn [omap list_omap]. rewrite list_lookup_fmap, IH.
  by destruct (objs !! r).
Qed.

Lemma initial_table_map (f : value -> value) d :
  initial_table (map (fun '(k, v) => (k, f v)) d) = initial_table d.
Proof.
  unfold initial_table.
  change (map (fun '(k, v) => (k, f v)) d)
    with ((fun '(k, v) => (k, f v)) <$> d).
  rewrite imap_fmap. apply imap_ext. by intros i [k v] _.
Qed.

Lemma for_items_none_slot d : forall (i : nat) tbl (objs : list value),
  Forall (fun kv : key * value =>
            fix_keys (replace_none kv.2)
            = (v' ← fix_keys kv.2; Ok (replace_none v'))) d ->
  for_items fix_keys_body
    (map (fun '(k, v) => (k, none_slot replace_none v)) d) i
    (tbl, none_slot replace_none <$> objs)
  = for_items fix_keys_body d i (tbl, objs)
    ≫= fun st : table * list value =>
         Ok (st.1, none_slot replace_none <$> st.2).
Proof.
  induction d as [ | [k v] d IHd ]; intros i tbl objs Hall; [ done | ].
  apply Forall_cons in Hall as [Hv Hall]. simpl in Hv.
  cbn [map]. rewrite !for_items_cons.
  assert (Hbody : forall v0 (objs0 : list value),
            fix_keys_body i k v0 (tbl, objs0)
            = (tbl' ← move_key k tbl;
               if is_container v0
               then v' ← fix_keys v0; Ok (tbl', <[i:=v']> objs0)
               else Ok (tbl', objs0))) by done.
  rewrite !Hbody. clear Hbody.
  destruct (move_key k tbl) as [ tbl1 | e ]; [ | done ].
  cbn [mbind result_bind]. rewrite is_container_none_slot.
  destruct (is_container v) eqn:Hc.
  - rewrite none_slot_container, Hv by done.
    destruct (fix_keys v) as [ v' | e ] eqn:Hv'; [ | done ].
    cbn [mbind result_bind].
    replace (<[i:=replace_none v']> (none_slot replace_none <$> objs))
      with (none_slot replace_none <$> <[i:=v']> objs).
    + by apply IHd.
    + rewrite list_fmap_insert. f_equal. apply none_slot_container.
      by rewrite (fix_keys_container _ _ Hv').
  - cbn [mbind result_bind]. by apply IHd.
Qed.

(** X1.  The two passes of the sanitizer commute: rewriting the keys of a
    document whose nulls were replaced gives what replacing the nulls of
    the document with rewritten keys gives, and the first raises exactly
    when [fix_keys] on the document itself does, with the same exception. *)
Theorem sanitizer_passes_commute (data : value) :
  fix_keys (replace_none data)
  = (data' ← fix_keys data; Ok (replace_none data')).
Proof.
  induction data as [ | b | x | s | b | l IH | d IH ] using value_ind';
    try done.
  - cbn [replace_none]. rewrite !fix_keys_list.
    rewrite (mapM_map fix_slot (none_slot replace_none)
               (none_slot replace_none)).
    + by destruct (mapM fix_slot l).
    + eapply Forall_impl; [ exact IH | ]. intros v Hv. simpl.
      by apply fix_slot_none_slot.
  - cbn [replace_none]. rewrite !fix_keys_dict.
    rewrite initial_table_map.
    replace ((map (fun '(k, v) => (k, none_slot replace_none v)) d).*2)
      with (none_slot replace_none <$> d.*2).
    + rewrite for_items_none_slot by done.
      destruct (for_items fix_keys_body d 0%nat (initial_table d, d.*2))
        as [ [tbl objs] | e ]; [ | done ].
      cbn [mbind result_bind fst snd replace_none].
      by rewrite resolve_fmap.
    + clear IH. induction d as [ | [k v] d IHd ]; [ done | ].
      cbn [map fmap list_fmap snd]. f_equal. exact IHd.
Qed.
End PassesCommute.

(** ** DocumentSanitizer: documents whose keys do not collide *)

Section NoCollision.
Implicit Types (v : value) (d : dict) (tbl front back rest : table) (k : key).

Lemma dict_get_app {V} k (d1 d2 : list (key * V)) :
  dict_get k (d1 ++ d2)
  = match dict_get k d1 with
    | Some x => Some x
    | None => dict_get k d2
    end.
Proof.
  induction d1 as [ | [k0 x0] d1 IH ]; [ done | ].
  simpl. by case_decide.
Qed.

Lemma dict_del_absent {V} k (t : list (key * V)) :
  k ∉ t.*1 -> dict_del k t = t.
Proof.
  intros Hk. unfold dict_del.
  induction t as [ | [k0 x0] t IH ]; [ done | ].
  rewrite fmap_cons in Hk. apply not_elem_of_cons in Hk as [Hne Hk].
  rewrite filter_cons_True by (intros Heq; simpl in Heq; by subst).
  by rewrite IH.
Qed.

Lemma dict_del_app {V} k (t1 t2 : list (key * V)) :
  dict_del k (t1 ++ t2) = dict_del k t1 ++ dict_del k t2.
Proof. unfold dict_del. apply filter_app. Qed.

Lemma dict_set_absent {V} k (x : V) (t : list (key * V)) :
  k ∉ t.*1 -> dict_set k x t = t ++ [(k, x)].
Proof.
  induction t as [ | [k0 x0] t IH ]; [ done | ].
  rewrite fmap_cons. intros [Hne Hk]%not_elem_of_cons. simpl.
  rewrite decide_False by done. by rewrite IH.
Qed.

Lemma clean_keys_other k (t : table) :
  key_clean k = false -> Forall (fun kr => key_clean kr.1) t -> k ∉ t.*1.
Proof.
  intros Hk Hall ([k0 r] & -> & Hin)%list_elem_of_fmap.
  rewrite Forall_forall in Hall. specialize (Hall _ Hin). simpl in *.
  by rewrite Hk in Hall.
Qed.

(** The key moves on a table whose rewritten keys are pairwise distinct:
    the entries before ([front]) and after ([back]) the ones still to visit
    have clean keys; a clean key stays where it is, any other entry goes to
    the end under its rewritten key. *)
Lemma move_keys_no_collision rest : forall front back,
  Forall (fun kr => key_clean kr.1) front ->
  Forall (fun kr => key_clean kr.1) back ->
  NoDup (front.*1 ++ (rewrite_key <$> rest.*1) ++ back.*1) ->
  move_keys rest.*1 (front ++ rest ++ back)
  = Ok (front ++ filter (fun kr => key_clean kr.1) rest ++ back
        ++ map (fun kr => (rewrite_key kr.1, kr.2))
             (filter (fun kr => negb (key_clean kr.1)) rest)).
Proof.
  induction rest as [ | [k r] rest IH ]; intros front back Hf Hb Hnd.
  - simpl. by rewrite app_nil_r.
  - rewrite !fmap_cons in Hnd. cbn [fst] in Hnd.
    rewrite fmap_cons. cbn [fst move_keys].
    destruct (key_clean k) eqn:Hk.
    + assert (move_key k (front ++ ((k, r) :: rest) ++ back)
              = Ok (front ++ ((k, r) :: rest) ++ back)) as ->.
      { apply move_key_Ok. by left. }
      cbn [mbind result_bind].
      rewrite filter_cons_True by (simpl; rewrite Hk; simpl; tauto).
      rewrite filter_cons_False by (simpl; rewrite Hk; simpl; tauto).
      specialize (IH (front ++ [(k, r)]) back).
      rewrite <- !app_assoc in IH. cbn [app] in IH |- *. apply IH.
      * apply Forall_app. split; [ done | ]. constructor; [ | done ].
        simpl. by rewrite Hk.
      * done.
      * rewrite fmap_app, <- app_assoc. cbn [fmap list_fmap fst app].
        by rewrite clean_rewrite_key in Hnd.
    + assert (Hk_front : k ∉ front.*1) by by apply clean_keys_other.
      assert (Hk_back : k ∉ back.*1) by by apply clean_keys_other.
      apply NoDup_app in Hnd as (Hnd_front & Hdisj & Hnd_tail).
      cbn [app] in Hnd_tail. apply NoDup_cons in Hnd_tail as [Hnew Hnd_tail].
      apply not_elem_of_app in Hnew as [Hnew_rest Hnew_back].
      assert (Hk_rest : k ∉ rest.*1).
      { intros Hin. apply Hnew_rest. by apply list_elem_of_fmap_2. }
      assert (Hnew_rest' : rewrite_key k ∉ rest.*1).
      { intros Hin. apply Hnew_rest.
        rewrite <- (clean_rewrite_key (rewrite_key k)) at 1
          by apply rewrite_key_clean.
        by apply list_elem_of_fmap_2. }
      assert (Hnew_front : rewrite_key k ∉ front.*1).
      { intros Hin. apply (Hdisj _ Hin). cbn [app]. left. }
      assert (move_key k (front ++ ((k, r) :: rest) ++ back)
              = Ok (front ++ rest ++ back ++ [(rewrite_key k, r)])) as ->.
      { apply move_key_Ok. right. split; [ done | ]. exists r. split.
        - rewrite dict_get_app, dict_get_None by done.
          simpl. by rewrite decide_True.
        - cbn [app]. rewrite dict_del_app.
          unfold dict_del at 2. rewrite filter_cons_False by (intros Heq; by apply Heq).
          fold (dict_del k (rest ++ back)).
          rewrite dict_del_app, !dict_del_absent by done.
          rewrite dict_set_absent; [ by rewrite <- !app_assoc | ].
          rewrite !fmap_app. rewrite !not_elem_of_app. done. }
      cbn [mbind result_bind].
      rewrite filter_cons_False by (simpl; rewrite Hk; simpl; tauto).
      rewrite filter_cons_True by (simpl; rewrite Hk; simpl; tauto).
      rewrite (IH front (back ++ [(rewrite_key k, r)])).
      * cbn [map fst snd]. by rewrite <- !app_assoc.
      * done.
      * apply Forall_app. split; [ done | ]. constructor; [ | done ].
        simpl. apply Is_true_true, rewrite_key_clean.
      * apply NoDup_app. split; [ done | ]. split.
        -- intros k' Hin Hin'. apply (Hdisj _ Hin). cbn [app].
           rewrite fmap_app in Hin'. cbn [fmap list_fmap fst] in Hin'.
           rewrite app_assoc in Hin'.
           apply elem_of_app in Hin' as [ Hin' | ->%list_elem_of_singleton ];
             [ by right | left ].
        -- rewrite fmap_app. cbn [fmap list_fmap fst]. rewrite app_assoc.
           apply NoDup_app. split; [ done | ]. split.
           ++ intros k' Hin ->%list_elem_of_singleton.
              apply elem_of_app in Hin as [ ? | ? ]; done.
           ++ apply NoDup_singleton.
Qed.

Lemma initial_table_fst d : (initial_table d).*1 = d.*1.
Proof.
  unfold initial_table. rewrite fmap_imap.
  etrans; [ | apply imap_const ]. apply imap_ext. by intros i [k v] _.
Qed.

Lemma resolve_app tbl1 tbl2 objs :
  resolve (tbl1 ++ tbl2) objs = resolve tbl1 objs ++ resolve tbl2 objs.
Proof. apply omap_app. Qed.

Lemma resolve_filter (P : key -> bool) tbl objs :
  resolve (filter (fun kr => P kr.1) tbl) objs
  = filter (fun kv => P kv.1) (resolve tbl objs).
Proof.
  unfold resolve. induction tbl as [ | [k r] tbl IH ]; [ done | ].
  destruct (P k) eqn:HP.
  - rewrite filter_cons_True by (simpl; rewrite HP; simpl; tauto).
    cbn [omap list_omap]. destruct (objs !! r) as [ v | ]; simpl; [ | done ].
    rewrite filter_cons_True by (simpl; rewrite HP; simpl; tauto). by rewrite IH.
  - rewrite filter_cons_False by (simpl; rewrite HP; simpl; tauto).
    cbn [omap list_omap]. destruct (objs !! r) as [ v | ]; simpl; [ | done ].
    rewrite filter_cons_False by (simpl; rewrite HP; simpl; tauto). done.
Qed.

Lemma resolve_rekey (f : key -> key) tbl objs :
  resolve (map (fun kr => (f kr.1, kr.2)) tbl) objs
  = map (fun kv => (f kv.1, kv.2)) (resolve tbl objs).
Proof.
  unfold resolve. induction tbl as [ | [k r] tbl IH ]; [ done | ].
  cbn [map omap list_omap fst snd]. rewrite IH.
  by destruct (objs !! r).
Qed.

Lemma filter_split_length {A} (P : A -> bool) (l : list A) :
  (length (filter (fun x => P x) l)
   + length (filter (fun x => negb (P x)) l))%nat = length l.
Proof.
  induction l as [ | x l IH ]; [ done | ].
  destruct (P x) eqn:HP.
  - rewrite filter_cons_True by (rewrite HP; simpl; tauto).
    rewrite filter_cons_False by (rewrite HP; simpl; tauto).
    simpl. by rewrite IH.
  - rewrite filter_cons_False by (rewrite HP; simpl; tauto).
    rewrite filter_cons_True by (rewrite HP; simpl; tauto).
    simpl. rewrite <- IH. lia.
Qed.

(** X2.  A dict no two keys of which rewrite to the same key loses no
    entry: [fix_keys] returns the entries whose keys need no rewriting, in
    their order, followed by the other entries under their rewritten keys,
    in the order they were visited; every value is the one [fix_keys]
    returns for the value that was there. *)
Theorem fix_keys_without_collision (d : dict) :
  wf (VDict d) = true -> NoDup (rewrite_key <$> d.*1) ->
  exists vs,
    Forall2 (fun v v' => fix_keys v = Ok v') d.*2 vs
    /\ fix_keys (VDict d)
       = Ok (VDict
               (filter (fun kv => key_clean kv.1) (zip d.*1 vs)
                ++ map (fun kv => (rewrite_key kv.1, kv.2))
                     (filter (fun kv => negb (key_clean kv.1))
                        (zip d.*1 vs))))
    /\ length (filter (fun kv => key_clean kv.1) (zip d.*1 vs)
               ++ map (fun kv => (rewrite_key kv.1, kv.2))
                    (filter (fun kv => negb (key_clean kv.1))
                       (zip d.*1 vs)))
       = length d.
Proof.
  intros Hwf Hnd.
  destruct (mapM_total fix_slot d.*2) as [vs Hvs].
  { simpl in Hwf. apply andb_true_iff in Hwf as [_ Hall].
    apply forallb_Forall in Hall. apply Forall_fmap.
    eapply Forall_impl; [ exact Hall | ]. intros [k v] Hv. simpl in *.
    rewrite fix_slot_fix_keys. by apply fix_keys_total. }
  assert (Hlen : length vs = length d).
  { apply mapM_Ok, Forall2_length in Hvs. by rewrite length_fmap in Hvs. }
  exists vs. split; [ | split ].
  - apply mapM_Ok in Hvs. eapply Forall2_impl; [ exact Hvs | ].
    intros v v' H. simpl in H. by rewrite <- fix_slot_fix_keys.
  - apply fix_keys_dict_Ok. eexists _, vs. split; [ | split; [ done | ] ].
    + pose proof (move_keys_no_collision (initial_table d) [] []) as H.
      rewrite initial_table_fst in H. cbn [app] in H.
      rewrite !app_nil_r in H. apply H; [ done | done | ].
      done.
    + rewrite resolve_app, resolve_rekey.
      rewrite (resolve_filter key_clean).
      rewrite (resolve_filter (fun k => negb (key_clean k))).
      by rewrite resolve_initial_zip.
  - rewrite length_app, length_map, filter_split_length.
    by rewrite <- (length_fmap fst), zip_keys, length_fmap.
Qed.
End NoCollision.

Lemma fix_keys_without_collision_witness :
  exists vs,
    Forall2 (fun v v' => fix_keys v = Ok v') a_document.*2 vs
    /\ fix_keys (VDict a_document)
       = Ok (VDict
               (filter (fun kv => key_clean kv.1) (zip a_document.*1 vs)
                ++ map (fun kv => (rewrite_key kv.1, kv.2))
                     (filter (fun kv => negb (key_clean kv.1))
                        (zip a_document.*1 vs))))
    /\ length (filter (fun kv => key_clean kv.1) (zip a_document.*1 vs)
               ++ map (fun kv => (rewrite_key kv.1, kv.2))
                    (filter (fun kv => negb (key_clean kv.1))
                       (zip a_document.*1 vs)))
       = length a_document.
Proof.
  apply (fix_keys_without_collision a_document).
  - reflexivity.
  - by apply NoDup_keys.
Defined.

(** ** FragmentReassembler: every chain *)

Section ReassemblyOutcome.
Implicit Types (pdu : PDU) (p : pdu_params) (m : split_method).

(** X3.  A chain whose first fragment carries a [sar_msg_ref_num] is put
    together from the whole bodies, in chain order, whatever its UDHI flag
    and its first bytes: no header is cut off, and the page count is the
    length of the chain. *)
Theorem reassemble_sar pdu :
  is_Some (sar_msg_ref_num (params pdu)) ->
  Forall (fun f => is_Some (short_message (params f))) (chain pdu) ->
  reassemble pdu
  = Ok (concat (map body_of (chain pdu)), length (chain pdu)).
Proof.
  intros Hsar Hall. unfold reassemble, splitMethod.
  rewrite bool_decide_eq_true_2 by done. cbn [mbind result_bind].
  pose proof Hall as Hfirst. destruct pdu as [p st next].
  cbn [chain] in Hfirst. apply Forall_cons in Hfirst as [[sm Hsm] _].
  cbn [params] in *. unfold short_message_bytes. rewrite Hsm.
  cbn [mbind result_bind].
  rewrite (concat_next_chain sar _ _ _ Hall).
  cbn [chain tail map concat fragment_part].
  unfold body_of at 2. cbn [params]. rewrite Hsm. done.
Qed.

Lemma reassemble_sar_witness :
  reassemble
    {| params :=
         {| short_message := Some [x05; x00; x03; x2a; x02; x01; x41; x42];
            sar_msg_ref_num := Some 42%Z;
            esm_class := Some [UDHI_INDICATOR_SET];
            destination_addr := None;
            source_addr := None;
            schedule_delivery_time := VNone;
            validity_period := VNone;
            data_coding := None |};
       status := "ESME_ROK";
       nextPdu := Some (fragment [x43; x44] None None) |}
  = Ok ([x05; x00; x03; x2a; x02; x01; x41; x42; x43; x44], 2%nat).
Proof.
  apply (reassemble_sar
           {| params :=
                {| short_message :=
                     Some [x05; x00; x03; x2a; x02; x01; x41; x42];
                   sar_msg_ref_num := Some 42%Z;
                   esm_class := Some [UDHI_INDICATOR_SET];
                   destination_addr := None;
                   source_addr := None;
                   schedule_delivery_time := VNone;
                   validity_period := VNone;
                   data_coding := None |};
              status := "ESME_ROK";
              nextPdu := Some (fragment [x43; x44] None None) |}).
  - by eexists.
  - repeat constructor; by eexists.
Defined.

Lemma concat_next_outcome m pdu : forall acc n,
  match concat_next m pdu acc n with
  | Ok (raw, pages) =>
      pages = (n + length (tail (chain pdu)))%nat
      /\ (length raw
          <= length acc + length (concat (map body_of (tail (chain pdu)))))%nat
  | Raise e =>
      e = TypeError
      /\ Exists (fun f => short_message (params f) = None) (tail (chain pdu))
  end.
Proof.
  induction pdu as [ p st | p st pdu' IH ] using PDU_ind'; intros acc n.
  - simpl. split; lia.
  - cbn [concat_next nextPdu chain tail]. unfold short_message_bytes.
    destruct (short_message (params pdu')) as [ sm | ] eqn:Hsm.
    + cbn [mbind result_bind].
      specialize (IH (acc ++ fragment_part m sm) (n + 1)%nat).
      destruct (concat_next m pdu' _ _) as [ [raw pages] | e ].
      * destruct IH as [-> Hlen]. destruct pdu' as [p' st' next'].
        cbn [chain tail map concat length] in *. split; [ lia | ].
        unfold body_of at 1. cbn [params] in *. rewrite Hsm.
        cbn [default from_option id]. rewrite !length_app in *.
        assert (length (fragment_part m sm) <= length sm)%nat.
        { destruct m; simpl; [ done | rewrite length_drop; lia ]. }
        lia.
      * destruct IH as [-> Hex]. split; [ done | ].
        destruct pdu' as [p' st' next']. cbn [chain tail] in *.
        by apply Exists_cons_tl.
    + cbn [mbind result_bind]. split; [ done | ].
      destruct pdu' as [p' st' next']. cbn [chain]. by apply Exists_cons_hd.
Qed.

(** X4.  What [reassemble] can do with a chain, any chain.  If it raises,
    it raises [TypeError] and some fragment of the chain has no
    [short_message].  If it returns, the first fragment has a
    [short_message], the page count is 1 or the length of the chain, and
    the message is not longer than the bodies of the chain together. *)
Theorem reassemble_outcome pdu :
  match reassemble pdu with
  | Ok (raw, pages) =>
      is_Some (short_message (params pdu))
      /\ (pages = 1%nat \/ pages = length (chain pdu))
      /\ (length raw <= length (concat (map body_of (chain pdu))))%nat
  | Raise e =>
      e = TypeError
      /\ Exists (fun f => short_message (params f) = None) (chain pdu)
  end.
Proof.
  assert (Hfirst : short_message (params pdu) = None ->
            Exists (fun f => short_message (params f) = None) (chain pdu)).
  { destruct pdu as [p st next]. intros H. by apply Exists_cons_hd. }
  assert (Hchain : chain pdu = pdu :: tail (chain pdu)).
  { by destruct pdu as [p st [ next | ]]. }
  unfold reassemble, splitMethod, short_message_bytes.
  destruct (short_message (params pdu)) as [ sm | ] eqn:Hsm.
  - assert (Hlen : length (chain pdu) = S (length (tail (chain pdu))))
      by by rewrite Hchain at 1.
    assert (Hbodies : length (concat (map body_of (chain pdu)))
                      = (length sm
                         + length (concat (map body_of (tail (chain pdu)))))%nat).
    { rewrite Hchain at 1. cbn [map concat]. rewrite length_app.
      unfold body_of at 1. by rewrite Hsm. }
    rewrite Hlen, Hbodies. clear Hfirst Hchain Hlen Hbodies.
    assert (Hpart : forall m,
      match concat_next m pdu (fragment_part m sm) 1 with
      | Ok (raw, pages) =>
          is_Some (Some sm)
          /\ (pages = 1%nat \/ pages = S (length (tail (chain pdu))))
          /\ (length raw
              <= length sm
                 + length (concat (map body_of (tail (chain pdu)))))%nat
      | Raise e =>
          e = TypeError
          /\ Exists (fun f => short_message (params f) = None) (chain pdu)
      end).
    { intros m.
      pose proof (concat_next_outcome m pdu (fragment_part m sm) 1) as H.
      destruct (concat_next m pdu _ _) as [ [raw pages] | e ].
      - destruct H as [-> Hlen]. split; [ done | ]. split; [ right; lia | ].
        assert (length (fragment_part m sm) <= length sm)%nat.
        { destruct m; simpl; [ done | rewrite length_drop; lia ]. }
        lia.
      - destruct H as [-> Hex]. split; [ done | ].
        destruct pdu as [p st next]. by apply Exists_cons_tl. }
    assert (Hone : is_Some (Some sm)
                   /\ (1%nat = 1%nat \/ 1%nat = S (length (tail (chain pdu))))
                   /\ (length sm
                       <= length sm
                          + length (concat (map body_of (tail (chain pdu)))))%nat).
    { split; [ done | split; [ by left | lia ] ]. }
    case_bool_decide; cbn [mbind result_bind]; [ apply Hpart | ].
    destruct (udhi_indicator_set (params pdu)); cbn [mbind result_bind];
      [ | exact Hone ].
    case_bool_decide; cbn [mbind result_bind]; [ apply Hpart | exact Hone ].
  - case_bool_decide; cbn [mbind result_bind]; [ by auto | ].
    destruct (udhi_indicator_set (params pdu)); cbn [mbind result_bind];
      by auto.
Qed.
End ReassemblyOutcome.

(** ** BrokerSupervisor: the consumer loop *)

Section ConsumerLoop.
Context {lib : Library} (cfg : config).
Implicit Types (msg : message) (db : store) (queue : list delivery).

Lemma consume_acked queue : forall db acked,
  consume cfg queue db acked
  = ((consume cfg queue db []).1.1,
     acked ++ (consume cfg queue db []).1.2,
     (consume cfg queue db []).2).
Proof.
  induction queue as [ | [ msg now | e ] queue IH ]; intros db acked.
  - simpl. by rewrite app_nil_r.
  - cbn [consume]. destruct (process_message cfg now msg db) as [ db' | e ].
    + rewrite (IH db' (acked ++ [delivery_tag msg])).
      rewrite (IH db' ([] ++ [delivery_tag msg])).
      cbn [fst snd]. by rewrite <- !app_assoc.
    + simpl. by rewrite app_nil_r.
  - simpl. by rewrite app_nil_r.
Qed.

(** X5.  Whatever the queue delivers, the tags the loop acknowledges are
    the tags of the first deliveries, in delivery order, with none left
    out and none twice; and as long as the loop has not been left through
    an exception, every delivery is acknowledged. *)
Theorem acknowledged_in_delivery_order queue db :
  (consume cfg queue db []).1.2 `prefix_of` delivered_tags queue
  /\ ((consume cfg queue db []).2 = Waiting ->
      (consume cfg queue db []).1.2 = delivered_tags queue).
Proof.
  revert db. induction queue as [ | [ msg now | e ] queue IH ]; intros db.
  - done.
  - cbn [consume delivered_tags omap list_omap].
    destruct (process_message cfg now msg db) as [ db' | e ].
    + rewrite consume_acked. cbn [fst snd app].
      destruct (IH db') as [Hpre Hall]. split.
      * by apply prefix_cons.
      * intros Hw. f_equal. by apply Hall.
    + cbn [fst snd]. split; [ apply prefix_nil | done ].
  - cbn [consume fst snd]. split; [ apply prefix_nil | done ].
Qed.

Lemma unknown_route now msg db :
  str_take 10 (routing_key msg) <> "submit.sm." ->
  str_take 12 (routing_key msg) <> "dlr_thrower." ->
  process_message cfg now msg db = Ok db.
Proof.
  intros Hsub Hdlr. unfold process_message.
  rewrite (bool_decide_eq_false_2 (str_take 10 _ = _)) by done.
  rewrite (bool_decide_eq_false_2 (str_take 12 _ = _)) by done.
  cbn [andb]. case_bool_decide as Hresp; [ | done ].
  destruct Hsub. revert Hresp. generalize (routing_key msg). intros s.
  do 10 (destruct s as [ | ? s ]; [ done | ]).
  cbn [str_take]. intros [= -> -> -> -> -> -> -> -> -> ->]. done.
Qed.

(** X6.  A message on a route that is none of the three is logged and
    acknowledged, and that is all: processing it returns the store as it
    was; wherever it stands in the queue, the store the loop leaves and the
    way the loop stands are those of the queue without it; and when the
    loop gets to it, its tag is acknowledged next. *)
Theorem unknown_route_inert now msg before after db :
  str_take 10 (routing_key msg) <> "submit.sm." ->
  str_take 12 (routing_key msg) <> "dlr_thrower." ->
  process_message cfg now msg db = Ok db
  /\ (consume cfg (before ++ Delivered msg now :: after) db []).1.1
     = (consume cfg (before ++ after) db []).1.1
  /\ (consume cfg (before ++ Delivered msg now :: after) db []).2
     = (consume cfg (before ++ after) db []).2
  /\ ((consume cfg before db []).2 = Waiting ->
      (consume cfg (before ++ [Delivered msg now]) db []).1.2
      = (consume cfg before db []).1.2 ++ [delivery_tag msg]).
Proof.
  intros Hsub Hdlr. split; [ by apply unknown_route | ].
  split; [ | split ].
  - generalize (@nil Z). revert db.
    induction before as [ | [ msg0 now0 | e ] before IH ]; intros db acked.
    + cbn [app consume]. rewrite unknown_route by done.
      rewrite (consume_acked after db (acked ++ _)).
      by rewrite (consume_acked after db acked).
    + cbn [app consume].
      destruct (process_message cfg now0 msg0 db) as [ db' | e ]; [ | done ].
      apply IH.
    + done.
  - generalize (@nil Z). revert db.
    induction before as [ | [ msg0 now0 | e ] before IH ]; intros db acked.
    + cbn [app consume]. rewrite unknown_route by done.
      rewrite (consume_acked after db (acked ++ _)).
      by rewrite (consume_acked after db acked).
    + cbn [app consume].
      destruct (process_message cfg now0 msg0 db) as [ db' | e ]; [ | done ].
      apply IH.
    + done.
  - destruct (consume cfg before db []) as [[db1 acked1] exit] eqn:Hrun.
    cbn [fst snd]. intros ->.
    rewrite (consume_app cfg before _ _ _ _ _ Hrun). cbn [consume].
    by rewrite unknown_route.
Qed.
End ConsumerLoop.

Lemma unknown_route_inert_witness :
  let msg := {| routing_key := "bill_request.any";
                delivery_tag := 2;
                headers := None;
                message_id := "m9";
                priority := VNone;
                body := [] |} in
  let before := [ Delivered (dlr_message 1 "m1" "DELIVRD") "10:00:01" ] in
  let after := [ Delivered (dlr_message 3 "m1" "ESME_ROK") "10:00:03" ] in
  process_message (lib := stub_library) a_config "10:00:02" msg ∅ = Ok ∅
  /\ (consume (lib := stub_library) a_config
        (before ++ Delivered msg "10:00:02" :: after) ∅ []).1.1
     = (consume (lib := stub_library) a_config (before ++ after) ∅ []).1.1
  /\ (consume (lib := stub_library) a_config
        (before ++ Delivered msg "10:00:02" :: after) ∅ []).2
     = (consume (lib := stub_library) a_config (before ++ after) ∅ []).2
  /\ ((consume (lib := stub_library) a_config before ∅ []).2 = Waiting ->
      (consume (lib := stub_library) a_config
         (before ++ [Delivered msg "10:00:02"]) ∅ []).1.2
      = (consume (lib := stub_library) a_config before ∅ []).1.2
        ++ [delivery_tag msg]).
Proof.
  apply (unknown_route_inert (lib := stub_library) a_config "10:00:02"
           {| routing_key := "bill_request.any";
              delivery_tag := 2;
              headers := None;
              message_id := "m9";
              priority := VNone;
              body := [] |}
           [ Delivered (dlr_message 1 "m1" "DELIVRD") "10:00:01" ]
           [ Delivered (dlr_message 3 "m1" "ESME_ROK") "10:00:03" ] ∅);
    simpl; congruence.
Defined.

(** ** BrokerSupervisor: unbounded retries, the interrupt, the budget of a
    run *)

Section RetryForever.
Implicit Types (rs : retry_state).

Lemma connect_failures_forever (n : nat) rs :
  RETRY_ON_CONNECTION_ERROR rs = true -> RETRY_FOREVER rs = true ->
  connect_failures n rs
  = ({| RETRY_ON_CONNECTION_ERROR := true;
        amqp_broker_max_retries := amqp_broker_max_retries rs - Z.of_nat n;
        RETRY_FOREVER := true |},
     repeat callLater_rabbitMQConnect n).
Proof.
  revert rs. induction n as [ | n IH ]; intros [retry retries forever];
    cbn [RETRY_ON_CONNECTION_ERROR RETRY_FOREVER amqp_broker_max_retries];
    intros -> ->.
  - cbn [connect_failures repeat]. do 2 f_equal. lia.
  - cbn [connect_failures]. unfold ConError, should_stop.
    cbn [RETRY_ON_CONNECTION_ERROR RETRY_FOREVER amqp_broker_max_retries
         negb orb andb].
    rewrite andb_false_r. rewrite IH by done.
    cbn [decrement_retry amqp_broker_max_retries repeat].
    do 2 f_equal. lia.
Qed.

(** X7.  With retries enabled and [max_retries <= 0] the supervisor never
    gives up: every one of any number of consecutive connect failures
    schedules a reconnect, and each still takes one from the counter,
    which goes down below zero. *)
Theorem unbounded_retries_never_stop (n : nat) (max_retries : Z) :
  (max_retries <= 0)%Z ->
  connect_failures n (init_retry true max_retries)
  = ({| RETRY_ON_CONNECTION_ERROR := true;
        amqp_broker_max_retries := max_retries - Z.of_nat n;
        RETRY_FOREVER := true |},
     repeat callLater_rabbitMQConnect n).
Proof.
  intros Hmax. apply connect_failures_forever; [ done | ].
  simpl. by apply bool_decide_eq_true_2.
Qed.

Lemma unbounded_retries_never_stop_witness :
  connect_failures 7 (init_retry true 0)
  = ({| RETRY_ON_CONNECTION_ERROR := true;
        amqp_broker_max_retries := 0 - Z.of_nat 7;
        RETRY_FOREVER := true |},
     repeat callLater_rabbitMQConnect 7).
Proof. apply (unbounded_retries_never_stop 7 0). lia. Defined.
End RetryForever.

Section Interrupt.
Context {lib : Library} (cfg : config).
Implicit Types (db : store) (queue : list delivery) (rs : retry_state).

(** X8.  A [KeyboardInterrupt] in the consumer loop ends the reactor
    whatever the retry settings, also when retries are unbounded:
    [gotConnection] calls [StopReactor], takes nothing from the budget, and
    leaves retrying switched off, so that a connection error after it
    stops as well. *)
Theorem keyboard_interrupt_stops queue db rs :
  (consume cfg queue db []).2 = Raised KeyboardInterrupt ->
  exists rs',
    gotConnection cfg queue db rs
    = ((consume cfg queue db []).1.1, (consume cfg queue db []).1.2, rs',
       Some StopReactor)
    /\ RETRY_ON_CONNECTION_ERROR rs' = false
    /\ amqp_broker_max_retries rs' = amqp_broker_max_retries rs
    /\ ConError rs' = (rs', StopReactor).
Proof.
  intros Hexit. unfold gotConnection.
  destruct (consume cfg queue db []) as [[db' acked] exit].
  cbn [fst snd] in *. subst exit. cbn [handle].
  eexists. split; [ reflexivity | ]. done.
Qed.
End Interrupt.

Lemma keyboard_interrupt_stops_witness :
  exists rs',
    gotConnection (lib := stub_library) a_config
      [ Delivered (dlr_message 1 "m1" "DELIVRD") "10:00:01";
        QueueRaises KeyboardInterrupt ] ∅ (init_retry true 0)
    = ((consume (lib := stub_library) a_config
          [ Delivered (dlr_message 1 "m1" "DELIVRD") "10:00:01";
            QueueRaises KeyboardInterrupt ] ∅ []).1.1,
       (consume (lib := stub_library) a_config
          [ Delivered (dlr_message 1 "m1" "DELIVRD") "10:00:01";
            QueueRaises KeyboardInterrupt ] ∅ []).1.2,
       rs', Some StopReactor)
    /\ RETRY_ON_CONNECTION_ERROR rs' = false
    /\ amqp_broker_max_retries rs' = amqp_broker_max_retries (init_retry true 0)
    /\ ConError rs' = (rs', StopReactor).
Proof.
  apply (keyboard_interrupt_stops (lib := stub_library) a_config
           [ Delivered (dlr_message 1 "m1" "DELIVRD") "10:00:01";
             QueueRaises KeyboardInterrupt ] ∅ (init_retry true 0)).
  reflexivity.
Defined.

Section StoreConnection.
Implicit Types (rs : retry_state) (attempts extra : list value).

Lemma mongo_retry_connected attempts rs m :
  mongo_retry attempts rs true m = Some (true, m, attempts).
Proof. by destruct attempts. Qed.

Lemma mongo_retry_failing attempts : forall rs m extra,
  RETRY_ON_CONNECTION_ERROR rs = true ->
  Forall (fun a => _connect_to_mongo a = false) attempts ->
  RETRY_FOREVER rs = true \/ (Z.of_nat (length attempts) <= m)%Z ->
  mongo_retry (attempts ++ extra) rs false m
  = mongo_retry extra rs false (m - Z.of_nat (length attempts)).
Proof.
  induction attempts as [ | a attempts IH ]; intros rs m extra Hretry Hall Hm.
  - cbn [app length]. f_equal. lia.
  - apply Forall_cons in Hall as [Ha Hall].
    cbn [app mongo_retry]. rewrite Hretry. cbn [negb andb].
    assert (bool_decide (m > 0)%Z || RETRY_FOREVER rs = true) as ->.
    { destruct Hm as [ -> | Hm ]; [ by rewrite orb_true_r | ].
      rewrite bool_decide_eq_true_2; [ done | ]. cbn [length] in Hm. lia. }
    rewrite Ha, IH; [ | done | done | ].
    + f_equal. cbn [length]. lia.
    + destruct Hm as [ ? | Hm ]; [ by left | right ]. cbn [length] in Hm. lia.
Qed.

(** X9.  The store connection with a bounded budget: when
    [max_retries = N > 0] and the store cannot be reached, the first
    attempt and [N] retries are made, no more, and [gotConnection] calls
    [StopReactor]: it consumes no message, schedules no reconnect and
    leaves the budget of the broker connection as it was. *)
Theorem store_connection_gives_up {lib : Library} (cfg : config) (N : nat)
    attempts extra (queue : list delivery) (db : store) :
  (0 < N)%nat ->
  Forall (fun a => _connect_to_mongo a = false) attempts ->
  length attempts = (N + 1)%nat ->
  connect_mongo (attempts ++ extra) (init_retry true (Z.of_nat N)) (Z.of_nat N)
  = Some (false, 0%Z, extra)
  /\ gotConnection_mongo cfg (attempts ++ extra) queue db
       (init_retry true (Z.of_nat N)) (Z.of_nat N)
     = Some (db, [], init_retry true (Z.of_nat N), 0%Z, Some StopReactor).
Proof.
  intros HN Hall Hlen.
  assert (Hc : connect_mongo (attempts ++ extra) (init_retry true (Z.of_nat N))
                 (Z.of_nat N) = Some (false, 0%Z, extra)).
  { destruct attempts as [ | a attempts ]; [ simpl in Hlen; lia | ].
    apply Forall_cons in Hall as [Ha Hall]. cbn [app connect_mongo].
    rewrite Ha. cbn [length] in Hlen.
    rewrite mongo_retry_failing; [ | done | done | right; lia ].
    replace (Z.of_nat N - Z.of_nat (length attempts))%Z with 0%Z by lia.
    destruct extra; cbn [mongo_retry init_retry RETRY_ON_CONNECTION_ERROR
                         RETRY_FOREVER negb andb];
      rewrite (bool_decide_eq_false_2 (0 > 0)%Z) by lia;
      rewrite (bool_decide_eq_false_2 (Z.of_nat N <= 0)%Z) by lia; done. }
  split; [ done | ]. unfold gotConnection_mongo. by rewrite Hc.
Qed.

Lemma store_connection_gives_up_witness :
  connect_mongo ([VBool false; VNone; VNum (NInt 1)] ++ [VBool true])
    (init_retry true (Z.of_nat 2)) (Z.of_nat 2)
  = Some (false, 0%Z, [VBool true])
  /\ gotConnection_mongo (lib := stub_library) a_config
       ([VBool false; VNone; VNum (NInt 1)] ++ [VBool true])
       [ Delivered (dlr_message 1 "m1" "DELIVRD") "10:00:01" ] ∅
       (init_retry true (Z.of_nat 2)) (Z.of_nat 2)
     = Some (∅, [], init_retry true (Z.of_nat 2), 0%Z, Some StopReactor).
Proof.
  apply (store_connection_gives_up (lib := stub_library) a_config 2
           [VBool false; VNone; VNum (NInt 1)] [VBool true]).
  - lia.
  - repeat constructor.
  - reflexivity.
Defined.

(** X10.  The store connection that succeeds late: with retries enabled,
    after [k] failed attempts within the budget (or any number of them when
    retries are unbounded) an attempt that connects ends the loop; [k]
    retries are gone from [mongo_max_retries], the attempts after it are
    not made, and [gotConnection] goes on to the consumer loop with the
    budget of the broker connection untouched by the store's retries. *)
Theorem store_connection_made_late {lib : Library} (cfg : config)
    attempts (a : value) extra (queue : list delivery) (db : store) rs
    (m : Z) :
  RETRY_ON_CONNECTION_ERROR rs = true ->
  Forall (fun a => _connect_to_mongo a = false) attempts ->
  _connect_to_mongo a = true ->
  RETRY_FOREVER rs = true \/ (Z.of_nat (length attempts) <= m)%Z ->
  connect_mongo (attempts ++ a :: extra) rs m
  = Some (true, (m - Z.of_nat (length attempts))%Z, extra)
  /\ gotConnection_mongo cfg (attempts ++ a :: extra) queue db rs m
     = Some ((gotConnection cfg queue db rs).1.1.1,
             (gotConnection cfg queue db rs).1.1.2,
             (gotConnection cfg queue db rs).1.2,
             (m - Z.of_nat (length attempts))%Z,
             (gotConnection cfg queue db rs).2).
Proof.
  intros Hretry Hall Ha Hm.
  assert (Hc : connect_mongo (attempts ++ a :: extra) rs m
               = Some (true, (m - Z.of_nat (length attempts))%Z, extra)).
  { destruct attempts as [ | a0 attempts ].
    - cbn [app connect_mongo length]. rewrite Ha, mongo_retry_connected.
      do 3 f_equal. lia.
    - apply Forall_cons in Hall as [Ha0 Hall]. cbn [app connect_mongo].
      rewrite Ha0. cbn [length] in *.
      rewrite mongo_retry_failing; [ | done | done | ].
      + cbn [mongo_retry]. rewrite Hretry. cbn [negb andb].
        assert (bool_decide (m - Z.of_nat (length attempts) > 0)%Z
                || RETRY_FOREVER rs = true) as ->.
        { destruct Hm as [ -> | Hm ]; [ by rewrite orb_true_r | ].
          rewrite bool_decide_eq_true_2; [ done | lia ]. }
        rewrite Ha, mongo_retry_connected. do 3 f_equal. lia.
      + destruct Hm as [ ? | Hm ]; [ by left | right; lia ]. }
  split; [ done | ]. unfold gotConnection_mongo. rewrite Hc.
  by destruct (gotConnection cfg queue db rs) as [[[db' acked] rs'] act].
Qed.

Lemma store_connection_made_late_witness :
  connect_mongo ([VBool false; VNone] ++ VBool true :: [VBool false])
    (init_retry true 5) 5
  = Some (true, (5 - Z.of_nat (length [VBool false; VNone]))%Z, [VBool false])
  /\ gotConnection_mongo (lib := stub_library) a_config
       ([VBool false; VNone] ++ VBool true :: [VBool false])
       [ QueueRaises ConnectionClosed ] ∅ (init_retry true 5) 5
     = Some ((gotConnection (lib := stub_library) a_config
                [ QueueRaises ConnectionClosed ] ∅ (init_retry true 5)).1.1.1,
             (gotConnection (lib := stub_library) a_config
                [ QueueRaises ConnectionClosed ] ∅ (init_retry true 5)).1.1.2,
             (gotConnection (lib := stub_library) a_config
                [ QueueRaises ConnectionClosed ] ∅ (init_retry true 5)).1.2,
             (5 - Z.of_nat (length [VBool false; VNone]))%Z,
             (gotConnection (lib := stub_library) a_config
                [ QueueRaises ConnectionClosed ] ∅ (init_retry true 5)).2).
Proof.
  apply (store_connection_made_late (lib := stub_library) a_config
           [VBool false; VNone] (VBool true) [VBool false]
           [ QueueRaises ConnectionClosed ] ∅ (init_retry true 5) 5).
  - reflexivity.
  - repeat constructor.
  - reflexivity.
  - right. simpl. lia.
Defined.

(** X11.  The store connection with unbounded retries: with retries
    enabled and [max_retries <= 0], as long as the attempts fail the loop
    asks for another one; it has no way out but a connection, so
    [gotConnection] reaches neither [StopReactor] nor the consumer loop. *)
Theorem store_connection_never_gives_up {lib : Library} (cfg : config)
    attempts (queue : list delivery) (db : store) (max_retries : Z) :
  (max_retries <= 0)%Z ->
  Forall (fun a => _connect_to_mongo a = false) attempts ->
  connect_mongo attempts (init_retry true max_retries) max_retries = None
  /\ gotConnection_mongo cfg attempts queue db (init_retry true max_retries)
       max_retries = None.
Proof.
  intros Hmax Hall.
  assert (Hc : connect_mongo attempts (init_retry true max_retries) max_retries
               = None).
  { destruct attempts as [ | a attempts ]; [ done | ].
    apply Forall_cons in Hall as [Ha Hall]. cbn [connect_mongo].
    rewrite Ha. rewrite <- (app_nil_r attempts).
    rewrite mongo_retry_failing; [ | done | done | left ].
    - cbn [mongo_retry init_retry RETRY_ON_CONNECTION_ERROR RETRY_FOREVER
           negb andb].
      rewrite (bool_decide_eq_true_2 (max_retries <= 0)%Z) by done.
      by rewrite orb_true_r.
    - simpl. by apply bool_decide_eq_true_2. }
  split; [ done | ]. unfold gotConnection_mongo. by rewrite Hc.
Qed.

Lemma store_connection_never_gives_up_witness :
  connect_mongo [VBool false; VNone; VBool false; VStr "refused"]
    (init_retry true 0) 0 = None
  /\ gotConnection_mongo (lib := stub_library) a_config
       [VBool false; VNone; VBool false; VStr "refused"]
       [ QueueRaises ConnectionClosed ] ∅ (init_retry true 0) 0 = None.
Proof.
  apply (store_connection_never_gives_up (lib := stub_library) a_config
           [VBool false; VNone; VBool false; VStr "refused"]
           [ QueueRaises ConnectionClosed ] ∅ 0).
  - lia.
  - repeat constructor.
Defined.
End StoreConnection.

Section RunBudget.
Context {lib : Library} (cfg : config).
Implicit Types (db : store) (queue : list delivery) (rs : retry_state).

Lemma handle_budget e rs :
  amqp_broker_max_retries (handle e rs) = amqp_broker_max_retries rs
  /\ RETRY_FOREVER (handle e rs) = RETRY_FOREVER rs.
Proof. by destruct e. Qed.

Lemma decision_budget rs :
  RETRY_FOREVER rs = false ->
  (0 <= amqp_broker_max_retries rs)%Z ->
  if should_stop rs then True
  else (0 <= amqp_broker_max_retries (decrement_retry rs))%Z
       /\ amqp_broker_max_retries (decrement_retry rs)
          = (amqp_broker_max_retries rs - 1)%Z
       /\ RETRY_FOREVER (decrement_retry rs) = false.
Proof.
  intros Hf Hb. unfold should_stop. rewrite Hf.
  destruct (RETRY_ON_CONNECTION_ERROR rs); cbn [negb orb andb]; [ | done ].
  rewrite andb_true_r. case_bool_decide as Hle; [ done | ].
  cbn [decrement_retry amqp_broker_max_retries RETRY_FOREVER].
  split; [ lia | split; [ lia | done ] ].
Qed.

Lemma rabbitMQConnect_budget c db rs m db' acked rs' m' a :
  RETRY_FOREVER rs = false ->
  (0 <= amqp_broker_max_retries rs)%Z -> (0 <= m)%Z ->
  rabbitMQConnect cfg c db rs m = Some (db', acked, rs', m', a) ->
  RETRY_FOREVER rs' = false
  /\ (0 <= amqp_broker_max_retries rs')%Z /\ (0 <= m' <= m)%Z
  /\ amqp_broker_max_retries rs'
     = match a with
       | Some callLater_rabbitMQConnect => (amqp_broker_max_retries rs - 1)%Z
       | _ => amqp_broker_max_retries rs
       end.
Proof.
  intros Hf Hb Hm. destruct c as [ | mongo queue ]; cbn [rabbitMQConnect].
  - unfold ConError. pose proof (decision_budget rs Hf Hb) as Hd.
    destruct (should_stop rs); intros [= <- <- <- <- <-].
    + repeat split; done || lia.
    + destruct Hd as (? & ? & ?). repeat split; done || lia.
  - unfold gotConnection_mongo.
    destruct (connect_mongo mongo rs m) as [ [[up m1] rest] | ] eqn:Hc;
      [ | done ].
    assert (Hm1 : (0 <= m1 <= m)%Z).
    { clear -Hc Hf Hm. destruct mongo as [ | a0 mongo ]; [ done | ].
      cbn [connect_mongo] in Hc. revert Hc Hm.
      generalize (_connect_to_mongo a0). revert m.
      induction mongo as [ | a1 mongo IH ]; intros m up0.
      - cbn [mongo_retry]. rewrite Hf, orb_false_r.
        destruct (negb up0 && _ && _); [ done | intros [= <- <- <-]; lia ].
      - cbn [mongo_retry]. rewrite Hf, orb_false_r.
        destruct (negb up0 && RETRY_ON_CONNECTION_ERROR rs) eqn:E;
          cbn [andb]; [ | intros [= <- <- <-]; lia ].
        case_bool_decide as Hpos; [ | intros [= <- <- <-]; lia ].
        intros Hc Hm. apply IH in Hc; lia. }
    destruct up.
    + unfold gotConnection.
      destruct (consume cfg queue db []) as [[db1 acked1] [ | e ]].
      * intros [= <- <- <- <- <-]. repeat split; done || lia.
      * destruct (handle_budget e rs) as [Hhb Hhf].
        pose proof (decision_budget (handle e rs)) as Hd.
        rewrite Hhb, Hhf in Hd. specialize (Hd Hf Hb).
        destruct (should_stop (handle e rs)); intros [= <- <- <- <- <-].
        -- rewrite Hhb, Hhf. repeat split; done || lia.
        -- destruct Hd as (? & ? & ?). repeat split; done || lia.
    + intros [= <- <- <- <- <-]. repeat split; done || lia.
Qed.

Lemma reactor_run_budget connections : forall db rs m db' acked rs' m' actions,
  RETRY_FOREVER rs = false ->
  (0 <= amqp_broker_max_retries rs)%Z -> (0 <= m)%Z ->
  reactor_run cfg connections db rs m = Some (db', acked, rs', m', actions) ->
  (Z.of_nat (reconnects actions) + amqp_broker_max_retries rs'
   = amqp_broker_max_retries rs)%Z
  /\ (0 <= amqp_broker_max_retries rs')%Z /\ (0 <= m' <= m)%Z.
Proof.
  induction connections as [ | c connections IH ];
    intros db rs m db' acked rs' m' actions Hf Hb Hm.
  - intros [= <- <- <- <- <-]. simpl. lia.
  - cbn [reactor_run].
    destruct (rabbitMQConnect cfg c db rs m)
      as [ [[[[db1 acked1] rs1] m1] a] | ] eqn:Hc; [ | done ].
    apply rabbitMQConnect_budget in Hc as (Hf1 & Hb1 & Hm1 & Hrs1); try done.
    destruct a as [ [ | ] | ].
    + intros [= <- <- <- <- <-]. simpl. lia.
    + destruct (reactor_run cfg connections db1 rs1 m1)
        as [ [[[[db2 acked2] rs2] m2] actions2] | ] eqn:Hrun; [ | done ].
      intros [= <- <- <- <- <-].
      apply IH in Hrun as (Hsum & Hb2 & Hm2); [ | done | done | lia ].
      cbn [reconnects]. lia.
    + intros [= <- <- <- <- <-]. simpl. lia.
Qed.

(** X12.  The retry budget is spent over the whole life of the reactor and
    never refilled.  Started with [max_retries = N > 0], whatever the
    connections do (fail to come up, or come up and end in an exception of
    the consumer loop, however many messages were stored in between, and
    whatever the store answers), every reconnect that was scheduled took
    one from [amqp_broker_max_retries], which never goes below zero: a
    run schedules at most [N] reconnects.  The budget of the store
    connection only goes down as well. *)
Theorem reconnects_within_budget (N : Z) (retry : bool) connections db
    db' acked rs' m' actions :
  (0 < N)%Z ->
  reactor_run cfg connections db (init_retry retry N) N
  = Some (db', acked, rs', m', actions) ->
  (Z.of_nat (reconnects actions) + amqp_broker_max_retries rs' = N)%Z
  /\ (0 <= amqp_broker_max_retries rs')%Z
  /\ (Z.of_nat (reconnects actions) <= N)%Z
  /\ (0 <= m' <= N)%Z.
Proof.
  intros HN Hrun.
  apply reactor_run_budget in Hrun as (Hsum & Hb & Hm).
  - cbn [init_retry amqp_broker_max_retries] in Hsum. lia.
  - simpl. apply bool_decide_eq_false_2. lia.
  - simpl. lia.
  - lia.
Qed.
End RunBudget.

Lemma reconnects_within_budget_witness :
  let rs' := {| RETRY_ON_CONNECTION_ERROR := true;
                amqp_broker_max_retries := 0;
                RETRY_FOREVER := false |} in
  let actions := [ callLater_rabbitMQConnect; callLater_rabbitMQConnect;
                   StopReactor ] in
  (Z.of_nat (reconnects actions) + amqp_broker_max_retries rs' = 2)%Z
  /\ (0 <= amqp_broker_max_retries rs')%Z
  /\ (Z.of_nat (reconnects actions) <= 2)%Z
  /\ (0 <= 1 <= 2)%Z.
Proof.
  apply (reconnects_within_budget (lib := stub_library) a_config 2 true
           [ ConnectionFails;
             ConnectionMade [VBool false; VBool true]
               [ Delivered (dlr_message 1 "m1" "DELIVRD") "10:00:01";
                 QueueRaises ConnectionClosed ];
             ConnectionFails; ConnectionFails ] ∅
           (store_of (on_dlr_thrower a_config "10:00:01"
                        (dlr_message 1 "m1" "DELIVRD") ∅))
           [1%Z]).
  - lia.
  - reflexivity.
Defined.

(** ** EventRouter: what a submission stores *)

Section SubmissionRecord.
Context {lib : Library} (cfg : config).
Implicit Types (msg : message) (db : store) (d h : dict) (k : key).

Lemma hexlify_length (b : list byte) :
  length (hexlify b) = (2 * length b)%nat.
Proof.
  unfold hexlify. induction b as [ | x b IH ]; [ done | ].
  cbn [flat_map app length]. rewrite IH. lia.
Qed.

Lemma submit_log_data_content created_at prio source route dst src sdt vp dc
    validity st pages raw bill log_data :
  submit_log_data cfg created_at prio source route dst src sdt vp dc
    validity st pages raw bill = Ok log_data ->
  dict_get (KStr "short_message") log_data
  = Some (if LOGGER_PRIVACY cfg then private_bytes (length raw)
          else VBytes raw)
  /\ dict_get (KStr "binary_message") log_data
     = Some (if LOGGER_PRIVACY cfg then private_bytes (2 * length raw)
             else VBytes (hexlify raw))
  /\ dict_get (KStr "route") log_data = Some (VStr route)
  /\ log_data.*1
     = KStr <$> [ "created_at"; "priority"; "source"; "route";
                  "destination_addr"; "source_addr";
                  "schedule_delivery_time"; "validity_period";
                  "data_coding"; "validity"; "status"; "page_count";
                  "short_message"; "binary_message";
                  "short_message_decoded"; "bill" ].
Proof.
  unfold submit_log_data. intros (n & Hn & [= <-])%bind_Ok.
  rewrite hexlify_length. done.
Qed.

(** X13.  The content fields of a stored submission.  With privacy off
    the record holds the reassembled bytes and their hex form; with
    privacy on it holds neither: [short_message] is the placeholder with
    the byte count, [binary_message] the placeholder with twice that count
    (the length of the hex form), [short_message_decoded] a placeholder
    with a character count. *)
Theorem content_fields_of_record msg log_data user_id user_data pdu raw pages :
  submit_records cfg msg = Ok (log_data, user_id, user_data) ->
  loads_pdu (body msg) = Some pdu ->
  reassemble pdu = Ok (raw, pages) ->
  dict_get (KStr "short_message") log_data
  = Some (if LOGGER_PRIVACY cfg then private_bytes (length raw)
          else VBytes raw)
  /\ dict_get (KStr "binary_message") log_data
     = Some (if LOGGER_PRIVACY cfg then private_bytes (2 * length raw)
             else VBytes (hexlify raw))
  /\ (LOGGER_PRIVACY cfg = true ->
      exists n, dict_get (KStr "short_message_decoded") log_data
                = Some (private_chars n)).
Proof.
  intros Hrec Hpdu Hre.
  apply submit_records_Ok in Hrec
    as (created_at & source & pdu' & dst & src & validity & raw' & pages'
        & billing & bill & ld & Hpdu' & Hre' & _ & _ & Hld & Hld' & _ & _).
  rewrite Hpdu in Hpdu'. injection Hpdu' as <-.
  rewrite Hre in Hre'. injection Hre' as <- <-.
  pose proof Hld as (Hk1 & Hk2 & _ & _)%submit_log_data_content.
  apply submit_log_data_Ok in Hld as (Hclean & _ & _ & Hk3 & _).
  apply sanitize_doc_clean in Hld' as [_ Hget]; [ | done ].
  destruct (Hget _ _ Hk1) as (v1 & Hv1 & Hs1).
  destruct (Hget _ _ Hk2) as (v2 & Hv2 & Hs2).
  destruct (Hget _ _ Hk3) as (v3 & Hv3 & Hs3).
  apply sanitize_scalar in Hs1; [ | by destruct (LOGGER_PRIVACY cfg) ].
  apply sanitize_scalar in Hs2; [ | by destruct (LOGGER_PRIVACY cfg) ].
  split; [ | split ].
  - rewrite Hv1, Hs1. by destruct (LOGGER_PRIVACY cfg).
  - rewrite Hv2, Hs2. by destruct (LOGGER_PRIVACY cfg).
  - intros Hp. rewrite Hp in Hs3. apply sanitize_scalar in Hs3; [ | done ].
    eexists. by rewrite Hv3, Hs3.
Qed.

(** X14.  The fields of a stored submission.  Whatever the message, the
    record handed to the store has the same sixteen fields in the same
    order, its [bill] the same fifteen, and the user record the same two;
    [route] is the routing key without its first ten characters. *)
Theorem record_field_names msg log_data user_id user_data :
  submit_records cfg msg = Ok (log_data, user_id, user_data) ->
  log_data.*1
  = KStr <$> [ "created_at"; "priority"; "source"; "route";
               "destination_addr"; "source_addr"; "schedule_delivery_time";
               "validity_period"; "data_coding"; "validity"; "status";
               "page_count"; "short_message"; "binary_message";
               "short_message_decoded"; "bill" ]
  /\ user_data.*1
     = KStr <$> [ "mt_messaging_cred quota balance";
                  "mt_messaging_cred quota sms_count" ]
  /\ dict_get (KStr "route") log_data
     = Some (VStr (str_drop 10 (routing_key msg)))
  /\ exists bill,
       dict_get (KStr "bill") log_data = Some (VDict bill)
       /\ bill.*1
          = KStr <$> [ "_id"; "user"; "source_connector"; "routed_cid";
                       "created_at"; "priority"; "destination_addr";
                       "source_addr"; "schedule_delivery_time";
                       "validity_period"; "page_count"; "amount_rate";
                       "amount_charge"; "sms_count_rate";
                       "sms_count_charge" ]
       /\ dict_get (KStr "routed_cid") bill
          = Some (VStr (str_drop 10 (routing_key msg))).
Proof.
  intros Hrec.
  apply submit_records_Ok in Hrec
    as (created_at & source & pdu & dst & src & validity & raw & pages
        & billing & bill & ld & _ & _ & _ & Hbill & Hld & Hld' & Hud' & _).
  pose proof Hld as (_ & _ & Hroute & Hkeys)%submit_log_data_content.
  apply submit_log_data_Ok in Hld as (Hclean & _ & _ & _ & Hk).
  apply sanitize_doc_clean in Hld' as [Hkeys' Hget]; [ | done ].
  apply sanitize_doc_clean in Hud' as [Hukeys _]; [ | by apply forallb_Forall ].
  destruct (Hget _ _ Hroute) as (r & Hr & Hsr).
  apply sanitize_scalar in Hsr; [ | done ].
  destruct (Hget _ _ Hk) as (v & Hv & Hs).
  apply sanitize_dict in Hs as (bill' & -> & Hbill').
  pose proof Hbill as (Hbclean & _)%build_bill_Ok.
  apply sanitize_doc_clean in Hbill' as [Hbkeys Hbget]; [ | done ].
  unfold build_bill in Hbill.
  apply bind_Ok in Hbill as (charge & _ & [= <-]).
  destruct (Hbget (KStr "routed_cid") (VStr (str_drop 10 (routing_key msg))))
    as (c & Hc & Hsc); [ done | ].
  apply sanitize_scalar in Hsc; [ | done ].
  split; [ by rewrite Hkeys', Hkeys | ].
  split; [ by rewrite Hukeys | ].
  split; [ by rewrite Hr, Hsr | ].
  exists bill'. split; [ done | split ].
  - by rewrite Hbkeys.
  - by rewrite Hc, Hsc.
Qed.
End SubmissionRecord.

Lemma content_fields_of_record_witness :
  dict_get (KStr "short_message") private_records.1.1
  = Some (if LOGGER_PRIVACY private_config
          then private_bytes (length [x41; x42; x43; x44])
          else VBytes [x41; x42; x43; x44])
  /\ dict_get (KStr "binary_message") private_records.1.1
     = Some (if LOGGER_PRIVACY private_config
             then private_bytes (2 * length [x41; x42; x43; x44])
             else VBytes (hexlify [x41; x42; x43; x44]))
  /\ (LOGGER_PRIVACY private_config = true ->
      exists n, dict_get (KStr "short_message_decoded") private_records.1.1
                = Some (private_chars n)).
Proof.
  apply (content_fields_of_record (lib := stub_library) private_config
           (submit_message 1 "m1" [x02]) private_records.1.1 "u1"
           private_records.2 two_part_pdu [x41; x42; x43; x44] 2).
  - vm_compute. reflexivity.
  - reflexivity.
  - reflexivity.
Defined.

Lemma record_field_names_witness :
  plain_records.1.1.*1
  = KStr <$> [ "created_at"; "priority"; "source"; "route";
               "destination_addr"; "source_addr"; "schedule_delivery_time";
               "validity_period"; "data_coding"; "validity"; "status";
               "page_count"; "short_message"; "binary_message";
               "short_message_decoded"; "bill" ]
  /\ plain_records.2.*1
     = KStr <$> [ "mt_messaging_cred quota balance";
                  "mt_messaging_cred quota sms_count" ]
  /\ dict_get (KStr "route") plain_records.1.1
     = Some (VStr (str_drop 10 (routing_key (submit_message 1 "m1" [x02]))))
  /\ exists bill,
       dict_get (KStr "bill") plain_records.1.1 = Some (VDict bill)
       /\ bill.*1
          = KStr <$> [ "_id"; "user"; "source_connector"; "routed_cid";
                       "created_at"; "priority"; "destination_addr";
                       "source_addr"; "schedule_delivery_time";
                       "validity_period"; "page_count"; "amount_rate";
                       "amount_charge"; "sms_count_rate";
                       "sms_count_charge" ]
       /\ dict_get (KStr "routed_cid") bill
          = Some (VStr (str_drop 10
                          (routing_key (submit_message 1 "m1" [x02])))).
Proof.
  apply (record_field_names (lib := stub_library) a_config
           (submit_message 1 "m1" [x02]) plain_records.1.1 "u1"
           plain_records.2).
  vm_compute. reflexivity.
Defined.

(** ** EventRouter: a delivery receipt and an acknowledgement *)

Section ReceiptEntry.
Context {lib : Library} (cfg : config).
Implicit Types (msg : message) (db : store) (h e : dict) (k : key).

(** X15.  The entry built from the headers of a delivery receipt.  Its
    [created_at] is the reading of the clock, also when the headers carry
    one; every field but [created_at] and [text] is the header's.  With
    privacy off [text] is the header's as well; with privacy on a text
    that is a non-empty string is replaced by the placeholder with its
    length, and an absent, null or empty text is left as it is. *)
Theorem dlr_entry_fields now h e :
  dlr_entry cfg now h = Ok e ->
  dict_get (KStr "created_at") e = Some (VStr now)
  /\ (forall k, k <> KStr "created_at" -> k <> KStr "text" ->
        dict_get k e = dict_get k h)
  /\ (LOGGER_PRIVACY cfg = false ->
      dict_get (KStr "text") e = dict_get (KStr "text") h)
  /\ (LOGGER_PRIVACY cfg = true ->
      match dict_get (KStr "text") h with
      | Some (VStr s) =>
          dict_get (KStr "text") e
          = Some (if decide (s = "") then VStr ""
                  else private_chars (String.length s))
      | Some VNone => dict_get (KStr "text") e = Some VNone
      | None => dict_get (KStr "text") e = None
      | Some _ => True
      end).
Proof.
  unfold dlr_entry.
  set (stamped := dict_set (KStr "created_at") (VStr now) h).
  assert (Hstamp : dict_get (KStr "created_at") stamped = Some (VStr now))
    by apply dict_get_set_eq.
  assert (Hother : forall k, k <> KStr "created_at" ->
            dict_get k stamped = dict_get k h).
  { intros k Hk. by apply dict_get_set_ne. }
  assert (Htext : dict_get (KStr "text") stamped = dict_get (KStr "text") h)
    by by apply Hother.
  destruct (LOGGER_PRIVACY cfg).
  - rewrite Htext.
    assert (Hplain : Ok stamped = Ok e ->
              dict_get (KStr "created_at") e = Some (VStr now)
              /\ (forall k, k <> KStr "created_at" -> k <> KStr "text" ->
                    dict_get k e = dict_get k h)
              /\ dict_get (KStr "text") e = dict_get (KStr "text") h).
    { intros [= <-]. split; [ done | split; [ | done ] ].
      intros k Hk _. by apply Hother. }
    assert (Hset : forall n,
              Ok (dict_set (KStr "text") (private_chars n) stamped) = Ok e ->
              dict_get (KStr "created_at") e = Some (VStr now)
              /\ (forall k, k <> KStr "created_at" -> k <> KStr "text" ->
                    dict_get k e = dict_get k h)
              /\ dict_get (KStr "text") e = Some (private_chars n)).
    { intros n [= <-]. split; [ | split ].
      - by rewrite dict_get_set_ne.
      - intros k Hk Hk'. rewrite dict_get_set_ne by done. by apply Hother.
      - apply dict_get_set_eq. }
    destruct (dict_get (KStr "text") h) as [ [ | b | x | s | b | l | d ] | ];
      cbn [default from_option id].
    + intros (H1 & H2 & H3)%Hplain. by rewrite H3.
    + done.
    + done.
    + destruct s as [ | c s ].
      * intros (H1 & H2 & H3)%Hplain. by rewrite H3.
      * cbn [py_len mbind result_bind]. intros (H1 & H2 & H3)%Hset.
        by rewrite H3.
    + cbn [py_len mbind result_bind]. by intros (H1 & H2 & H3)%Hset.
    + cbn [py_len mbind result_bind]. by intros (H1 & H2 & H3)%Hset.
    + cbn [py_len mbind result_bind]. by intros (H1 & H2 & H3)%Hset.
    + intros (H1 & H2 & H3)%Hplain. by rewrite H3.
  - intros [= <-]. split; [ done | split; [ | done ] ].
    intros k Hk _. by apply Hother.
Qed.
End ReceiptEntry.

Lemma dlr_entry_fields_witness :
  let e :=
    dict_set (KStr "text") (private_chars 17)
      (dict_set (KStr "created_at") (VStr "10:00:01") receipt_headers) in
  dict_get (KStr "created_at") e = Some (VStr "10:00:01")
  /\ (forall k, k <> KStr "created_at" -> k <> KStr "text" ->
        dict_get k e = dict_get k receipt_headers)
  /\ (true = false ->
      dict_get (KStr "text") e = dict_get (KStr "text") receipt_headers)
  /\ (true = true ->
      dict_get (KStr "text") e
      = Some (if decide ("id:7 stat:DELIVRD" = "") then VStr ""
              else private_chars (String.length "id:7 stat:DELIVRD"))).
Proof.
  apply (dlr_entry_fields private_config "10:00:01" receipt_headers).
  reflexivity.
Defined.

(** ** EventRouter: messages that are stored *)

Section Recorded.
Context {lib : Library} (cfg : config).
Implicit Types (msg : message) (db : store) (h : dict) (k : key).

Lemma reassemble_total pdu :
  Forall (fun f => is_Some (short_message (params f))) (chain pdu) ->
  exists raw pages, reassemble pdu = Ok (raw, pages).
Proof.
  intros Hall. pose proof Hall as Hfirst. destruct pdu as [p st next].
  cbn [chain] in Hfirst. apply Forall_cons in Hfirst as [[sm Hsm] _].
  cbn [params] in Hsm. unfold reassemble, splitMethod, short_message_bytes.
  cbn [params]. rewrite Hsm.
  assert (Hsplit : forall m, exists raw pages,
            concat_next m {| params := p; status := st; nextPdu := next |}
              (fragment_part m sm) 1 = Ok (raw, pages)).
  { intros m. rewrite (concat_next_chain m _ _ _ Hall). by eexists _, _. }
  case_bool_decide; cbn [mbind result_bind]; [ apply Hsplit | ].
  destruct (udhi_indicator_set p); cbn [mbind result_bind];
    [ | by eexists _, _ ].
  case_bool_decide; cbn [mbind result_bind]; [ apply Hsplit | by eexists _, _ ].
Qed.

Lemma wf_header h (name : string) :
  wf (VDict h) = true -> wf (default VNone (dict_get (KStr name) h)) = true.
Proof.
  intros [_ Hall]%andb_true_iff.
  destruct (dict_get (KStr name) h) as [ v | ] eqn:Hv; [ | done ].
  apply dict_get_Some in Hv. apply forallb_Forall in Hall.
  rewrite Forall_forall in Hall. by apply (Hall (KStr name, v)).
Qed.

(** X16.  A submission that is recorded.  When the message has headers,
    a body that unpickles to a chain every fragment of which has a
    [short_message], addresses that decode, and a bill that unpickles and
    has a [submit_sm_count] decrement, then building the two records raises
    nothing, whatever the data coding, the split method and the privacy
    setting, and whatever documents (with distinct keys, as Python's are)
    the headers, the PDU and the bill hold: both records are handed to the
    store. *)
Theorem wellformed_submission_recorded msg h pdu dst src billing count :
  headers msg = Some h -> wf (VDict h) = true -> wf (priority msg) = true ->
  loads_pdu (body msg) = Some pdu ->
  decode_addr (destination_addr (params pdu)) = Ok dst ->
  decode_addr (source_addr (params pdu)) = Ok src ->
  wf (schedule_delivery_time (params pdu)) = true ->
  wf (validity_period (params pdu)) = true ->
  Forall (fun f => is_Some (short_message (params f))) (chain pdu) ->
  load_billing (headers msg) = Ok billing -> Bill_wf billing = true ->
  decrement_submit_sm_count billing = Some count ->
  exists log_data user_data,
    submit_records cfg msg = Ok (log_data, user_uid billing, user_data)
    /\ forall db,
         on_submit_sm cfg msg db
         = Ok (update_one (MONGO_USER_COLLECTION cfg) (user_uid billing)
                 user_data
                 (update_one (MONGO_LOG_COLLECTION cfg) (message_id msg)
                    log_data db)).
Proof.
  intros Hh Hwfh Hprio Hpdu Hdst Hsrc Hsdt Hvp Hall Hbilling Hbwf Hcount.
  destruct (reassemble_total pdu Hall) as (raw & pages & Hre).
  unfold Bill_wf in Hbwf.
  apply andb_true_iff in Hbwf as [Hbwf Hw5].
  apply andb_true_iff in Hbwf as [Hbwf Hw4].
  apply andb_true_iff in Hbwf as [Hbwf Hw3].
  apply andb_true_iff in Hbwf as [Hw1 Hw2].
  pose proof (wf_header h "created_at" Hwfh) as Hc.
  pose proof (wf_header h "source_connector" Hwfh) as Hs.
  pose proof (wf_header h "expiration" Hwfh) as He.
  assert (Hud : exists user_data,
            sanitize_doc (submit_user_data billing) = Ok user_data).
  { apply sanitize_doc_total. unfold submit_user_data.
    cbn [wf forallb fmap list_fmap fst snd].
    rewrite Hw4, Hw5. cbn [andb]. rewrite andb_true_r.
    by apply bool_decide_eq_true_2, NoDup_keys. }
  destruct Hud as [user_data Hud].
  assert (Hrec : exists log_data,
            submit_records cfg msg = Ok (log_data, user_uid billing, user_data)).
  { unfold submit_records. rewrite Hh. cbn [headers_get mbind result_bind].
    unfold pickle_loads_pdu. rewrite Hpdu. cbn [mbind result_bind].
    rewrite Hdst. cbn [mbind result_bind].
    rewrite Hsrc. cbn [mbind result_bind].
    rewrite Hre. cbn [mbind result_bind].
    rewrite Hh in Hbilling. rewrite Hbilling. cbn [mbind result_bind].
    unfold build_bill. rewrite Hcount. cbn [mbind result_bind].
    unfold submit_log_data.
    assert (Hlen : exists n,
              py_len (short_message_decoded (data_coding (params pdu)) raw)
              = Ok n).
    { unfold short_message_decoded.
      destruct (data_coding (params pdu)); [ | by eexists ].
      repeat case_bool_decide; by eexists. }
    destruct Hlen as [n ->]. cbn [mbind result_bind].
    match goal with
    | |- context [ sanitize_doc ?d ≫= _ ] =>
        destruct (sanitize_doc_total d) as [log_data Hld]
    end.
    { cbn [wf forallb fmap list_fmap fst snd].
      rewrite Hc, Hs, He, Hprio, Hsdt, Hvp, Hw1, Hw2, Hw3, Hw4, Hw5.
      assert (Hcontent :
        wf (if LOGGER_PRIVACY cfg then private_bytes (length raw)
            else VBytes raw) = true
        /\ wf (if LOGGER_PRIVACY cfg
               then private_bytes (length (hexlify raw))
               else VBytes (hexlify raw)) = true
        /\ wf (if LOGGER_PRIVACY cfg then private_chars n
               else short_message_decoded (data_coding (params pdu)) raw)
           = true).
      { destruct (LOGGER_PRIVACY cfg); [ done | ].
        split; [ done | split; [ done | ] ]. unfold short_message_decoded.
        destruct (data_coding (params pdu)); [ | done ].
        by repeat case_bool_decide. }
      destruct Hcontent as (-> & -> & ->).
      assert (Hdc : wf (data_coding_value (data_coding (params pdu))) = true)
        by by destruct (data_coding (params pdu)).
      rewrite Hdc. cbn [andb wf].
      rewrite !andb_true_r.
      repeat (apply andb_true_iff; split);
        by apply bool_decide_eq_true_2, NoDup_keys. }
    rewrite Hld. cbn [mbind result_bind]. rewrite Hud.
    cbn [mbind result_bind]. by exists log_data. }
  destruct Hrec as [log_data Hrec]. exists log_data, user_data.
  split; [ done | ]. intros db. apply on_submit_sm_Ok.
  by exists log_data, (user_uid billing), user_data.
Qed.
End Recorded.

Lemma wellformed_submission_recorded_witness :
  exists log_data user_data,
    submit_records (lib := stub_library) a_config (submit_message 1 "m1" [x02])
    = Ok (log_data, user_uid a_bill, user_data)
    /\ forall db,
         on_submit_sm (lib := stub_library) a_config
           (submit_message 1 "m1" [x02]) db
         = Ok (update_one (MONGO_USER_COLLECTION a_config) (user_uid a_bill)
                 user_data
                 (update_one (MONGO_LOG_COLLECTION a_config)
                    (message_id (submit_message 1 "m1" [x02])) log_data db)).
Proof.
  apply (wellformed_submission_recorded (lib := stub_library) a_config
           (submit_message 1 "m1" [x02])
           [ (KStr "created_at", VStr "2024-05-01 10:00:00");
             (KStr "source_connector", VStr "httpapi");
             (KStr "submit_sm_bill", VBytes [x0b]) ]
           two_part_pdu "4915100000" "JASMIN" a_bill (NInt 1));
    try reflexivity.
  repeat constructor; by eexists.
Defined.

Section Acknowledgement.
Context {lib : Library} (cfg : config).
Implicit Types (msg : message) (db : store) (h : dict).

(** X17.  An acknowledgement.  A message whose routing key starts with
    [submit.sm.resp.] is never taken for a submission, although it starts
    with [submit.sm.] as well.  When it has headers and its body unpickles,
    one record goes to the store, under the message id in the log
    collection: an [ack] with the name of the PDU status and the
    [created_at] header, the string [None] when the header is absent or
    null. *)
Theorem acknowledgement_record now msg db h pdu :
  str_take 15 (routing_key msg) = "submit.sm.resp." ->
  headers msg = Some h -> loads_pdu (body msg) = Some pdu ->
  is_container (default VNone (dict_get (KStr "created_at") h)) = false ->
  process_message cfg now msg db
  = Ok (update_one (MONGO_LOG_COLLECTION cfg) (message_id msg)
          [ (KStr "ack",
              VDict [ (KStr "created_at",
                        match default VNone (dict_get (KStr "created_at") h) with
                        | VNone => VStr "None"
                        | created_at => created_at
                        end);
                      (KStr "status", VStr (status pdu)) ]) ] db).
Proof.
  intros Hkey Hh Hpdu Hc. unfold process_message.
  rewrite (bool_decide_eq_true_2 (str_take 15 _ = _)) by done.
  cbn [negb]. rewrite andb_false_r.
  unfold on_submit_sm_resp, pickle_loads_pdu.
  rewrite Hh, Hpdu. cbn [headers_get mbind result_bind].
  by destruct (default VNone (dict_get (KStr "created_at") h)).
Qed.
End Acknowledgement.

Lemma acknowledgement_record_witness :
  process_message (lib := stub_library) a_config "10:00:05"
    {| routing_key := "submit.sm.resp.smppc1";
       delivery_tag := 4;
       headers := Some [ (KStr "created_at", VNone) ];
       message_id := "m1";
       priority := VNone;
       body := [x01] |} ∅
  = Ok (update_one "logs" "m1"
          [ (KStr "ack",
              VDict [ (KStr "created_at", VStr "None");
                      (KStr "status", VStr "ESME_ROK") ]) ] ∅).
Proof.
  apply (acknowledgement_record (lib := stub_library) a_config "10:00:05"
           {| routing_key := "submit.sm.resp.smppc1";
              delivery_tag := 4;
              headers := Some [ (KStr "created_at", VNone) ];
              message_id := "m1";
              priority := VNone;
              body := [x01] |} ∅
           [ (KStr "created_at", VNone) ] (fragment [x48; x69] None None));
    reflexivity.
Defined.

(** ** EventRouter: the documents an event touches *)

Section Touched.
Context {lib : Library} (cfg : config).
Implicit Types (msg : message) (db : store) (h : dict).

Lemma update_one_other module sub_id data db c id :
  (c, id) <> (module, sub_id) ->
  get_one_submodule c id (update_one module sub_id data db)
  = get_one_submodule c id db.
Proof.
  intros Hne. unfold get_one_submodule, update_one.
  by rewrite lookup_insert_ne.
Qed.

(** X18.  An event touches the documents of its own message only.  When
    the processing of a message returns, every document of the store is as
    it was, but for the document of the message id in the log collection
    and, for a submission, the document of the billed user in the user
    collection. *)
Theorem event_touches_own_documents now msg db db' c id :
  process_message cfg now msg db = Ok db' ->
  (c, id) <> (MONGO_LOG_COLLECTION cfg, message_id msg) ->
  (forall billing, load_billing (headers msg) = Ok billing ->
     (c, id) <> (MONGO_USER_COLLECTION cfg, user_uid billing)) ->
  get_one_submodule c id db' = get_one_submodule c id db.
Proof.
  intros Hrun Hlog Huser. unfold process_message in Hrun.
  destruct (_ && _).
  - apply on_submit_sm_Ok in Hrun as (ld & uid & ud & Hrec & ->).
    apply submit_records_Ok in Hrec
      as (created_at & source & pdu & dst & src & validity & raw & pages
          & billing & bill & ld0 & _ & _ & Hbilling & _ & _ & _ & _ & ->).
    rewrite !update_one_other; [ done | done | by apply Huser ].
  - case_bool_decide.
    + unfold on_submit_sm_resp in Hrun.
      apply bind_Ok in Hrun as (created_at & _ & Hrun).
      apply bind_Ok in Hrun as (pdu & _ & Hrun).
      apply bind_Ok in Hrun as (data & _ & [= <-]).
      by rewrite update_one_other.
    + case_bool_decide; [ | by injection Hrun as <- ].
      unfold on_dlr_thrower in Hrun.
      apply bind_Ok in Hrun as (level & _ & Hrun).
      apply bind_Ok in Hrun as (dlr & _ & Hrun).
      destruct (dict_pop_default _ _ _) as [qmsgDlrs rest].
      apply bind_Ok in Hrun as (l & _ & Hrun).
      apply bind_Ok in Hrun as (data & _ & [= <-]).
      by rewrite update_one_other.
Qed.
End Touched.

Lemma event_touches_own_documents_witness :
  get_one_submodule "logs" "m2"
    (store_of (process_message (lib := stub_library) a_config "10:00:00"
                 (submit_message 1 "m1" [x02])
                 (store_of (on_dlr_thrower a_config "09:00:00"
                              (dlr_message 0 "m2" "DELIVRD") ∅))))
  = get_one_submodule "logs" "m2"
      (store_of (on_dlr_thrower a_config "09:00:00"
                   (dlr_message 0 "m2" "DELIVRD") ∅)).
Proof.
  apply (event_touches_own_documents (lib := stub_library) a_config
           "10:00:00" (submit_message 1 "m1" [x02])).
  - reflexivity.
  - simpl. congruence.
  - intros billing [= <-]. simpl. congruence.
Defined.

Section RecordsAgree.
Context {lib : Library} (cfg : config).
Implicit Types (msg : message) (db : store) (h : dict).

(** X19.  The two records of a submission agree.  The user record is
    stored under the [_id] of the user in the bill of the log record, and
    its two quota fields hold the values the log record has under
    [bill.user.quota], both after sanitization. *)
Theorem user_record_agrees_with_bill msg log_data user_id user_data :
  submit_records cfg msg = Ok (log_data, user_id, user_data) ->
  exists bill user quota balance count,
    dict_get (KStr "bill") log_data = Some (VDict bill)
    /\ dict_get (KStr "user") bill = Some (VDict user)
    /\ dict_get (KStr "_id") user = Some (VStr user_id)
    /\ dict_get (KStr "quota") user = Some (VDict quota)
    /\ dict_get (KStr "balance") quota = Some balance
    /\ dict_get (KStr "submit_sm_count") quota = Some count
    /\ dict_get (KStr "mt_messaging_cred quota balance") user_data
       = Some balance
    /\ dict_get (KStr "mt_messaging_cred quota sms_count") user_data
       = Some count.
Proof.
  intros Hrec.
  apply submit_records_Ok in Hrec
    as (created_at & source & pdu & dst & src & validity & raw & pages
        & billing & bill0 & ld & _ & _ & _ & Hbill & Hld & Hld' & Hud' & ->).
  apply submit_log_data_Ok in Hld as (Hclean & _ & _ & _ & Hk).
  apply sanitize_doc_clean in Hld' as [_ Hget]; [ | done ].
  destruct (Hget _ _ Hk) as (v & Hv & Hs).
  apply sanitize_dict in Hs as (bill & -> & Hbill').
  pose proof Hbill as (Hbclean & _)%build_bill_Ok.
  unfold build_bill in Hbill. apply bind_Ok in Hbill as (charge & _ & [= <-]).
  apply sanitize_doc_clean in Hbill' as [_ Hbget]; [ | done ].
  edestruct (Hbget (KStr "user")) as (u & Hu & Hsu); [ reflexivity | ].
  apply sanitize_dict in Hsu as (user & -> & Huser').
  apply sanitize_doc_clean in Huser' as [_ Huget]; [ | by apply forallb_Forall ].
  edestruct (Huget (KStr "_id")) as (i & Hi & Hsi); [ reflexivity | ].
  apply sanitize_scalar in Hsi; [ | done ]. subst i.
  edestruct (Huget (KStr "quota")) as (q & Hq & Hsq); [ reflexivity | ].
  apply sanitize_dict in Hsq as (quota & -> & Hquota').
  apply sanitize_doc_clean in Hquota' as [_ Hqget]; [ | by apply forallb_Forall ].
  edestruct (Hqget (KStr "balance")) as (b & Hb & Hsb); [ reflexivity | ].
  edestruct (Hqget (KStr "submit_sm_count")) as (c & Hc & Hsc); [ reflexivity | ].
  apply sanitize_doc_clean in Hud' as [_ Hudget]; [ | by apply forallb_Forall ].
  edestruct (Hudget (KStr "mt_messaging_cred quota balance"))
    as (b' & Hb' & Hsb'); [ reflexivity | ].
  edestruct (Hudget (KStr "mt_messaging_cred quota sms_count"))
    as (c' & Hc' & Hsc'); [ reflexivity | ].
  rewrite Hsb in Hsb'. injection Hsb' as <-.
  rewrite Hsc in Hsc'. injection Hsc' as <-.
  by exists bill, user, quota, b, c.
Qed.
End RecordsAgree.

Lemma user_record_agrees_with_bill_witness :
  exists bill user quota balance count,
    dict_get (KStr "bill") plain_records.1.1 = Some (VDict bill)
    /\ dict_get (KStr "user") bill = Some (VDict user)
    /\ dict_get (KStr "_id") user = Some (VStr "u1")
    /\ dict_get (KStr "quota") user = Some (VDict quota)
    /\ dict_get (KStr "balance") quota = Some balance
    /\ dict_get (KStr "submit_sm_count") quota = Some count
    /\ dict_get (KStr "mt_messaging_cred quota balance") plain_records.2
       = Some balance
    /\ dict_get (KStr "mt_messaging_cred quota sms_count") plain_records.2
       = Some count.
Proof.
  apply (user_record_agrees_with_bill (lib := stub_library) a_config
           (submit_message 1 "m1" [x02]) plain_records.1.1 "u1"
           plain_records.2).
  vm_compute. reflexivity.
Defined.

(** ** DocumentSanitizer: the documents it leaves alone *)

Section FixedPoints.
Implicit Types (v : value).

(** X20.  The documents the sanitizer leaves as they are are exactly the
    documents that need no sanitizing: the two passes return a document
    unchanged if and only if no slot of it holds a null and every textual
    key of it, at any depth, is free of a leading [$], of [.] and of
    [-]. *)
Theorem sanitizer_fixed_points (data : value) :
  wf data = true ->
  (sanitize data = Ok data
   <-> keys_clean data = true /\ no_none data = true).
Proof.
  intros Hwf. unfold sanitize. split.
  - intros Hfix.
    assert (Hr : rewritten (replace_none data) data).
    { apply fix_keys_rewritten; [ by apply wf_replace_none | done ]. }
    split; [ by eapply rewritten_clean | ].
    eapply rewritten_no_none; [ exact Hr | apply replace_none_no_none ].
  - intros [Hclean Hnone].
    rewrite no_none_replace_none by done. by apply clean_fix_keys.
Qed.

Lemma sanitizer_fixed_points_witness :
  sanitize (VDict [ (KStr "a_b", VList [ VStr "None"; VNum (NInt 1) ]);
                    (KStr "dollar_set", VDict [ (KStr "x$y", VBool true) ]) ])
  = Ok (VDict [ (KStr "a_b", VList [ VStr "None"; VNum (NInt 1) ]);
                (KStr "dollar_set", VDict [ (KStr "x$y", VBool true) ]) ])
  <-> keys_clean
        (VDict [ (KStr "a_b", VList [ VStr "None"; VNum (NInt 1) ]);
                 (KStr "dollar_set", VDict [ (KStr "x$y", VBool true) ]) ])
      = true
      /\ no_none
           (VDict [ (KStr "a_b", VList [ VStr "None"; VNum (NInt 1) ]);
                    (KStr "dollar_set", VDict [ (KStr "x$y", VBool true) ]) ])
         = true.
Proof.
  apply (sanitizer_fixed_points
           (VDict [ (KStr "a_b", VList [ VStr "None"; VNum (NInt 1) ]);
                    (KStr "dollar_set",
                      VDict [ (KStr "x$y", VBool true) ]) ])).
  reflexivity.
Defined.
End FixedPoints.

(** ** BrokerSupervisor: failures of either kind *)

Section Exhaustion.
Context {lib : Library} (cfg : config).
Implicit Types (db : store) (queue : list delivery) (rs : retry_state).

Lemma failing_connection c db rs m :
  match c with
  | ConnectionFails => True
  | ConnectionMade mongo queue =>
      (exists rest, mongo = VBool true :: rest)
      /\ forall db, exists e,
           e <> KeyboardInterrupt /\ (consume cfg queue db []).2 = Raised e
  end ->
  exists db' acked,
    rabbitMQConnect cfg c db rs m
    = Some (db', acked, (ConError rs).1, m, Some (ConError rs).2).
Proof.
  destruct c as [ | mongo queue ].
  - intros _. exists db, []. cbn [rabbitMQConnect].
    by destruct (ConError rs).
  - intros [[rest ->] Hq]. destruct (Hq db) as (e & He & Hexit).
    cbn [rabbitMQConnect]. unfold gotConnection_mongo.
    cbn [connect_mongo _connect_to_mongo]. rewrite mongo_retry_connected.
    unfold gotConnection.
    destruct (consume cfg queue db []) as [[db' acked] exit].
    cbn [snd] in Hexit. subst exit. exists db', acked.
    assert (handle e rs = rs) as -> by by destruct e.
    unfold ConError. by destruct (should_stop rs).
Qed.

Lemma failures_exhaust (n : nat) : forall connections db rs m,
  RETRY_ON_CONNECTION_ERROR rs = true -> RETRY_FOREVER rs = false ->
  amqp_broker_max_retries rs = Z.of_nat n ->
  (n < length connections)%nat ->
  Forall (fun c =>
            match c with
            | ConnectionFails => True
            | ConnectionMade mongo queue =>
                (exists rest, mongo = VBool true :: rest)
                /\ forall db, exists e,
                     e <> KeyboardInterrupt
                     /\ (consume cfg queue db []).2 = Raised e
            end) connections ->
  exists db' acked rs',
    reactor_run cfg connections db rs m
    = Some (db', acked, rs', m,
            repeat callLater_rabbitMQConnect n ++ [StopReactor])
    /\ amqp_broker_max_retries rs' = 0%Z.
Proof.
  induction n as [ | n IH ]; intros connections db rs m Hretry Hf Hb Hlen Hall;
    (destruct connections as [ | c connections ]; [ simpl in Hlen; lia | ]);
    apply Forall_cons in Hall as [Hc Hall];
    destruct (failing_connection c db rs m Hc) as (db1 & acked1 & Hrun);
    cbn [reactor_run]; rewrite Hrun; unfold ConError, should_stop;
    rewrite Hretry, Hf, Hb; cbn [negb orb andb fst snd].
  - rewrite bool_decide_eq_true_2 by lia. cbn [andb fst snd].
    by exists db1, acked1, rs.
  - rewrite bool_decide_eq_false_2 by lia. cbn [andb fst snd].
    destruct (IH connections db1 (decrement_retry rs) m)
      as (db2 & acked2 & rs2 & Hrest & Hzero); try done.
    + cbn [decrement_retry amqp_broker_max_retries]. lia.
    + cbn [length] in Hlen. lia.
    + rewrite Hrest. by exists db2, (acked1 ++ acked2), rs2.
Qed.

(** X21.  Failures of either kind spend the same budget, and a connection
    that stood does not give any of it back.  Started with retries enabled
    and [max_retries = N > 0], when every connection either fails to come
    up or comes up, reaches the store at once and later loses its consumer
    loop to an exception other than [KeyboardInterrupt], the first [N]
    failures schedule a reconnect each and the next one calls
    [StopReactor], whatever was consumed in between. *)
Theorem failures_exhaust_budget (N : nat) connections db :
  (0 < N)%nat -> (N < length connections)%nat ->
  Forall (fun c =>
            match c with
            | ConnectionFails => True
            | ConnectionMade mongo queue =>
                (exists rest, mongo = VBool true :: rest)
                /\ forall db, exists e,
                     e <> KeyboardInterrupt
                     /\ (consume cfg queue db []).2 = Raised e
            end) connections ->
  exists db' acked rs',
    reactor_run cfg connections db (init_retry true (Z.of_nat N)) (Z.of_nat N)
    = Some (db', acked, rs', Z.of_nat N,
            repeat callLater_rabbitMQConnect N ++ [StopReactor])
    /\ amqp_broker_max_retries rs' = 0%Z.
Proof.
  intros HN Hlen Hall. apply failures_exhaust; try done.
  simpl. apply bool_decide_eq_false_2. lia.
Qed.
End Exhaustion.

Lemma failures_exhaust_budget_witness :
  exists db' acked rs',
    reactor_run (lib := stub_library) a_config
      [ ConnectionMade [VBool true]
          [ QueueRaises UnpicklingError ];
        ConnectionFails;
        ConnectionMade [VBool true; VBool false]
          [ QueueRaises ConnectionClosed ];
        ConnectionFails ]
      ∅ (init_retry true (Z.of_nat 2)) (Z.of_nat 2)
    = Some (db', acked, rs', Z.of_nat 2,
            repeat callLater_rabbitMQConnect 2 ++ [StopReactor])
    /\ amqp_broker_max_retries rs' = 0%Z.
Proof.
  apply (failures_exhaust_budget (lib := stub_library) a_config 2
           [ ConnectionMade [VBool true]
               [ QueueRaises UnpicklingError ];
             ConnectionFails;
             ConnectionMade [VBool true; VBool false]
               [ QueueRaises ConnectionClosed ];
             ConnectionFails ] ∅).
  - lia.
  - simpl. lia.
  - constructor.
    { split; [ by eexists | ]. intros db. by exists UnpicklingError. }
    constructor; [ done | ]. constructor.
    { split; [ by eexists | ]. intros db. by exists ConnectionClosed. }
    constructor; [ done | constructor ].
Defined.

(** ** EventRouter: a submission with a data coding, a further receipt *)

Section PresentDataCoding.
Context {lib : Library} (cfg : config).
Implicit Types (msg : message) (db : store).

(** X22.  A submission whose data coding is present.  The record handed
    to the store keeps the data coding as the number it is, and its
    [short_message_decoded] is text, never the bytes: the message decoded
    with errors replaced, as ASCII for the SMSC default alphabet and IA5,
    else as Latin-1 for LATIN_1, else as UTF-16BE for UCS2, else as UTF-8;
    with privacy on, the placeholder with the length of that text. *)
Theorem present_data_coding_record msg log_data user_id user_data pdu raw
    pages dc :
  submit_records cfg msg = Ok (log_data, user_id, user_data) ->
  loads_pdu (body msg) = Some pdu ->
  data_coding (params pdu) = Some dc ->
  reassemble pdu = Ok (raw, pages) ->
  dict_get (KStr "data_coding") log_data = Some (VNum (NInt dc))
  /\ exists c,
       dict_get (KStr "short_message_decoded") log_data
       = Some (if LOGGER_PRIVACY cfg
               then private_chars (String.length (decode_replace c raw))
               else VStr (decode_replace c raw))
       /\ c = (if bool_decide (dc ∈ [SMSC_DEFAULT_ALPHABET; IA5_ASCII])
               then Ascii
               else if bool_decide (dc = LATIN_1) then Latin1
               else if bool_decide (dc = UCS2) then Utf16be
               else Utf8).
Proof.
  intros Hrec Hpdu Hdc Hre.
  apply submit_records_Ok in Hrec
    as (created_at & source & pdu' & dst & src & validity & raw' & pages'
        & billing & bill & ld & Hpdu' & Hre' & _ & _ & Hld & Hld' & _ & _).
  rewrite Hpdu in Hpdu'. injection Hpdu' as <-.
  rewrite Hre in Hre'. injection Hre' as <- <-.
  rewrite Hdc in Hld.
  apply submit_log_data_Ok in Hld as (Hclean & _ & Hk1 & Hk2 & _).
  apply sanitize_doc_clean in Hld' as [_ Hget]; [ | done ].
  destruct (Hget _ _ Hk1) as (v1 & Hv1 & Hs1).
  destruct (Hget _ _ Hk2) as (v2 & Hv2 & Hs2).
  apply sanitize_scalar in Hs1; [ | done ]. simpl in Hs1. subst v1.
  split; [ done | ]. eexists. split; [ | reflexivity ].
  rewrite Hv2. f_equal. unfold short_message_decoded in Hs2.
  destruct (LOGGER_PRIVACY cfg);
    repeat case_bool_decide;
    (apply sanitize_scalar in Hs2; [ | done ]); by subst v2.
Qed.
End PresentDataCoding.

Lemma present_data_coding_record_witness :
  dict_get (KStr "data_coding") coded_records.1.1 = Some (VNum (NInt 8))
  /\ exists c,
       dict_get (KStr "short_message_decoded") coded_records.1.1
       = Some (if LOGGER_PRIVACY a_config
               then private_chars
                      (String.length
                         (decode_replace (Library := coded_library) c
                            [x00; x48; x00; x69]))
               else VStr (decode_replace (Library := coded_library) c
                            [x00; x48; x00; x69]))
       /\ c = (if bool_decide
                    (8%Z ∈ [SMSC_DEFAULT_ALPHABET (Library := coded_library);
                            IA5_ASCII (Library := coded_library)])
               then Ascii
               else if bool_decide (8%Z = LATIN_1 (Library := coded_library))
               then Latin1
               else if bool_decide (8%Z = UCS2 (Library := coded_library))
               then Utf16be
               else Utf8).
Proof.
  apply (present_data_coding_record (lib := coded_library) a_config
           (submit_message 1 "m1" [x03]) coded_records.1.1 "u1"
           coded_records.2 coded_pdu [x00; x48; x00; x69] 1 8).
  - vm_compute. reflexivity.
  - reflexivity.
  - reflexivity.
  - reflexivity.
Defined.

Section FurtherReceipt.
Context {lib : Library} (cfg : config).
Implicit Types (msg : message) (db : store) (h e : dict).

(** X23.  A further delivery receipt.  When the stored document of the
    message already holds receipts, as they were stored, the receipt that
    arrives is sanitized and put at the end of the list: the receipts
    before it are kept as they are, in their order. *)
Theorem receipt_appended now msg db h e x l :
  str_take 12 (routing_key msg) = "dlr_thrower." ->
  headers msg = Some h -> wf (VDict h) = true ->
  dlr_entry cfg now h = Ok e ->
  dict_get (KStr "dlr")
    (default [] (get_one_submodule (MONGO_LOG_COLLECTION cfg)
                   (message_id msg) db))
  = Some (VList (x :: l)) ->
  Forall (fun r => stored_entry r = true) (x :: l) ->
  exists w,
    sanitize (VDict e) = Ok w /\ stored_entry w = true
    /\ stored_field (process_message cfg now msg db) (MONGO_LOG_COLLECTION cfg)
         (message_id msg) "dlr"
       = Some (VList ((x :: l) ++ [w])).
Proof.
  intros Hkey Hh Hwf He Hget Hl.
  destruct (on_dlr_thrower_appends cfg now msg db h e (x :: l))
    as (w & Hw & Hs & Hrun); try done.
  exists w. split; [ done | split; [ done | ] ].
  rewrite process_dlr_thrower by done. rewrite Hrun. apply stored_dlr.
Qed.
End FurtherReceipt.

Lemma receipt_appended_witness :
  exists w,
    sanitize
      (VDict (dict_set (KStr "created_at") (VStr "10:00:02")
                [ (KStr "message_status", VStr "DELIVRD");
                  (KStr "level", VNum (NInt 3));
                  (KStr "dlr-url", VNone) ])) = Ok w
    /\ stored_entry w = true
    /\ stored_field
         (process_message (lib := stub_library) a_config "10:00:02"
            (dlr_message 2 "m1" "DELIVRD") one_receipt_store)
         "logs" "m1" "dlr"
       = Some (VList
                 ((VDict [ (KStr "message_status", VStr "ESME_ROK");
                           (KStr "level", VNum (NInt 3));
                           (KStr "created_at", VStr "10:00:01");
                           (KStr "dlr_url", VStr "None") ] :: [])
                  ++ [w])).
Proof.
  apply (receipt_appended (lib := stub_library) a_config "10:00:02"
           (dlr_message 2 "m1" "DELIVRD") one_receipt_store
           [ (KStr "message_status", VStr "DELIVRD");
             (KStr "level", VNum (NInt 3));
             (KStr "dlr-url", VNone) ]).
  - reflexivity.
  - reflexivity.
  - reflexivity.
  - reflexivity.
  - vm_compute. reflexivity.
  - repeat constructor.
Defined.
